(** * Elbob Dashboard API: token custody and session issuance

    A shallow embedding of the authentication slice of the backend:

    - [config/tokenStore.js], both revisions: the in-memory [Map] store and
      the AES-256-GCM vault whose blob travels inside the session JWT;
    - [config/userStore.js]: the sheet-backed roster with its cache and the
      process-wide "active admin" pointer;
    - [routes/auth.js], both revisions: [POST /verify],
      [POST /refresh-google], [GET /me] and [POST /logout];
    - [middleware/auth.js]: [requireAuth] and [requireAdmin];
    - [config/serviceAccount.js]: the cached service account token.

    JavaScript strings are sequences of UTF-16 code units, buffers are
    sequences of bytes, numbers that hold timestamps are integers.  The Node
    primitives the code calls (UTF-8 transcoding, base64url, [Buffer]
    slicing) are written out; the block cipher, the hash, the JWT signer,
    the clock and the two HTTP collaborators are interfaces. *)

From Stdlib Require Import ZArith List Lia Bool ZifyBool.
From Stdlib Require Import Strings.Byte Strings.Ascii Strings.String.
From Stdlib Require Import Floats.SpecFloat.
From stdpp Require Import base decidable option list gmap.
Import ListNotations.

#[local] Open Scope Z_scope.

(* ================================================================== *)
(** * Part I: definitions                                              *)
(* ================================================================== *)

(** ** Bytes and buffers *)

Abbreviation bytes := (list byte).

#[global] Instance byte_eq_decision : EqDecision byte := Byte.byte_eq_dec.

Definition Z_of_byte (b : byte) : Z := Z.of_N (Byte.to_N b).

(** A byte from an integer, keeping the low eight bits as a [Uint8Array]
    store does. *)
Definition byte_of_Z (z : Z) : byte :=
  match Byte.of_N (Z.to_N (z mod 256)) with
  | Some b => b
  | None => x00
  end.

(** [buf.subarray(start)] and [buf.subarray(start, end)] for non-negative
    indices: both ends are clamped to the buffer. *)
Definition subarray_from (start : nat) (buf : bytes) : bytes :=
  drop start buf.

Definition subarray (start stop : nat) (buf : bytes) : bytes :=
  take (stop - start) (drop start buf).

(** ** JavaScript strings *)

(** A string is its sequence of UTF-16 code units. *)
Abbreviation jsstring := (list Z).

(** An ASCII literal as a JavaScript string. *)
Definition js (s : string) : jsstring :=
  map (fun a => Z.of_N (N_of_ascii a)) (list_ascii_of_string s).

Definition is_code_unit (c : Z) : bool := (0 <=? c) && (c <? 65536).
Definition is_high_surrogate (c : Z) : bool := (55296 <=? c) && (c <=? 56319).
Definition is_low_surrogate (c : Z) : bool := (56320 <=? c) && (c <=? 57343).

(** [String.prototype.isWellFormed]: every surrogate is half of a pair. *)
Fixpoint isWellFormed (s : jsstring) : bool :=
  match s with
  | [] => true
  | c :: t =>
      if negb (is_code_unit c) then false
      else if is_high_surrogate c then
        match t with
        | d :: t' => is_low_surrogate d && isWellFormed t'
        | [] => false
        end
      else if is_low_surrogate c then false
      else isWellFormed t
  end.

(** White space and line terminators, as [String.prototype.trim] sees them. *)
Definition is_js_space (c : Z) : bool :=
  ((9 <=? c) && (c <=? 13)) || (c =? 32) || (c =? 160) || (c =? 5760)
  || ((8192 <=? c) && (c <=? 8202)) || (c =? 8232) || (c =? 8233)
  || (c =? 8239) || (c =? 8287) || (c =? 12288) || (c =? 65279).

Fixpoint trimStart (s : jsstring) : jsstring :=
  match s with
  | c :: t => if is_js_space c then trimStart t else s
  | [] => []
  end.

Definition trim (s : jsstring) : jsstring :=
  rev (trimStart (rev (trimStart s))).

(** [s.split(',')]: the pieces between separators; a string with no
    separator is its own single piece. *)
Fixpoint split_on (sep : Z) (s : jsstring) : list jsstring :=
  match s with
  | [] => [[]]
  | c :: t =>
      if c =? sep then [] :: split_on sep t
      else match split_on sep t with
           | piece :: rest => (c :: piece) :: rest
           | [] => [[c]]
           end
  end.

Definition nonempty (s : jsstring) : bool :=
  match s with [] => false | _ :: _ => true end.

(** [xs.includes(x)] on an array of strings. *)
Definition includes (xs : list jsstring) (x : jsstring) : bool :=
  bool_decide (x ∈ xs).

(** ** UTF-8 transcoding ([Buffer] with the ['utf8'] encoding) *)

Definition REPLACEMENT : Z := 65533.

Definition utf8_of_code_point (cp : Z) : bytes :=
  if cp <? 128 then [byte_of_Z cp]
  else if cp <? 2048 then
    [byte_of_Z (192 + cp / 64); byte_of_Z (128 + cp mod 64)]
  else if cp <? 65536 then
    [byte_of_Z (224 + cp / 4096); byte_of_Z (128 + (cp / 64) mod 64);
     byte_of_Z (128 + cp mod 64)]
  else
    [byte_of_Z (240 + cp / 262144); byte_of_Z (128 + (cp / 4096) mod 64);
     byte_of_Z (128 + (cp / 64) mod 64); byte_of_Z (128 + cp mod 64)].

(** Writing a string as UTF-8: a surrogate pair is one four-byte sequence,
    a surrogate on its own is written as U+FFFD. *)
Fixpoint utf8_encode (s : jsstring) : bytes :=
  match s with
  | [] => []
  | c :: t =>
      if is_high_surrogate c then
        match t with
        | d :: t' =>
            if is_low_surrogate d
            then utf8_of_code_point (65536 + (c - 55296) * 1024 + (d - 56320))
                   ++ utf8_encode t'
            else utf8_of_code_point REPLACEMENT ++ utf8_encode t
        | [] => utf8_of_code_point REPLACEMENT
        end
      else if is_low_surrogate c then
        utf8_of_code_point REPLACEMENT ++ utf8_encode t
      else utf8_of_code_point c ++ utf8_encode t
  end.

Definition utf16_of_code_point (cp : Z) : jsstring :=
  if cp <? 65536 then [cp]
  else [55296 + (cp - 65536) / 1024; 56320 + (cp - 65536) mod 1024].

Definition in_range (lo hi : Z) (b : byte) : bool :=
  (lo <=? Z_of_byte b) && (Z_of_byte b <=? hi).

Definition cont (b : byte) : Z := Z_of_byte b - 128.

(** Reading UTF-8 ([buf.toString('utf8')]): each maximal ill-formed
    subsequence becomes one U+FFFD and decoding resumes at the offending
    byte. *)
Fixpoint utf8_decode (bs : bytes) : jsstring :=
  match bs with
  | [] => []
  | b0 :: t0 =>
      let x0 := Z_of_byte b0 in
      if x0 <? 128 then x0 :: utf8_decode t0
      else if (194 <=? x0) && (x0 <=? 223) then
        match t0 with
        | b1 :: t1 =>
            if in_range 128 191 b1
            then ((x0 - 192) * 64 + cont b1) :: utf8_decode t1
            else REPLACEMENT :: utf8_decode t0
        | [] => [REPLACEMENT]
        end
      else if (224 <=? x0) && (x0 <=? 239) then
        match t0 with
        | b1 :: t1 =>
            if in_range (if x0 =? 224 then 160 else 128)
                        (if x0 =? 237 then 159 else 191) b1
            then match t1 with
                 | b2 :: t2 =>
                     if in_range 128 191 b2
                     then ((x0 - 224) * 4096 + cont b1 * 64 + cont b2)
                            :: utf8_decode t2
                     else REPLACEMENT :: utf8_decode t1
                 | [] => [REPLACEMENT]
                 end
            else REPLACEMENT :: utf8_decode t0
        | [] => [REPLACEMENT]
        end
      else if (240 <=? x0) && (x0 <=? 244) then
        match t0 with
        | b1 :: t1 =>
            if in_range (if x0 =? 240 then 144 else 128)
                        (if x0 =? 244 then 143 else 191) b1
            then match t1 with
                 | b2 :: t2 =>
                     if in_range 128 191 b2
                     then match t2 with
                          | b3 :: t3 =>
                              if in_range 128 191 b3
                              then utf16_of_code_point
                                     ((x0 - 240) * 262144 + cont b1 * 4096
                                      + cont b2 * 64 + cont b3)
                                     ++ utf8_decode t3
                              else REPLACEMENT :: utf8_decode t2
                          | [] => [REPLACEMENT]
                          end
                     else REPLACEMENT :: utf8_decode t1
                 | [] => [REPLACEMENT]
                 end
            else REPLACEMENT :: utf8_decode t0
        | [] => [REPLACEMENT]
        end
      else REPLACEMENT :: utf8_decode t0
  end.

(** ** base64url ([Buffer] with the ['base64url'] encoding) *)

(** The URL-safe alphabet: [A-Z], [a-z], [0-9], [-], [_]. *)
Definition b64url_char (v : Z) : Z :=
  if v <? 26 then 65 + v
  else if v <? 52 then 71 + v
  else if v <? 62 then v - 4
  else if v =? 62 then 45
  else 95.

Definition is_b64url_char (c : Z) : bool :=
  ((65 <=? c) && (c <=? 90)) || ((97 <=? c) && (c <=? 122))
  || ((48 <=? c) && (c <=? 57)) || (c =? 45) || (c =? 95).

(** [buf.toString('base64url')]: three bytes give four characters, and the
    last group is left without padding. *)
Fixpoint b64url_encode (bs : bytes) : jsstring :=
  match bs with
  | [] => []
  | b0 :: t0 =>
      let x0 := Z_of_byte b0 in
      match t0 with
      | [] => [b64url_char (x0 / 4); b64url_char (x0 mod 4 * 16)]
      | b1 :: t1 =>
          let x1 := Z_of_byte b1 in
          match t1 with
          | [] =>
              [b64url_char (x0 / 4); b64url_char (x0 mod 4 * 16 + x1 / 16);
               b64url_char (x1 mod 16 * 4)]
          | b2 :: t2 =>
              let x2 := Z_of_byte b2 in
              b64url_char (x0 / 4)
                :: b64url_char (x0 mod 4 * 16 + x1 / 16)
                :: b64url_char (x1 mod 16 * 4 + x2 / 64)
                :: b64url_char (x2 mod 64)
                :: b64url_encode t2
          end
      end
  end.

(** The decoder reads the URL-safe and the standard alphabet alike. *)
Definition unbase64 (c : Z) : option Z :=
  if (65 <=? c) && (c <=? 90) then Some (c - 65)
  else if (97 <=? c) && (c <=? 122) then Some (c - 71)
  else if (48 <=? c) && (c <=? 57) then Some (c + 4)
  else if (c =? 45) || (c =? 43) then Some 62
  else if (c =? 95) || (c =? 47) then Some 63
  else None.

(** Node's decoder is forgiving: it never rejects a string.  It reads a
    code unit by its low byte ([static_cast<uint8_t>]); characters outside
    the alphabets are passed over and [=] ends the data. *)
Fixpoint b64_sextets (s : jsstring) : list Z :=
  match s with
  | [] => []
  | c :: t =>
      let c8 := c mod 256 in
      if c8 =? 61 then []
      else match unbase64 c8 with
           | Some v => v :: b64_sextets t
           | None => b64_sextets t
           end
  end.

Fixpoint b64_bytes (vs : list Z) : bytes :=
  match vs with
  | v0 :: v1 :: t1 =>
      byte_of_Z (v0 * 4 + v1 / 16) ::
      match t1 with
      | [] => []
      | v2 :: t2 =>
          byte_of_Z (v1 mod 16 * 16 + v2 / 4) ::
          match t2 with
          | [] => []
          | v3 :: t3 => byte_of_Z (v2 mod 4 * 64 + v3) :: b64_bytes t3
          end
      end
  | _ => []
  end.

(** [Buffer.from(s, 'base64url')]. *)
Definition b64url_decode (s : jsstring) : bytes := b64_bytes (b64_sextets s).

(** ** JavaScript values and completions *)

(** The values a parsed JSON body or a JWT claim can hold.  Arrays and
    plain objects are only ever tested and passed on, never inspected. *)
Inductive js_value :=
| JSUndefined
| JSNull
| JSBool (b : bool)
| JSNumber (x : spec_float)
| JSString (s : jsstring)
| JSObject.

(** [!!v] *)
Definition truthy (v : js_value) : bool :=
  match v with
  | JSUndefined | JSNull => false
  | JSBool b => b
  | JSNumber (S754_zero _) | JSNumber S754_nan => false
  | JSNumber _ => true
  | JSString s => nonempty s
  | JSObject => true
  end.

(** [typeof v === 'string'] *)
Definition is_string (v : js_value) : bool :=
  match v with JSString _ => true | _ => false end.

(** [a || b] *)
Definition js_or (a b : js_value) : js_value := if truthy a then a else b.

(** What a [throw] carries. *)
Inductive js_error :=
| TypeError
| SyntaxError
| FetchError
| ERR_CRYPTO_INVALID_KEYLEN
| ERR_CRYPTO_INVALID_IV
| ERR_CRYPTO_INVALID_AUTH_TAG
| ERR_CRYPTO_AUTH_FAILED
| JsonWebTokenError
| NoAdminSignedIn
| SheetsApiError (status : Z).

(** How an evaluation ends: with a value, or by throwing. *)
Inductive completion (A : Type) :=
| Normal (a : A)
| Throw (e : js_error).
Arguments Normal {A} a.
Arguments Throw {A} e.

Definition cbind {A B} (c : completion A) (k : A -> completion B)
  : completion B :=
  match c with
  | Normal a => k a
  | Throw e => Throw e
  end.

(** ** [process.env] *)

Record process_env := {
  JWT_SECRET : option jsstring;
  ADMIN_EMAILS : option jsstring;
  JWT_EXPIRES_IN : option jsstring;
}.

(** [process.env.X || fallback]: an unset and an empty variable both give
    the fallback. *)
Definition env_or (v : option jsstring) (fallback : jsstring) : jsstring :=
  match v with
  | Some (c :: s) => c :: s
  | _ => fallback
  end.

(** ** Node's [crypto] module *)

(** The primitives behind ['sha256'] and ['aes-256-gcm']: the hash, the
    counter-mode keystream applied to a message, and the 16-byte GCM tag of
    a ciphertext. *)
Class NodeCrypto := {
  sha256 : bytes -> bytes;
  aes256_ctr : bytes -> bytes -> bytes -> bytes;
  gcm_tag : bytes -> bytes -> bytes -> bytes;
}.

(** What the code relies on: digest and tag sizes, and that counter mode
    undoes itself under the same key and nonce. *)
Class NodeCryptoLaws `{NodeCrypto} : Prop := {
  sha256_length : forall m, length (sha256 m) = 32%nat;
  gcm_tag_length : forall k iv c, length (gcm_tag k iv c) = 16%nat;
  aes256_ctr_involutive :
    forall k iv m, aes256_ctr k iv (aes256_ctr k iv m) = m;
}.

(** The process's source of randomness: a sequence of bytes and how far it
    has been consumed. *)
Record entropy := {
  rand : nat -> byte;
  cursor : nat;
}.

(** [crypto.randomBytes(n)] *)
Definition randomBytes (n : nat) (g : entropy) : bytes * entropy :=
  (map (rand g) (seq (cursor g) n),
   {| rand := rand g; cursor := (cursor g + n)%nat |}).

Section Crypto.
Context `{NodeCrypto}.

(** A [Cipher] or [Decipher] object: key, nonce, the input seen so far,
    and for a decipher the tag given to [setAuthTag]. *)
Record cipher := {
  c_key : bytes;
  c_iv : bytes;
  c_seen : bytes;
  c_tag : option bytes;
}.

(** [createCipheriv('aes-256-gcm', key, iv)] and [createDecipheriv]: the
    key must be 32 bytes; GCM takes a nonce of any length but zero. *)
Definition createCipheriv (key iv : bytes) : completion cipher :=
  if negb (length key =? 32)%nat then Throw ERR_CRYPTO_INVALID_KEYLEN
  else if (length iv =? 0)%nat then Throw ERR_CRYPTO_INVALID_IV
  else Normal {| c_key := key; c_iv := iv; c_seen := []; c_tag := None |}.

Definition createDecipheriv := createCipheriv.

(** [cipher.update(data)] / [decipher.update(data)]: the keystream is
    applied to the new chunk at its position in the stream. *)
Definition update (c : cipher) (data : bytes) : cipher * bytes :=
  ({| c_key := c_key c; c_iv := c_iv c; c_seen := c_seen c ++ data;
      c_tag := c_tag c |},
   drop (length (c_seen c))
        (aes256_ctr (c_key c) (c_iv c) (c_seen c ++ data))).

(** [cipher.final()]: GCM has no padding, nothing is left to emit. *)
Definition cipher_final (c : cipher) : bytes := [].

(** [cipher.getAuthTag()]: the tag of everything encrypted. *)
Definition getAuthTag (c : cipher) : bytes :=
  gcm_tag (c_key c) (c_iv c) (aes256_ctr (c_key c) (c_iv c) (c_seen c)).

Definition valid_gcm_tag_length (n : nat) : bool :=
  (n =? 4)%nat || (n =? 8)%nat || ((12 <=? n)%nat && (n <=? 16)%nat).

(** [decipher.setAuthTag(tag)] *)
Definition setAuthTag (c : cipher) (tag : bytes) : completion cipher :=
  if valid_gcm_tag_length (length tag)
  then Normal {| c_key := c_key c; c_iv := c_iv c; c_seen := c_seen c;
                 c_tag := Some tag |}
  else Throw ERR_CRYPTO_INVALID_AUTH_TAG.

(** [decipher.final()]: throws unless the tag that was set is the tag of
    the ciphertext seen, compared over the length that was set. *)
Definition decipher_final (c : cipher) : completion bytes :=
  match c_tag c with
  | Some tag =>
      if bool_decide
           (tag = take (length tag) (gcm_tag (c_key c) (c_iv c) (c_seen c)))
      then Normal []
      else Throw ERR_CRYPTO_AUTH_FAILED
  | None => Throw ERR_CRYPTO_AUTH_FAILED
  end.

(** *** [config/tokenStore.js], the vault *)

(** The one algorithm the file asks for; the cipher objects above are
    its. *)
Definition ALGORITHM : string := "aes-256-gcm".
Definition IV_BYTES : nat := 12.
Definition TAG_BYTES : nat := 16.

Definition getKey (env : process_env) : bytes :=
  sha256 (utf8_encode
            (env_or (JWT_SECRET env) (js "fallback-secret-change-me"))).

Definition encryptToken (env : process_env) (g : entropy)
    (plaintext : jsstring) : completion jsstring * entropy :=
  let '(iv, g') := randomBytes IV_BYTES g in
  (cbind (createCipheriv (getKey env) iv) (fun cipher0 =>
     let '(cipher1, out) := update cipher0 (utf8_encode plaintext) in
     let enc := out ++ cipher_final cipher1 in
     let tag := getAuthTag cipher1 in
     Normal (b64url_encode (iv ++ tag ++ enc))),
   g').

(** The body of the [try] block of [decryptToken]. *)
Definition decryptToken_try (env : process_env) (blob : jsstring)
  : completion jsstring :=
  let buf := b64url_decode blob in
  let iv := subarray 0 IV_BYTES buf in
  let tag := subarray IV_BYTES (IV_BYTES + TAG_BYTES) buf in
  let ciphertext := subarray_from (IV_BYTES + TAG_BYTES) buf in
  cbind (createDecipheriv (getKey env) iv) (fun decipher0 =>
  cbind (setAuthTag decipher0 tag) (fun decipher1 =>
  let '(decipher2, out) := update decipher1 ciphertext in
  cbind (decipher_final decipher2) (fun fin =>
  Normal (utf8_decode out ++ utf8_decode fin)))).

(** [decryptToken]: whatever the block throws is caught and answered
    with [null]. *)
Definition decryptToken (env : process_env) (blob : jsstring)
  : completion js_value :=
  match decryptToken_try env blob with
  | Normal s => Normal (JSString s)
  | Throw _ => Normal JSNull
  end.

(** The three parts [encryptToken] joins, for a given state of the
    random source. *)
Definition nonce_of (g : entropy) : bytes := fst (randomBytes IV_BYTES g).

Definition ciphertext_of (env : process_env) (g : entropy) (T : jsstring)
  : bytes :=
  aes256_ctr (getKey env) (nonce_of g) (utf8_encode T).

Definition tag_of (env : process_env) (g : entropy) (T : jsstring)
  : bytes :=
  gcm_tag (getKey env) (nonce_of g) (ciphertext_of env g T).
End Crypto.

(** ** The session credential's claims *)

(** The payload signed into our JWT and handed back by [jwt.verify] as
    [req.user].  The two vault claims are present only in credentials
    minted by the JWT-embedded revision. *)
Record jwt_payload := {
  userId : jsstring;
  name : js_value;
  email : jsstring;
  picture : js_value;
  role : jsstring;
  encryptedGoogleToken : option jsstring;
  googleTokenExpiresAt : option Z;
}.

(** The part of an Express request the token store looks at. *)
Record request := { user : option jwt_payload }.

(** ** [config/tokenStore.js], first revision: the in-memory [Map] *)

Module MapStore.

Record entry := { googleToken : js_value; expiresAt : Z }.

(** The [Map] from user id to entry. *)
Abbreviation table := (gmap jsstring entry).

Definition GOOGLE_TOKEN_TTL_MS : Z := 55 * 60 * 1000.

Definition set (now : Z) (userId : jsstring) (googleToken : js_value)
    (store : table) : table :=
  <[userId := {| googleToken := googleToken;
                 expiresAt := now + GOOGLE_TOKEN_TTL_MS |}]> store.

(** [get(userId)]: the token and the store as the call leaves it. *)
Definition get (now : Z) (userId : jsstring) (store : table)
  : js_value * table :=
  match store !! userId with
  | None => (JSNull, store)
  | Some entry =>
      if expiresAt entry <? now
      then (JSNull, base.delete userId store)
      else (googleToken entry, store)
  end.

Definition is_null (v : js_value) : bool :=
  match v with JSNull => true | _ => false end.

Definition has (now : Z) (userId : jsstring) (store : table)
  : bool * table :=
  let '(v, store') := get now userId store in (negb (is_null v), store').

Definition delete (userId : jsstring) (store : table) : table :=
  base.delete userId store.

Definition isExpiringSoon (now : Z) (userId : jsstring)
    (store : table) : bool :=
  match store !! userId with
  | None => true
  | Some entry => expiresAt entry - now <? 5 * 60 * 1000
  end.

End MapStore.

(** ** [config/tokenStore.js], second revision: the blob inside the JWT *)

Module JwtStore.

Record entry := { googleToken : js_value; expiresAt : Z }.

(** The [_mem] map from user id to entry. *)
Abbreviation table := (gmap jsstring entry).

Definition GOOGLE_TOKEN_TTL_MS : Z := 55 * 60 * 1000.

Section WithCrypto.
Context `{NodeCrypto}.

Definition encrypt (env : process_env) (g : entropy)
    (googleToken : jsstring) : completion jsstring * entropy :=
  encryptToken env g googleToken.

(** [req?.user?.encryptedGoogleToken] *)
Definition blob_claim (req : option request) : option jsstring :=
  match req with
  | Some {| user := Some claims |} => encryptedGoogleToken claims
  | _ => None
  end.

(** The claim when [if (blob)] lets it through. *)
Definition blob_of (req : option request) : option jsstring :=
  match blob_claim req with
  | Some (c :: s) => Some (c :: s)
  | _ => None
  end.

(** The fallback path of [get]: the warm-instance cache. *)
Definition get_cached (now : Z) (userId : jsstring)
    (mem : table) : js_value * table :=
  match mem !! userId with
  | None => (JSNull, mem)
  | Some entry =>
      if expiresAt entry <? now
      then (JSNull, base.delete userId mem)
      else (googleToken entry, mem)
  end.

Definition get (env : process_env) (now : Z) (userId : jsstring)
    (req : option request) (mem : table)
  : completion js_value * table :=
  match blob_of req with
  | Some blob =>
      match decryptToken env blob with
      | Normal token =>
          if truthy token
          then (Normal token,
                <[userId := {| googleToken := token;
                               expiresAt := now + GOOGLE_TOKEN_TTL_MS |}]>
                  mem)
          else let '(v, mem') := get_cached now userId mem in
               (Normal v, mem')
      | Throw e => (Throw e, mem)
      end
  | None => let '(v, mem') := get_cached now userId mem in (Normal v, mem')
  end.

Definition set (now : Z) (userId : jsstring) (googleToken : js_value)
    (mem : table) : table :=
  <[userId := {| googleToken := googleToken;
                 expiresAt := now + GOOGLE_TOKEN_TTL_MS |}]> mem.

Definition delete (userId : jsstring) (mem : table) : table :=
  base.delete userId mem.

(** [req?.user?.googleTokenExpiresAt] *)
Definition expiry_claim (req : option request) : option Z :=
  match req with
  | Some {| user := Some claims |} => googleTokenExpiresAt claims
  | _ => None
  end.

(** The claim when [if (exp)] lets it through. *)
Definition exp_of (req : option request) : option Z :=
  match expiry_claim req with
  | Some exp => if exp =? 0 then None else Some exp
  | None => None
  end.

Definition isExpiringSoon (now : Z) (userId : jsstring)
    (req : option request) (mem : table) : bool :=
  match exp_of req with
  | Some exp => exp - now <? 5 * 60 * 1000
  | None =>
      match mem !! userId with
      | None => true
      | Some entry => expiresAt entry - now <? 5 * 60 * 1000
      end
  end.

End WithCrypto.
End JwtStore.

(** ** The collaborators *)

(** [String.prototype.toLowerCase], a table of the Unicode standard. *)
Class Unicode := { toLowerCase : jsstring -> jsstring }.

(** Lower-casing is idempotent and leaves white space where it is. *)
Class UnicodeLaws `{Unicode} : Prop := {
  toLowerCase_idem : forall s, toLowerCase (toLowerCase s) = toLowerCase s;
  toLowerCase_trim : forall s, toLowerCase (trim s) = trim (toLowerCase s);
}.

(** The profile record of the identity endpoint. *)
Record profile := {
  p_email : js_value;
  p_name : js_value;
  p_given_name : js_value;
  p_picture : js_value;
}.

(** What [await fetch(...)] gives: a rejection, or a response with its
    status and what [res.json()] would settle to. *)
Inductive http_response (B : Type) :=
| NetworkFailure
| Http (status : Z) (json : completion B).
Arguments NetworkFailure {B}.
Arguments Http {B} status json.

(** A response that did arrive. *)
Record fetched (B : Type) := {
  res_status : Z;
  res_json : completion B;
}.
Arguments res_status {B} _.
Arguments res_json {B} _.

(** [res.ok] *)
Definition ok {B} (res : fetched B) : bool :=
  (200 <=? res_status res) && (res_status res <=? 299).

(** The two fields the roster code reads off a Sheets API body: the tab
    titles of [sheets.properties] and the rows of [values]. *)
Record sheets_json := {
  sheets : option (list jsstring);
  values : option (list (list jsstring));
}.

Inductive sheets_request :=
| GetSheetProperties
| AddUsersSheet
| PutUsersHeaders
| GetUsersValues.

Inductive jwt_verdict :=
| Verified (payload : jwt_payload)
| TokenExpiredError
| InvalidToken.

(** The world as the server meets it: every answer may depend on the
    moment, counted in interactions since the process started. *)
Class World := {
  clock : nat -> Z;
  google_userinfo : nat -> js_value -> http_response profile;
  sheets_api :
    nat -> sheets_request -> js_value -> http_response (option sheets_json);
  jwt_sign :
    nat -> jwt_payload -> option jsstring -> jsstring -> completion jsstring;
  jwt_verify : nat -> jsstring -> option jsstring -> jwt_verdict;
}.

(** What [jsonwebtoken] gives by construction: the token carries its
    claims, so a token that [jwt.sign] made and that [jwt.verify] accepts
    under the same secret comes back with the string claims that were
    signed. *)
Class JwtLaws `{World} : Prop := {
  jwt_verify_signed :
    forall n m payload secret expiresIn token verified,
      jwt_sign m payload secret expiresIn = Normal token ->
      jwt_verify n token secret = Verified verified ->
      userId verified = userId payload
      /\ email verified = email payload
      /\ role verified = role payload;
}.

(** ** Process state and the handler monad *)

(** One roster row as [readAllRows] builds it; a bootstrap admin found by
    [lookupUser] has no row. *)
Record roster_user := {
  u_email : jsstring;
  u_role : jsstring;
  u_row : option (Z * jsstring * jsstring);
}.

Inductive outbound :=
| CallUserinfo (token : js_value)
| CallSheets (r : sheets_request) (token : js_value).

(** The module-level variables of [tokenStore.js] and [userStore.js], the
    count of interactions so far and the outbound calls made. *)
Record server := {
  store : MapStore.table;
  adminEmail : option jsstring;
  cache : option (gmap jsstring roster_user);
  cacheTime : Z;
  ticks : nat;
  calls : list outbound;
}.

Definition with_store (f : MapStore.table -> MapStore.table) (s : server) :=
  {| store := f (store s); adminEmail := adminEmail s; cache := cache s;
     cacheTime := cacheTime s; ticks := ticks s; calls := calls s |}.

Definition with_adminEmail (a : option jsstring) (s : server) :=
  {| store := store s; adminEmail := a; cache := cache s;
     cacheTime := cacheTime s; ticks := ticks s; calls := calls s |}.

Definition with_cache (c : option (gmap jsstring roster_user)) (t : Z)
    (s : server) :=
  {| store := store s; adminEmail := adminEmail s; cache := c;
     cacheTime := t; ticks := ticks s; calls := calls s |}.

Definition tick (log : list outbound) (s : server) :=
  {| store := store s; adminEmail := adminEmail s; cache := cache s;
     cacheTime := cacheTime s; ticks := S (ticks s);
     calls := calls s ++ log |}.

(** A computation that reads and writes the process state and may throw;
    the state survives a throw. *)
Definition M (A : Type) : Type := server -> completion A * server.

Definition ret {A} (a : A) : M A := fun s => (Normal a, s).

Definition throw {A} (e : js_error) : M A := fun s => (Throw e, s).

Definition bind {A B} (m : M A) (k : A -> M B) : M B :=
  fun s =>
    match m s with
    | (Normal a, s') => k a s'
    | (Throw e, s') => (Throw e, s')
    end.

(** [try { m } catch (e) { h e }] *)
Definition try_catch {A} (m : M A) (h : js_error -> M A) : M A :=
  fun s =>
    match m s with
    | (Normal a, s') => (Normal a, s')
    | (Throw e, s') => h e s'
    end.

Definition lift {A} (c : completion A) : M A := fun s => (c, s).

Definition when (b : bool) (m : M unit) : M unit := if b then m else ret tt.

Declare Scope js_scope.
Delimit Scope js_scope with js.
Notation "x <- m ;; k" := (bind m (fun x => k))
  (at level 100, m at next level, right associativity) : js_scope.
Notation "m ;;; k" := (bind m (fun _ => k))
  (at level 100, right associativity) : js_scope.

(** The HTTP answer of a handler. *)
Inductive error_message :=
| MissingAuthorizationHeader
| SessionExpired
| InvalidSessionToken
| GoogleAccessTokenRequired
| InvalidOrExpiredGoogleToken
| NoEmailFromGoogle
| NotAuthorised
| AuthenticationFailed
| InvalidGoogleToken
| DifferentAccount
| FailedToRefreshToken.

Inductive response_body :=
| ErrorBody (error : error_message)
| SessionBody (token : jsstring) (user : jwt_payload)
    (tokenExpiresIn : jsstring)
| SuccessBody.

Record response := { status : Z; body : response_body }.

Definition json (body : response_body) : response :=
  {| status := 200; body := body |}.

Definition status_json (status : Z) (error : error_message) : response :=
  {| status := status; body := ErrorBody error |}.

(** The receiver of [.toLowerCase()]: anything but a string has no such
    method and the call throws. *)
Definition as_string (v : js_value) : completion jsstring :=
  match v with
  | JSString s => Normal s
  | _ => Throw TypeError
  end.

Section Server.
Context `{Unicode} `{World}.
#[local] Open Scope js_scope.

(** [Date.now()] *)
Definition Date_now : M Z := fun s => (Normal (clock (ticks s)), tick [] s).

(** [fetch('https://www.googleapis.com/oauth2/v3/userinfo', ...)] with
    the bearer token; the header is a function of the token. *)
Definition fetch_userinfo (token : js_value) : M (fetched profile) :=
  fun s =>
    let s' := tick [CallUserinfo token] s in
    match google_userinfo (ticks s) token with
    | NetworkFailure => (Throw FetchError, s')
    | Http status json =>
        (Normal {| res_status := status; res_json := json |}, s')
    end.

(** [(process.env.ADMIN_EMAILS || '').split(',')
      .map(e => e.trim().toLowerCase()).filter(Boolean)] *)
Definition bootstrap_admins (env : process_env) : list jsstring :=
  filter (fun e => nonempty e = true)
    (map (fun e => toLowerCase (trim e))
       (split_on 44 (env_or (ADMIN_EMAILS env) []))).

(** [(profile.email || '').toLowerCase().trim()] *)
Definition normalized_email (p : profile) : completion jsstring :=
  cbind (as_string (js_or (p_email p) (JSString [])))
    (fun e => Normal (trim (toLowerCase e))).

(** *** The token store as the routes use it (one-argument calls) *)

Definition tokenStore_set (userId : jsstring) (googleToken : js_value)
  : M unit :=
  now <- Date_now;;
  (fun s => (Normal tt, with_store (MapStore.set now userId googleToken) s)).

Definition tokenStore_get (userId : jsstring) : M js_value :=
  fun s =>
    match store s !! userId with
    | None => (Normal JSNull, s)
    | Some _ =>
        (now <- Date_now;;
         (fun s' =>
            let '(v, st) := MapStore.get now userId (store s') in
            (Normal v, with_store (fun _ => st) s'))) s
    end.

Definition tokenStore_delete (userId : jsstring) : M unit :=
  fun s => (Normal tt, with_store (MapStore.delete userId) s).

(** *** [middleware/auth.js] *)

Definition requireAuth (env : process_env) (authorization : option jsstring)
  : M (response + jwt_payload) :=
  match authorization with
  | Some authHeader =>
      if bool_decide (take 7 authHeader = js "Bearer ") then
        fun s =>
          (Normal
             match jwt_verify (ticks s) (drop 7 authHeader)
                     (JWT_SECRET env) with
             | Verified payload => inr payload
             | TokenExpiredError => inl (status_json 401 SessionExpired)
             | InvalidToken => inl (status_json 401 InvalidSessionToken)
             end,
           tick [] s)
      else ret (inl (status_json 401 MissingAuthorizationHeader))
  | None => ret (inl (status_json 401 MissingAuthorizationHeader))
  end.

(** A route behind [requireAuth]. *)
Definition authenticated (env : process_env)
    (authorization : option jsstring) (handler : jwt_payload -> M response)
  : M response :=
  r <- requireAuth env authorization;;
  match r with
  | inl rejected => ret rejected
  | inr payload => handler payload
  end.
End Server.

(** ** [config/userStore.js]: the sheet-backed roster *)

Module UserStore.
Section WithWorld.
Context `{Unicode} `{World}.
#[local] Open Scope js_scope.

(** The tab's Arabic title, "the users". *)
Definition USERS_TAB : jsstring :=
  [1575; 1604; 1605; 1587; 1578; 1582; 1583; 1605; 1608; 1606].

Definition TTL_MS : Z := 60000.

Definition setAdminEmail (email : jsstring) : M unit :=
  fun s => (Normal tt, with_adminEmail (Some email) s).

(** [adminEmail ? tokenStore.get(adminEmail) : null] *)
Definition admin_token : M js_value :=
  fun s =>
    match adminEmail s with
    | Some (c :: a) => tokenStore_get (c :: a) s
    | _ => (Normal JSNull, s)
    end.

Definition sheetFetch (r : sheets_request) : M (option sheets_json) :=
  token <- admin_token;;
  if negb (truthy token) then throw NoAdminSignedIn
  else fun s =>
    let s' := tick [CallSheets r token] s in
    match sheets_api (ticks s) r token with
    | NetworkFailure => (Throw FetchError, s')
    | Http status json =>
        if ok {| res_status := status; res_json := json |} then (json, s')
        else (Throw (SheetsApiError status),
              if status =? 401 then with_adminEmail None s' else s')
    end.

Definition ensureTab : M unit :=
  meta <- sheetFetch GetSheetProperties;;
  match meta with
  | None => throw TypeError
  | Some meta =>
      if existsb (fun title => bool_decide (title = USERS_TAB))
           (default [] (sheets meta))
      then ret tt
      else (_ <- sheetFetch AddUsersSheet;;
            _ <- sheetFetch PutUsersHeaders;;
            ret tt)
  end.

(** [row[i] || fallback] *)
Definition cell_or (row : list jsstring) (i : nat) (fallback : jsstring)
  : jsstring :=
  match row !! i with
  | Some (c :: s) => c :: s
  | _ => fallback
  end.

Definition row_user (i : nat) (row : list jsstring) : roster_user :=
  {| u_email := trim (toLowerCase (cell_or row 0 []));
     u_role := cell_or row 1 (js "user");
     u_row := Some (Z.of_nat i + 2, cell_or row 2 [], cell_or row 3 []) |}.

Definition rows_of (data : option sheets_json) : list roster_user :=
  match data with
  | Some {| values := Some (header :: first :: more) |} =>
      filter (fun u => nonempty (u_email u) = true)
        (imap row_user (first :: more))
  | _ => []
  end.

Definition readAllRows : M (list roster_user) :=
  data <- sheetFetch GetUsersValues;;
  ret (rows_of data).

(** [new Map(rows.map(u => [u.email, u]))]: a later row wins. *)
Definition roster_map (rows : list roster_user)
  : gmap jsstring roster_user :=
  foldl (fun m u => <[u_email u := u]> m) ∅ rows.

Definition refreshCache : M (list roster_user) :=
  ensureTab;;;
  rows <- readAllRows;;
  now <- Date_now;;
  (fun s => (Normal rows, with_cache (Some (roster_map rows)) now s)).

(** [!cache || Date.now() - cacheTime > TTL_MS] *)
Definition cache_is_stale : M bool :=
  fun s =>
    match cache s with
    | None => (Normal true, s)
    | Some _ => (now <- Date_now;; ret (TTL_MS <? now - cacheTime s)) s
    end.

Definition lookupUser (env : process_env) (email : jsstring)
  : M (option roster_user) :=
  let e := trim (toLowerCase email) in
  if includes (bootstrap_admins env) e
  then ret (Some {| u_email := e; u_role := js "admin"; u_row := None |})
  else
    token <- admin_token;;
    if negb (truthy token) then ret None
    else
      stale <- cache_is_stale;;
      when stale (_ <- refreshCache;; ret tt);;;
      (fun s =>
         (Normal match cache s with
                 | Some c => c !! e
                 | None => None
                 end, s)).

(** [isReady()] *)
Definition isReady : M bool :=
  token <- admin_token;;
  ret (truthy token).

End WithWorld.
End UserStore.

(** ** [routes/auth.js], the revision without a roster *)

Module Routes.
Section WithWorld.
Context `{Unicode} `{World}.
#[local] Open Scope js_scope.

(** The module constant [ADMIN_EMAILS], read off the environment. *)
Definition ADMIN_EMAILS_list := bootstrap_admins.

Definition issue (env : process_env) (payload : jwt_payload) : M response :=
  let expiresIn := env_or (JWT_EXPIRES_IN env) (js "8h") in
  fun s =>
    match jwt_sign (ticks s) payload (JWT_SECRET env) expiresIn with
    | Normal token =>
        (Normal (json (SessionBody token payload expiresIn)), tick [] s)
    | Throw e => (Throw e, tick [] s)
    end.

(** [POST /api/auth/verify] on the parsed body's [googleAccessToken]. *)
Definition verify (env : process_env) (googleAccessToken : js_value)
  : M response :=
  if negb (truthy googleAccessToken) || negb (is_string googleAccessToken)
  then ret (status_json 400 GoogleAccessTokenRequired)
  else
    try_catch
      (gRes <- fetch_userinfo googleAccessToken;;
       if negb (ok gRes)
       then ret (status_json 401 InvalidOrExpiredGoogleToken)
       else
         profile <- lift (res_json gRes);;
         email <- lift (normalized_email profile);;
         if negb (nonempty email)
         then ret (status_json 401 NoEmailFromGoogle)
         else
           let role :=
             if includes (ADMIN_EMAILS_list env) email
             then js "admin" else js "user" in
           tokenStore_set email googleAccessToken;;;
           issue env
             {| userId := email;
                name := js_or (p_name profile)
                          (js_or (p_given_name profile) (JSString email));
                email := email;
                picture := js_or (p_picture profile) JSNull;
                role := role;
                encryptedGoogleToken := None;
                googleTokenExpiresAt := None |})
      (fun _ => ret (status_json 500 AuthenticationFailed)).

(** The handler of [POST /api/auth/refresh-google], behind
    [requireAuth]. *)
Definition refresh_google_handler (googleAccessToken : js_value)
    (user : jwt_payload) : M response :=
  if negb (truthy googleAccessToken)
  then ret (status_json 400 GoogleAccessTokenRequired)
  else
    try_catch
      (gRes <- fetch_userinfo googleAccessToken;;
       if negb (ok gRes)
       then ret (status_json 401 InvalidGoogleToken)
       else
         profile <- lift (res_json gRes);;
         email <- lift (normalized_email profile);;
         if negb (bool_decide (email = userId user))
         then ret (status_json 403 DifferentAccount)
         else
           tokenStore_set email googleAccessToken;;;
           ret (json SuccessBody))
      (fun _ => ret (status_json 500 FailedToRefreshToken)).

Definition refresh_google (env : process_env)
    (authorization : option jsstring) (googleAccessToken : js_value)
  : M response :=
  authenticated env authorization
    (refresh_google_handler googleAccessToken).

End WithWorld.
End Routes.

(** ** [routes/auth.js], the revision with the roster *)

Module RosterRoutes.
Section WithWorld.
Context `{Unicode} `{World}.
#[local] Open Scope js_scope.

(** The module constant [BOOTSTRAP_ADMINS]. *)
Definition BOOTSTRAP_ADMINS := bootstrap_admins.

Definition verify (env : process_env) (googleAccessToken : js_value)
  : M response :=
  if negb (truthy googleAccessToken) || negb (is_string googleAccessToken)
  then ret (status_json 400 GoogleAccessTokenRequired)
  else
    try_catch
      (gRes <- fetch_userinfo googleAccessToken;;
       if negb (ok gRes)
       then ret (status_json 401 InvalidOrExpiredGoogleToken)
       else
         profile <- lift (res_json gRes);;
         email <- lift (normalized_email profile);;
         if negb (nonempty email)
         then ret (status_json 401 NoEmailFromGoogle)
         else
           tokenStore_set email googleAccessToken;;;
           when (includes (BOOTSTRAP_ADMINS env) email)
             (UserStore.setAdminEmail email);;;
           found <-
             try_catch (UserStore.lookupUser env email)
               (fun _ =>
                  ret (if includes (BOOTSTRAP_ADMINS env) email
                       then Some {| u_email := email;
                                    u_role := js "admin";
                                    u_row := None |}
                       else None));;
           match found with
           | None =>
               tokenStore_delete email;;;
               ret (status_json 403 NotAuthorised)
           | Some found =>
               when (bool_decide (u_role found = js "admin"))
                 (UserStore.setAdminEmail email);;;
               Routes.issue env
                 {| userId := email;
                    name := js_or (p_name profile)
                              (js_or (p_given_name profile)
                                 (JSString email));
                    email := email;
                    picture := js_or (p_picture profile) JSNull;
                    role := u_role found;
                    encryptedGoogleToken := None;
                    googleTokenExpiresAt := None |}
           end)
      (fun _ => ret (status_json 500 AuthenticationFailed)).

Definition refresh_google_handler (googleAccessToken : js_value)
    (user : jwt_payload) : M response :=
  if negb (truthy googleAccessToken)
  then ret (status_json 400 GoogleAccessTokenRequired)
  else
    try_catch
      (gRes <- fetch_userinfo googleAccessToken;;
       if negb (ok gRes)
       then ret (status_json 401 InvalidGoogleToken)
       else
         profile <- lift (res_json gRes);;
         email <- lift (normalized_email profile);;
         if negb (bool_decide (email = userId user))
         then ret (status_json 403 DifferentAccount)
         else
           tokenStore_set email googleAccessToken;;;
           when (bool_decide (role user = js "admin"))
             (UserStore.setAdminEmail email);;;
           ret (json SuccessBody))
      (fun _ => ret (status_json 500 FailedToRefreshToken)).

Definition refresh_google (env : process_env)
    (authorization : option jsstring) (googleAccessToken : js_value)
  : M response :=
  authenticated env authorization
    (refresh_google_handler googleAccessToken).

End WithWorld.
End RosterRoutes.

(** The claims signed for a bootstrap admin with profile [p] and
    identity [e]. *)
Definition admin_claims (p : profile) (e : jsstring) : jwt_payload :=
  {| userId := e;
     name := js_or (p_name p) (js_or (p_given_name p) (JSString e));
     email := e;
     picture := js_or (p_picture p) JSNull;
     role := js "admin";
     encryptedGoogleToken := None;
     googleTokenExpiresAt := None |}.

(** ** A small world to run the model in *)

Module Toy.

(** A lawful stand-in for the cipher: the "keystream" complements every
    byte, the "tag" is the head of ciphertext and nonce. *)
Definition flip (b : byte) : byte := byte_of_Z (255 - Z_of_byte b).

Definition crypto : NodeCrypto :=
  {| sha256 := fun m => take 32 (m ++ replicate 32 x00);
     aes256_ctr := fun _ _ m => map flip m;
     gcm_tag := fun _ iv c => take 16 (c ++ iv ++ replicate 16 x00) |}.

Definition env : process_env :=
  {| JWT_SECRET := Some (js "0123456789abcdef0123456789abcdef");
     ADMIN_EMAILS := Some (js "boss@x.com");
     JWT_EXPIRES_IN := None |}.

Definition dice (seed : nat) : entropy :=
  {| rand := fun i => byte_of_Z (Z.of_nat (seed + 7 * i)); cursor := 0 |}.

(** Lower-casing of the ASCII letters only. *)
Definition lower_ascii (c : Z) : Z :=
  if (65 <=? c) && (c <=? 90) then c + 32 else c.

Definition unicode : Unicode := {| toLowerCase := map lower_ascii |}.

Definition profile_of (address : string) : profile :=
  {| p_email := JSString (js address); p_name := JSUndefined;
     p_given_name := JSUndefined; p_picture := JSUndefined |}.

Definition no_profile : profile :=
  {| p_email := JSUndefined; p_name := JSUndefined;
     p_given_name := JSUndefined; p_picture := JSUndefined |}.

Definition member : jwt_payload :=
  {| userId := js "member@x.com"; name := JSString (js "member@x.com");
     email := js "member@x.com"; picture := JSNull; role := js "user";
     encryptedGoogleToken := None; googleTokenExpiresAt := None |}.

(** Google knows three tokens; the users tab exists and lists one
    member; signing needs a secret; one session token verifies. *)
Definition world : World :=
  {| clock := fun n => 1000 + Z.of_nat n;
     google_userinfo := fun _ token =>
       match token with
       | JSString t =>
           if bool_decide (t = js "validTokenForBoss")
           then Http 200 (Normal (profile_of " Boss@X.com"))
           else if bool_decide (t = js "validTokenForRandomUser")
           then Http 200 (Normal (profile_of "random@x.com"))
           else if bool_decide (t = js "validTokenForMember")
           then Http 200 (Normal (profile_of "member@x.com"))
           else Http 401 (Normal no_profile)
       | _ => Http 401 (Normal no_profile)
       end;
     sheets_api := fun _ r _ =>
       match r with
       | GetSheetProperties =>
           Http 200 (Normal (Some {| sheets := Some [UserStore.USERS_TAB];
                                     values := None |}))
       | GetUsersValues =>
           Http 200
             (Normal (Some {| sheets := None;
                              values :=
                                Some [[js "email"; js "role"];
                                      [js "member@x.com"; js "user"]] |}))
       | _ => Http 200 (Normal None)
       end;
     jwt_sign := fun _ payload secret _ =>
       match secret with
       | Some (c :: _) => Normal (js "signed:" ++ userId payload)
       | _ => Throw JsonWebTokenError
       end;
     jwt_verify := fun _ token _ =>
       if bool_decide (token = js "session-of-member")
       then Verified member else InvalidToken |}.

(** A process that has just started. *)
Definition cold : server :=
  {| store := ∅; adminEmail := None; cache := None; cacheTime := 0;
     ticks := 0; calls := [] |}.

(** The process after the boss has signed in: an admin token is at
    hand. *)
Definition warm : server :=
  snd (@RosterRoutes.verify unicode world env
         (JSString (js "validTokenForBoss")) cold).

End Toy.

(** ** [routes/auth.js]: [GET /me] and [POST /logout], the same in both
    revisions *)

Module SessionRoutes.
Section WithWorld.
Context `{Unicode} `{World}.
#[local] Open Scope js_scope.

(** [tokenStore.isExpiringSoon(userId)] as the routes call it: the clock
    is read only when there is an entry. *)
Definition tokenStore_isExpiringSoon (userId : jsstring) : M bool :=
  fun s =>
    match store s !! userId with
    | None => (Normal true, s)
    | Some _ =>
        (now <- Date_now;;
         (fun s' =>
            (Normal (MapStore.isExpiringSoon now userId (store s')), s'))) s
    end.

(** The body [{ user, googleExpiringSoon }] of [GET /api/auth/me]. *)
Record me_body := {
  me_user : jwt_payload;
  googleExpiringSoon : bool;
}.

Definition me_handler (user : jwt_payload) : M me_body :=
  soon <- tokenStore_isExpiringSoon (userId user);;
  ret {| me_user := user; googleExpiringSoon := soon |}.

(** [router.get('/me', requireAuth, ...)]: the rejection of the
    middleware, or the handler's body with status 200. *)
Definition me (env : process_env) (authorization : option jsstring)
  : M (response + me_body) :=
  r <- requireAuth env authorization;;
  match r with
  | inl rejected => ret (inl rejected)
  | inr payload => b <- me_handler payload;; ret (inr b)
  end.

Definition logout_handler (user : jwt_payload) : M response :=
  tokenStore_delete (userId user);;;
  ret (json SuccessBody).

Definition logout (env : process_env) (authorization : option jsstring)
  : M response :=
  authenticated env authorization logout_handler.

End WithWorld.
End SessionRoutes.

(** ** The one-argument calls of the second [tokenStore.js] against the
    first *)

(** The same entry, seen by the other revision. *)
Definition entry_of_map (e : MapStore.entry) : JwtStore.entry :=
  {| JwtStore.googleToken := MapStore.googleToken e;
     JwtStore.expiresAt := MapStore.expiresAt e |}.

Definition table_of_map (st : MapStore.table) : JwtStore.table :=
  entry_of_map <$> st.

(** [has(userId)] of the second revision: [this.get(userId) !== null]. *)
Definition JwtStore_has `{NodeCrypto} (env : process_env) (now : Z)
    (userId : jsstring) (mem : JwtStore.table)
  : completion bool * JwtStore.table :=
  match JwtStore.get env now userId None mem with
  | (Normal v, mem') => (Normal (negb (MapStore.is_null v)), mem')
  | (Throw e, mem') => (Throw e, mem')
  end.

(** ** Notions the statements about the routes and the roster use *)

Section Notions.
Context `{World}.

(** The header is refused by [requireAuth]. *)
Definition refused (env : process_env) (authorization : option jsstring)
    (s : server) : Prop :=
  match authorization with
  | None => True
  | Some authHeader =>
      take 7 authHeader <> js "Bearer "
      \/ forall payload,
          jwt_verify (ticks s) (drop 7 authHeader) (JWT_SECRET env)
          <> Verified payload
  end.

End Notions.

(** Token store, admin pointer, roster cache and outbound log are the
    same in [s'] as in [s]. *)
Definition same_data (s s' : server) : Prop :=
  store s' = store s /\ adminEmail s' = adminEmail s
  /\ cache s' = cache s /\ cacheTime s' = cacheTime s
  /\ calls s' = calls s.

(** The answer carries a session credential. *)
Definition is_session (r : response) : bool :=
  match body r with SessionBody _ _ _ => true | _ => false end.



(** The claims [verify] signs for profile [p], identity [e] and role
    [r]. *)
Definition session_claims (p : profile) (e r : jsstring) : jwt_payload :=
  {| userId := e;
     name := js_or (p_name p) (js_or (p_given_name p) (JSString e));
     email := e;
     picture := js_or (p_picture p) JSNull;
     role := r;
     encryptedGoogleToken := None;
     googleTokenExpiresAt := None |}.

(** ** [middleware/auth.js]: [requireAdmin] *)

(** What a middleware does with a request: answer it, or call [next()]. *)
Inductive gate :=
| Answered (status : Z) (error : jsstring)
| Next.

(** [req.user?.role !== 'admin'] *)
Definition requireAdmin (user : option jwt_payload) : gate :=
  match user with
  | Some u =>
      if bool_decide (role u = js "admin") then Next
      else Answered 403 (js "Admin access required")
  | None => Answered 403 (js "Admin access required")
  end.

(** ** [config/serviceAccount.js]: the service account's access token *)

Module ServiceAccount.

(** What the code reads off [JSON.parse(raw)]: whether the value is falsy
    ([null], [false], [0], the empty string), and otherwise its fields
    [client_email] and [private_key], [undefined] where there is none. *)
Inductive key_json :=
| FalsyKey
| Key (client_email private_key : js_value).

(** The body of the token endpoint's answer as the code reads it:
    [access_token], and [expires_in], a whole number of seconds or
    missing. *)
Record token_json := {
  access_token : js_value;
  expires_in : option Z;
}.

(** The collaborators: the clock in milliseconds, [JSON.parse], the
    RS256 assertion built and signed for a key at a moment in seconds
    ([createSign] throws on a bad private key), and
    [https://oauth2.googleapis.com/token] answering an assertion. *)
Class Google := {
  Date_now_ms : nat -> Z;
  JSON_parse : jsstring -> completion key_json;
  signedJwt : js_value -> js_value -> Z -> completion jsstring;
  token_endpoint : nat -> jsstring -> http_response (option token_json);
}.

Inductive failure :=
| ServiceAccountTokenError (status : Z)
| Thrown (e : js_error).

Inductive outcome (A : Type) :=
| Returned (a : A)
| Threw (e : failure).
Arguments Returned {A} a.
Arguments Threw {A} e.

(** The module variables [cachedToken] and [tokenExpiresAt] ([None] is
    NaN), the count of interactions and the assertions posted. *)
Record state := {
  cachedToken : js_value;
  tokenExpiresAt : option Z;
  ticks : nat;
  posted : list jsstring;
}.

Definition initial : state :=
  {| cachedToken := JSNull; tokenExpiresAt := Some 0; ticks := 0;
     posted := [] |}.

Definition tick (log : list jsstring) (s : state) : state :=
  {| cachedToken := cachedToken s; tokenExpiresAt := tokenExpiresAt s;
     ticks := S (ticks s); posted := posted s ++ log |}.

Section WithGoogle.
Context `{Google}.

(** [getKey()]: [None] is a falsy result, [null] included. *)
Definition getKey (raw : option jsstring) : option (js_value * js_value) :=
  match raw with
  | Some (c :: r) =>
      match JSON_parse (c :: r) with
      | Normal (Key client_email private_key) =>
          Some (client_email, private_key)
      | Normal FalsyKey => None
      | Throw _ => None
      end
  | _ => None
  end.

(** [Math.floor(Date.now() / 1000)] *)
Definition seconds (s : state) : Z := Date_now_ms (ticks s) / 1000.

(** [now + data.expires_in - 300] *)
Definition early_expiry (now : Z) (expires_in : option Z) : option Z :=
  match expires_in with
  | Some n => Some (now + n - 300)
  | None => None
  end.

(** [fetchNewToken(key)]: the pair [{ token, expiresAt }]. *)
Definition fetchNewToken (key : js_value * js_value) (s : state)
  : outcome (js_value * option Z) * state :=
  let now := seconds s in
  let s1 := tick [] s in
  match signedJwt (fst key) (snd key) now with
  | Throw e => (Threw (Thrown e), s1)
  | Normal assertion =>
      let s2 := tick [assertion] s1 in
      match token_endpoint (ticks s1) assertion with
      | NetworkFailure => (Threw (Thrown FetchError), s2)
      | Http status json =>
          if ok {| res_status := status; res_json := json |} then
            match json with
            | Throw e => (Threw (Thrown e), s2)
            | Normal None => (Threw (Thrown TypeError), s2)
            | Normal (Some data) =>
                (Returned (access_token data,
                           early_expiry now (expires_in data)), s2)
            end
          else
            (* [err.error_description] of a [null] body throws *)
            match json with
            | Normal None => (Threw (Thrown TypeError), s2)
            | _ => (Threw (ServiceAccountTokenError status), s2)
            end
      end
  end.

(** [now < tokenExpiresAt] *)
Definition before (now : Z) (expiresAt : option Z) : bool :=
  match expiresAt with
  | Some x => now <? x
  | None => false
  end.

Definition getServiceToken (raw : option jsstring) (s : state)
  : outcome js_value * state :=
  match getKey raw with
  | None => (Returned JSNull, s)
  | Some key =>
      let now := seconds s in
      let s1 := tick [] s in
      if truthy (cachedToken s1) && before now (tokenExpiresAt s1)
      then (Returned (cachedToken s1), s1)
      else
        match fetchNewToken key s1 with
        | (Returned (token, expiresAt), s2) =>
            (Returned token,
             {| cachedToken := token; tokenExpiresAt := expiresAt;
                ticks := ticks s2; posted := posted s2 |})
        | (Threw e, s2) => (Threw e, s2)
        end
  end.

(** [isServiceAccountConfigured()] *)
Definition isServiceAccountConfigured (raw : option jsstring) : bool :=
  match raw with
  | Some (c :: r) => true
  | _ => false
  end.

(** [getServiceAccountEmail()] *)
Definition getServiceAccountEmail (raw : option jsstring) : js_value :=
  match getKey raw with
  | Some (client_email, _) => js_or client_email JSNull
  | None => JSNull
  end.

End WithGoogle.
End ServiceAccount.

(** ** More of the small world *)

Module Demo.

(** What the store holds for the boss after the sign-in of [Toy.warm]. *)
Definition boss_entry : MapStore.entry :=
  {| MapStore.googleToken := JSString (js "validTokenForBoss");
     MapStore.expiresAt := 1001 + MapStore.GOOGLE_TOKEN_TTL_MS |}.

(** The one row of the toy sheet. *)
Definition member_row : roster_user :=
  {| u_email := js "member@x.com"; u_role := js "user";
     u_row := Some (2, [], []) |}.

(** The process after the roster has been read with the boss's token. *)
Definition served : server :=
  snd (@UserStore.refreshCache Toy.unicode Toy.world Toy.warm).

(** The member's claims, carrying a blob. *)
Definition member_with (blob : jsstring) : jwt_payload :=
  {| userId := js "member@x.com"; name := JSString (js "member@x.com");
     email := js "member@x.com"; picture := JSNull; role := js "user";
     encryptedGoogleToken := Some blob; googleTokenExpiresAt := None |}.

(** A token endpoint that grants one hour to any assertion; every key
    parses and signs. *)
Definition google : ServiceAccount.Google :=
  {| ServiceAccount.Date_now_ms := fun n => 1700000000000 + 1000 * Z.of_nat n;
     ServiceAccount.JSON_parse := fun _ =>
       Normal (ServiceAccount.Key (JSString (js "svc@x.iam"))
                 (JSString (js "pem")));
     ServiceAccount.signedJwt := fun _ _ _ => Normal (js "assertion");
     ServiceAccount.token_endpoint := fun _ _ =>
       Http 200
         (Normal (Some {| ServiceAccount.access_token :=
                            JSString (js "ya29.svc");
                          ServiceAccount.expires_in := Some 3600 |})) |}.

(** The claims of the boss and of the stranger. *)
Definition boss : jwt_payload :=
  {| userId := js "boss@x.com"; name := JSString (js "boss@x.com");
     email := js "boss@x.com"; picture := JSNull; role := js "admin";
     encryptedGoogleToken := None; googleTokenExpiresAt := None |}.

Definition random : jwt_payload :=
  {| userId := js "random@x.com"; name := JSString (js "random@x.com");
     email := js "random@x.com"; picture := JSNull; role := js "user";
     encryptedGoogleToken := None; googleTokenExpiresAt := None |}.

(** The string claims of [payload] are those of [who]. *)
Definition signed_for (payload who : jwt_payload) : bool :=
  bool_decide (userId payload = userId who)
  && bool_decide (email payload = email who)
  && bool_decide (role payload = role who).

(** The world of [Toy] with a signer and a verifier that agree: three
    sets of claims can be signed, each token verifies to the claims it was
    signed for, and the boss has an older session token as well. *)
Definition world : World :=
  {| clock := @clock Toy.world;
     google_userinfo := @google_userinfo Toy.world;
     sheets_api := @sheets_api Toy.world;
     jwt_sign := fun _ payload secret _ =>
       match secret with
       | Some (c :: _) =>
           if signed_for payload boss then Normal (js "jwt-of-boss")
           else if signed_for payload Toy.member
           then Normal (js "jwt-of-member")
           else if signed_for payload random
           then Normal (js "jwt-of-random")
           else Throw JsonWebTokenError
       | _ => Throw JsonWebTokenError
       end;
     jwt_verify := fun n token secret =>
       if bool_decide (token = js "session-of-boss")
          || bool_decide (token = js "jwt-of-boss")
       then Verified boss
       else if bool_decide (token = js "jwt-of-member")
       then Verified Toy.member
       else if bool_decide (token = js "jwt-of-random")
       then Verified random
       else @jwt_verify Toy.world n token secret |}.

End Demo.

(* ================================================================== *)
(** * Part II: lemmas and theorems                                     *)
(* ================================================================== *)

(** ** Bytes *)

Lemma Z_of_byte_range b : 0 <= Z_of_byte b < 256.
Proof.
  unfold Z_of_byte. pose proof (Byte.to_N_bounded b). lia.
Qed.

Lemma byte_of_Z_of_byte b : byte_of_Z (Z_of_byte b) = b.
Proof.
  unfold byte_of_Z, Z_of_byte.
  pose proof (Byte.to_N_bounded b).
  rewrite Z.mod_small by lia.
  rewrite N2Z.id, Byte.of_to_N. reflexivity.
Qed.

Lemma Z_of_byte_of_Z z : 0 <= z < 256 -> Z_of_byte (byte_of_Z z) = z.
Proof.
  intros Hz. unfold byte_of_Z, Z_of_byte.
  rewrite Z.mod_small by lia.
  destruct (Byte.of_N (Z.to_N z)) as [b|] eqn:E.
  - apply Byte.to_of_N in E. lia.
  - pose proof (Byte.to_of_N_option_map (Z.to_N z)) as M.
    rewrite E in M. cbn in M.
    destruct (N.leb_spec (Z.to_N z) 255); [discriminate | lia].
Qed.

(** ** UTF-8: decoding undoes encoding on well-formed strings *)

(** Decide the first conditional of the goal whose test [lia] settles. *)
Ltac step_if :=
  match goal with
  | |- context [if ?c then _ else _] =>
      first [ replace c with true by lia | replace c with false by lia ]
  end; cbv iota.

Ltac zdecide := repeat step_if.

Lemma utf8_decode_1 x rest :
  0 <= x < 128 ->
  utf8_decode (byte_of_Z x :: rest) = x :: utf8_decode rest.
Proof.
  intros. cbn [utf8_decode]. rewrite Z_of_byte_of_Z by lia.
  zdecide. reflexivity.
Qed.

Lemma utf8_decode_2 q r rest :
  2 <= q < 32 -> 0 <= r < 64 ->
  utf8_decode (byte_of_Z (192 + q) :: byte_of_Z (128 + r) :: rest)
  = (q * 64 + r) :: utf8_decode rest.
Proof.
  intros. cbn [utf8_decode]. unfold in_range, cont.
  rewrite !Z_of_byte_of_Z by lia. zdecide. f_equal. lia.
Qed.

Lemma utf8_decode_3 q r1 r2 rest :
  0 <= q < 16 -> 0 <= r1 < 64 -> 0 <= r2 < 64 ->
  (q = 0 -> 32 <= r1) -> (q = 13 -> r1 < 32) ->
  utf8_decode (byte_of_Z (224 + q) :: byte_of_Z (128 + r1)
                 :: byte_of_Z (128 + r2) :: rest)
  = (q * 4096 + r1 * 64 + r2) :: utf8_decode rest.
Proof.
  intros. cbn [utf8_decode]. unfold in_range, cont.
  rewrite !Z_of_byte_of_Z by lia.
  destruct (Z.eq_dec q 0); [|destruct (Z.eq_dec q 13)];
    zdecide; f_equal; lia.
Qed.

Lemma utf8_decode_4 q r1 r2 r3 rest :
  0 <= q <= 4 -> 0 <= r1 < 64 -> 0 <= r2 < 64 -> 0 <= r3 < 64 ->
  (q = 0 -> 16 <= r1) -> (q = 4 -> r1 < 16) ->
  utf8_decode (byte_of_Z (240 + q) :: byte_of_Z (128 + r1)
                 :: byte_of_Z (128 + r2) :: byte_of_Z (128 + r3) :: rest)
  = utf16_of_code_point (q * 262144 + r1 * 4096 + r2 * 64 + r3)
      ++ utf8_decode rest.
Proof.
  intros. cbn [utf8_decode]. unfold in_range, cont.
  rewrite !Z_of_byte_of_Z by lia.
  destruct (Z.eq_dec q 0); [|destruct (Z.eq_dec q 4)];
    zdecide; do 2 f_equal; lia.
Qed.

Ltac dlia := Z.div_mod_to_equations; lia.

Lemma utf8_decode_code_point cp rest :
  0 <= cp < 1114112 -> ~ (55296 <= cp <= 57343) ->
  utf8_decode (utf8_of_code_point cp ++ rest)
  = utf16_of_code_point cp ++ utf8_decode rest.
Proof.
  intros Hcp Hs. unfold utf8_of_code_point.
  assert (R0 : 0 <= cp mod 64 < 64) by dlia.
  assert (R1 : 0 <= (cp / 64) mod 64 < 64) by dlia.
  assert (R2 : 0 <= (cp / 4096) mod 64 < 64) by dlia.
  destruct (Z.ltb_spec cp 128) as [H1|H1].
  { cbn [app]. rewrite utf8_decode_1 by lia.
    unfold utf16_of_code_point. zdecide. reflexivity. }
  destruct (Z.ltb_spec cp 2048) as [H2|H2].
  { cbn [app].
    assert (2 <= cp / 64 < 32) by dlia.
    rewrite utf8_decode_2 by assumption.
    unfold utf16_of_code_point. zdecide. cbn [app]. f_equal. dlia. }
  destruct (Z.ltb_spec cp 65536) as [H3|H3].
  { cbn [app].
    assert (0 <= cp / 4096 < 16) by dlia.
    assert (cp / 4096 = 0 -> 32 <= (cp / 64) mod 64) by dlia.
    assert (cp / 4096 = 13 -> (cp / 64) mod 64 < 32) by dlia.
    rewrite utf8_decode_3 by assumption.
    unfold utf16_of_code_point. zdecide. cbn [app]. f_equal. dlia. }
  cbn [app].
  assert (0 <= cp / 262144 <= 4) by dlia.
  assert (cp / 262144 = 0 -> 16 <= (cp / 4096) mod 64) by dlia.
  assert (cp / 262144 = 4 -> (cp / 4096) mod 64 < 16) by dlia.
  rewrite utf8_decode_4 by assumption.
  do 2 f_equal. dlia.
Qed.

Lemma utf8_decode_pair c d rest :
  is_high_surrogate c = true -> is_low_surrogate d = true ->
  utf8_decode
    (utf8_of_code_point (65536 + (c - 55296) * 1024 + (d - 56320)) ++ rest)
  = c :: d :: utf8_decode rest.
Proof.
  unfold is_high_surrogate, is_low_surrogate. intros Hc Hd.
  apply andb_true_iff in Hc as [Hc1 Hc2].
  apply andb_true_iff in Hd as [Hd1 Hd2].
  apply Z.leb_le in Hc1, Hc2, Hd1, Hd2.
  rewrite utf8_decode_code_point by lia.
  unfold utf16_of_code_point. zdecide. cbn [app].
  f_equal; [|f_equal]; dlia.
Qed.

Lemma utf8_roundtrip_bounded n : forall s,
  (length s <= n)%nat -> isWellFormed s = true ->
  utf8_decode (utf8_encode s) = s.
Proof.
  induction n as [|n IH]; intros s Hlen Hwf.
  { destruct s; [reflexivity | cbn in Hlen; lia]. }
  destruct s as [|c t]; [reflexivity|].
  cbn [isWellFormed utf8_encode] in *.
  destruct (is_code_unit c) eqn:Hcu; cbn [negb] in Hwf; [|discriminate].
  destruct (is_high_surrogate c) eqn:Hhi.
  - destruct t as [|d t']; [discriminate|].
    apply andb_true_iff in Hwf as [Hlo Hwf]. rewrite Hlo.
    rewrite utf8_decode_pair by assumption.
    rewrite IH; [reflexivity | cbn in Hlen; lia | assumption].
  - destruct (is_low_surrogate c) eqn:Hlo; [discriminate|].
    unfold is_code_unit, is_high_surrogate, is_low_surrogate in *.
    rewrite utf8_decode_code_point by lia.
    rewrite IH; [| cbn in Hlen; lia | assumption].
    unfold utf16_of_code_point.
    replace (c <? 65536) with true by lia. reflexivity.
Qed.

Lemma utf8_roundtrip s :
  isWellFormed s = true -> utf8_decode (utf8_encode s) = s.
Proof. apply (utf8_roundtrip_bounded (length s)). lia. Qed.

(** ** base64url: decoding undoes encoding *)

Lemma unbase64_b64url_char v :
  0 <= v < 64 -> unbase64 (b64url_char v) = Some v.
Proof.
  intros Hv. unfold b64url_char.
  destruct (Z.ltb_spec v 26); [|destruct (Z.ltb_spec v 52);
    [|destruct (Z.ltb_spec v 62); [|destruct (Z.eqb_spec v 62)]]];
    unfold unbase64; zdecide; try (f_equal; lia).
Qed.

Lemma b64url_char_not_pad v :
  0 <= v < 64 -> (b64url_char v =? 61) = false.
Proof. intros Hv. unfold b64url_char. repeat case_match; lia. Qed.

Lemma b64url_char_safe v :
  0 <= v < 64 -> is_b64url_char (b64url_char v) = true.
Proof.
  intros Hv. unfold b64url_char, is_b64url_char. repeat case_match; lia.
Qed.

Lemma b64url_char_low v :
  0 <= v < 64 -> b64url_char v mod 256 = b64url_char v.
Proof.
  intros Hv. apply Z.mod_small. unfold b64url_char. repeat case_match; lia.
Qed.

Lemma b64_sextets_cons v s :
  0 <= v < 64 -> b64_sextets (b64url_char v :: s) = v :: b64_sextets s.
Proof.
  intros Hv. cbn [b64_sextets]. rewrite b64url_char_low by assumption.
  rewrite b64url_char_not_pad, unbase64_b64url_char by assumption.
  reflexivity.
Qed.

(** Induction over a buffer three bytes at a time. *)
Lemma bytes_ind3 (P : bytes -> Prop) :
  P [] -> (forall a, P [a]) -> (forall a b, P [a; b]) ->
  (forall a b c t, P t -> P (a :: b :: c :: t)) ->
  forall l, P l.
Proof.
  intros H0 H1 H2 H3 l.
  enough (P l /\ (forall a, P (a :: l)) /\ (forall a b, P (a :: b :: l)))
    by tauto.
  induction l as [|x l (IH0 & IH1 & IH2)]; auto.
Qed.

Lemma byte_of_Z_eq z b : z = Z_of_byte b -> byte_of_Z z = b.
Proof. intros ->. apply byte_of_Z_of_byte. Qed.

Lemma b64url_roundtrip bs : b64url_decode (b64url_encode bs) = bs.
Proof.
  unfold b64url_decode.
  induction bs as [|a|a b|a b c t IH] using bytes_ind3;
    [reflexivity | | | ];
    pose proof (Z_of_byte_range a);
    try pose proof (Z_of_byte_range b); try pose proof (Z_of_byte_range c);
    cbn [b64url_encode];
    rewrite !b64_sextets_cons by dlia;
    cbn [b64_sextets b64_bytes]; rewrite ?IH;
    repeat (apply (f_equal2 cons); [apply byte_of_Z_eq; dlia|]);
    reflexivity.
Qed.

(** Only the low byte of a code unit reaches the decoder. *)
Lemma b64url_decode_low_byte (s : jsstring) :
  b64url_decode (map (fun c => c mod 256) s) = b64url_decode s.
Proof.
  unfold b64url_decode. f_equal.
  induction s as [|c s IH]; [reflexivity|].
  cbn [map b64_sextets]. rewrite Z.mod_mod by lia.
  destruct (c mod 256 =? 61); [reflexivity|].
  destruct (unbase64 (c mod 256)); now rewrite IH.
Qed.

Lemma b64url_encode_inj b1 b2 :
  b64url_encode b1 = b64url_encode b2 -> b1 = b2.
Proof.
  intros E. rewrite <- (b64url_roundtrip b1), <- (b64url_roundtrip b2).
  now rewrite E.
Qed.

Lemma b64url_encode_safe bs :
  forallb is_b64url_char (b64url_encode bs) = true.
Proof.
  induction bs as [|a|a b|a b c t IH] using bytes_ind3;
    [reflexivity | | | ];
    pose proof (Z_of_byte_range a);
    try pose proof (Z_of_byte_range b); try pose proof (Z_of_byte_range c);
    cbn [b64url_encode forallb];
    rewrite ?IH, !b64url_char_safe by dlia; reflexivity.
Qed.

(** ** The vault *)

Lemma randomBytes_length n g : length (fst (randomBytes n g)) = n.
Proof. cbn. now rewrite length_map, length_seq. Qed.

Section Vault.
Context `{NodeCrypto}.

Lemma encryptToken_unfold env g T :
  length (getKey env) = 32%nat ->
  fst (encryptToken env g T)
  = Normal (b64url_encode
              (nonce_of g ++ tag_of env g T ++ ciphertext_of env g T)).
Proof.
  intros Hk. unfold encryptToken, tag_of, ciphertext_of, nonce_of.
  pose proof (randomBytes_length IV_BYTES g) as Hl.
  destruct (randomBytes IV_BYTES g) as [iv g'] eqn:E. cbn [fst] in *.
  unfold createCipheriv. rewrite Hk, Hl. cbn [Nat.eqb negb IV_BYTES cbind].
  unfold update, cipher_final, getAuthTag. cbn.
  now rewrite app_nil_r.
Qed.

Lemma split_blob (iv tag enc : bytes) :
  length iv = 12%nat -> length tag = 16%nat ->
  subarray 0 IV_BYTES (iv ++ tag ++ enc) = iv
  /\ subarray IV_BYTES (IV_BYTES + TAG_BYTES) (iv ++ tag ++ enc) = tag
  /\ subarray_from (IV_BYTES + TAG_BYTES) (iv ++ tag ++ enc) = enc.
Proof.
  intros Hi Ht. unfold subarray, subarray_from, IV_BYTES, TAG_BYTES.
  change (12 - 0)%nat with 12%nat. change (12 + 16 - 12)%nat with 16%nat.
  change (12 + 16)%nat with 28%nat. rewrite drop_0.
  repeat split.
  - now rewrite take_app_length' by done.
  - rewrite drop_app_length' by done.
    now rewrite take_app_length' by done.
  - replace 28%nat with (12 + 16)%nat by reflexivity.
    rewrite <- drop_drop, drop_app_length' by done.
    now rewrite drop_app_length' by done.
Qed.

Lemma getKey_length env :
  NodeCryptoLaws -> length (getKey env) = 32%nat.
Proof. intros L. apply sha256_length. Qed.

Lemma decryptToken_try_sealed env iv m :
  NodeCryptoLaws -> length iv = 12%nat ->
  let enc := aes256_ctr (getKey env) iv m in
  let tag := gcm_tag (getKey env) iv enc in
  decryptToken_try env (b64url_encode (iv ++ tag ++ enc))
  = Normal (utf8_decode m).
Proof.
  intros L Hi enc tag. unfold decryptToken_try.
  rewrite b64url_roundtrip.
  destruct (split_blob iv tag enc Hi (gcm_tag_length _ _ _)) as (-> & -> & ->).
  unfold createDecipheriv, createCipheriv.
  rewrite getKey_length, Hi by assumption. cbn [Nat.eqb negb cbind].
  unfold setAuthTag. subst tag. rewrite gcm_tag_length.
  cbn [valid_gcm_tag_length Nat.eqb Nat.leb orb andb cbind
       c_key c_iv c_seen c_tag].
  unfold update, decipher_final.
  cbn [c_key c_iv c_seen c_tag app length drop].
  rewrite take_ge by (rewrite !gcm_tag_length; lia).
  rewrite bool_decide_eq_true_2 by reflexivity.
  cbn [cbind utf8_decode]. subst enc.
  now rewrite aes256_ctr_involutive, app_nil_r.
Qed.
End Vault.

(** The stand-in cipher is lawful. *)

Lemma flip_flip b : Toy.flip (Toy.flip b) = b.
Proof.
  unfold Toy.flip. pose proof (Z_of_byte_range b).
  rewrite Z_of_byte_of_Z by lia. apply byte_of_Z_eq. lia.
Qed.

Lemma toy_crypto_laws : @NodeCryptoLaws Toy.crypto.
Proof.
  split; cbn [sha256 aes256_ctr gcm_tag Toy.crypto].
  - intros m. rewrite length_take, length_app, length_replicate. lia.
  - intros _ iv c.
    rewrite length_take, !length_app, length_replicate. lia.
  - intros _ _ m. rewrite map_map. rewrite <- (map_id m) at 2.
    apply map_ext. intros b. apply flip_flip.
Qed.

Lemma Normal_inj {A} (a b : A) : Normal a = Normal b -> a = b.
Proof. now intros [= ->]. Qed.

Section VaultTheorems.
Context `{NodeCrypto}.

Lemma nonce_length g : length (nonce_of g) = 12%nat.
Proof. apply randomBytes_length. Qed.

Lemma encrypt_then_decrypt env g T :
  NodeCryptoLaws ->
  exists blob,
    fst (encryptToken env g T) = Normal blob
    /\ decryptToken env blob
       = Normal (JSString (utf8_decode (utf8_encode T))).
Proof.
  intros L. eexists. split.
  - apply encryptToken_unfold, getKey_length, L.
  - unfold decryptToken, tag_of, ciphertext_of.
    rewrite decryptToken_try_sealed by (assumption || apply nonce_length).
    reflexivity.
Qed.

(** Every ASCII string is well formed. *)
Lemma ascii_isWellFormed (T : jsstring) :
  Forall (fun c => 0 <= c < 128) T -> isWellFormed T = true.
Proof.
  induction 1 as [|c T Hc _ IH]; [reflexivity|].
  cbn [isWellFormed].
  unfold is_code_unit, is_high_surrogate, is_low_surrogate.
  repeat step_if. exact IH.
Qed.

(** C1.  For every token string [T], that is every well-formed string (no
    unpaired UTF-16 surrogate; every ASCII string is one), whatever the
    server secret and the state of the random source, [encryptToken]
    returns a blob and [decryptToken] of that blob, under the same secret,
    returns exactly [T]. *)
Theorem vault_roundtrip env g T :
  NodeCryptoLaws -> isWellFormed T = true ->
  exists blob,
    fst (encryptToken env g T) = Normal blob
    /\ decryptToken env blob = Normal (JSString T).
Proof.
  intros L Hwf. destruct (encrypt_then_decrypt env g T L) as (blob & E & D).
  exists blob. split; [assumption|].
  now rewrite D, utf8_roundtrip.
Qed.

Lemma decryptToken_of_throw env blob :
  (exists e, decryptToken_try env blob = Throw e) ->
  decryptToken env blob = Normal JSNull.
Proof. intros [e E]. unfold decryptToken. now rewrite E. Qed.

Lemma decryptToken_no_nonce env blob :
  subarray 0 IV_BYTES (b64url_decode blob) = [] ->
  decryptToken env blob = Normal JSNull.
Proof.
  intros Hiv. apply decryptToken_of_throw. unfold decryptToken_try.
  rewrite Hiv. unfold createDecipheriv, createCipheriv.
  destruct (negb _); cbn; eauto.
Qed.


Lemma decryptToken_tag_mismatch env blob :
  let buf := b64url_decode blob in
  let iv := subarray 0 IV_BYTES buf in
  let tag := subarray IV_BYTES (IV_BYTES + TAG_BYTES) buf in
  let ciphertext := subarray_from (IV_BYTES + TAG_BYTES) buf in
  tag <> take (length tag) (gcm_tag (getKey env) iv ciphertext) ->
  decryptToken env blob = Normal JSNull.
Proof.
  intros buf iv tag ciphertext Htag.
  apply decryptToken_of_throw. unfold decryptToken_try.
  fold buf. fold iv. fold tag. fold ciphertext.
  unfold createDecipheriv, createCipheriv.
  destruct (negb _); cbn [cbind]; eauto.
  destruct (_ =? _)%nat; cbn [cbind]; eauto.
  unfold setAuthTag.
  destruct (valid_gcm_tag_length _); cbn [cbind]; eauto.
  unfold update, decipher_final.
  cbn [c_key c_iv c_seen c_tag app cbind].
  rewrite bool_decide_eq_false_2 by assumption. cbn. eauto.
Qed.

(** The [try] block of [decryptToken], case by case. *)
Lemma decryptToken_try_cases env blob :
  let buf := b64url_decode blob in
  let iv := subarray 0 IV_BYTES buf in
  let tag := subarray IV_BYTES (IV_BYTES + TAG_BYTES) buf in
  let ciphertext := subarray_from (IV_BYTES + TAG_BYTES) buf in
  let key := getKey env in
  decryptToken_try env blob
  = if negb (length key =? 32)%nat then Throw ERR_CRYPTO_INVALID_KEYLEN
    else if (length iv =? 0)%nat then Throw ERR_CRYPTO_INVALID_IV
    else if valid_gcm_tag_length (length tag) then
      if bool_decide (tag = take (length tag) (gcm_tag key iv ciphertext))
      then Normal (utf8_decode (aes256_ctr key iv ciphertext))
      else Throw ERR_CRYPTO_AUTH_FAILED
    else Throw ERR_CRYPTO_INVALID_AUTH_TAG.
Proof.
  intros buf iv tag ciphertext key. unfold decryptToken_try.
  fold buf. fold iv. fold tag. fold ciphertext. fold key.
  unfold createDecipheriv, createCipheriv.
  destruct (negb _); [reflexivity|].
  destruct (_ =? _)%nat; [reflexivity|]. cbn [cbind].
  unfold setAuthTag.
  destruct (valid_gcm_tag_length _); [|reflexivity]. cbn [cbind].
  unfold update, decipher_final.
  cbn [c_key c_iv c_seen c_tag app length drop cbind].
  destruct (bool_decide _); [|reflexivity].
  cbn [cbind utf8_decode]. now rewrite app_nil_r.
Qed.


(** A blob that is too short to hold a full tag is deciphered all the
    same when what follows the nonce is the tag of its ciphertext cut to a
    length [setAuthTag] takes. *)
Lemma truncated_tag_accepted env (iv : bytes) (n : nat) :
  NodeCryptoLaws -> length iv = 12%nat ->
  valid_gcm_tag_length n = true -> (n < 16)%nat ->
  decryptToken env
    (b64url_encode (iv ++ take n (gcm_tag (getKey env) iv [])))
  = Normal (JSString (utf8_decode (aes256_ctr (getKey env) iv []))).
Proof.
  intros L Hi Hv Hn. unfold decryptToken.
  rewrite decryptToken_try_cases, b64url_roundtrip.
  set (tag := take n (gcm_tag (getKey env) iv [])).
  assert (Ht : length tag = n).
  { subst tag. rewrite length_take, gcm_tag_length. lia. }
  assert (Siv : subarray 0 IV_BYTES (iv ++ tag) = iv).
  { unfold subarray, IV_BYTES. rewrite drop_0.
    change (12 - 0)%nat with 12%nat. now rewrite take_app_length' by done. }
  assert (Stag : subarray IV_BYTES (IV_BYTES + TAG_BYTES) (iv ++ tag) = tag).
  { unfold subarray, IV_BYTES, TAG_BYTES.
    rewrite drop_app_length' by done. apply take_ge. lia. }
  assert (Senc : subarray_from (IV_BYTES + TAG_BYTES) (iv ++ tag) = []).
  { unfold subarray_from, IV_BYTES, TAG_BYTES. apply drop_ge.
    rewrite length_app. lia. }
  rewrite Siv, Stag, Senc, getKey_length, Hi, Ht, Hv by exact L.
  cbn [Nat.eqb negb].
  now rewrite bool_decide_eq_true_2 by (subst tag; reflexivity).
Qed.

(** C5.  Two calls of [encryptToken] on the same plaintext whose random
    nonces differ produce different blobs: the nonce is the 12-byte prefix
    of what is encoded, and the encoding is injective. *)
Theorem distinct_nonces_distinct_blobs env g1 g2 T :
  NodeCryptoLaws ->
  nonce_of g1 <> nonce_of g2 ->
  fst (encryptToken env g1 T) <> fst (encryptToken env g2 T).
Proof.
  intros L Hne E.
  rewrite !encryptToken_unfold in E by (apply getKey_length, L).
  apply Normal_inj, b64url_encode_inj in E.
  apply app_inj_1 in E as [E _]; [contradiction|].
  now rewrite !nonce_length.
Qed.

(** C6.  The blob [encryptToken] returns is the base64url text of the
    12-byte nonce, then the 16-byte tag, then the ciphertext; every
    character of it is in the URL-safe alphabet; the three slices
    [decryptToken] takes of the decoded blob are exactly those parts; and
    [decryptToken] works on them: on this blob its [try] block is the
    decipher created with the nonce, given the tag by [setAuthTag] and fed
    the ciphertext, and the call returns what that decipher yields, the
    text that was sealed. *)
Theorem blob_layout env g T :
  NodeCryptoLaws ->
  let iv := nonce_of g in
  let tag := tag_of env g T in
  let enc := ciphertext_of env g T in
  let blob := b64url_encode (iv ++ tag ++ enc) in
  length iv = 12%nat /\ length tag = 16%nat
  /\ fst (encryptToken env g T) = Normal blob
  /\ forallb is_b64url_char blob = true
  /\ subarray 0 IV_BYTES (b64url_decode blob) = iv
  /\ subarray IV_BYTES (IV_BYTES + TAG_BYTES) (b64url_decode blob) = tag
  /\ subarray_from (IV_BYTES + TAG_BYTES) (b64url_decode blob) = enc
  /\ decryptToken_try env blob
     = cbind (createDecipheriv (getKey env) iv) (fun decipher0 =>
       cbind (setAuthTag decipher0 tag) (fun decipher1 =>
       let '(decipher2, out) := update decipher1 enc in
       cbind (decipher_final decipher2) (fun fin =>
       Normal (utf8_decode out ++ utf8_decode fin))))
  /\ decryptToken env blob
     = Normal (JSString (utf8_decode (utf8_encode T))).
Proof.
  intros L iv tag enc blob.
  assert (Hi : length iv = 12%nat) by apply nonce_length.
  assert (Ht : length tag = 16%nat) by apply gcm_tag_length.
  split; [exact Hi|]. split; [exact Ht|].
  split; [apply encryptToken_unfold, getKey_length, L|].
  split; [apply b64url_encode_safe|].
  destruct (split_blob iv tag enc Hi Ht) as (Siv & Stag & Senc).
  assert (Hb : b64url_decode blob = iv ++ tag ++ enc)
    by (subst blob; apply b64url_roundtrip).
  rewrite Hb. split; [exact Siv|]. split; [exact Stag|].
  split; [exact Senc|]. split.
  - unfold decryptToken_try. rewrite Hb, Siv, Stag, Senc. reflexivity.
  - unfold decryptToken. subst blob tag enc. unfold tag_of, ciphertext_of.
    now rewrite decryptToken_try_sealed.
Qed.
End VaultTheorems.

(** ** The token store *)

Lemma MapStore_get_expired (now : Z) (userId : jsstring)
    (store : MapStore.table) (entry : MapStore.entry) :
  store !! userId = Some entry -> MapStore.expiresAt entry < now ->
  MapStore.get now userId store = (JSNull, delete userId store).
Proof.
  intros Hl He. unfold MapStore.get. rewrite Hl.
  now rewrite (proj2 (Z.ltb_lt _ _) He).
Qed.

Lemma MapStore_get_fresh (now : Z) (userId : jsstring)
    (store store' : MapStore.table) (v : js_value) :
  MapStore.get now userId store = (v, store') -> v <> JSNull ->
  exists entry, store' !! userId = Some entry
    /\ MapStore.googleToken entry = v /\ now <= MapStore.expiresAt entry.
Proof.
  unfold MapStore.get. intros E Hv.
  destruct (store !! userId) as [entry|] eqn:Hl.
  - destruct (Z.ltb_spec (MapStore.expiresAt entry) now);
      injection E as <- <-; [congruence|]. eauto.
  - injection E as <- <-. congruence.
Qed.

Section Jwt.
Context `{NodeCrypto}.

Lemma JwtStore_get_cached_expired (now : Z) (userId : jsstring)
    (mem : JwtStore.table) (entry : JwtStore.entry) :
  mem !! userId = Some entry -> JwtStore.expiresAt entry < now ->
  JwtStore.get_cached now userId mem = (JSNull, delete userId mem).
Proof.
  intros Hl He. unfold JwtStore.get_cached. rewrite Hl.
  now rewrite (proj2 (Z.ltb_lt _ _) He).
Qed.

Lemma JwtStore_get_cached_fresh (now : Z) (userId : jsstring)
    (mem mem' : JwtStore.table) (v : js_value) :
  JwtStore.get_cached now userId mem = (v, mem') -> v <> JSNull ->
  exists entry, mem' !! userId = Some entry
    /\ JwtStore.googleToken entry = v /\ now <= JwtStore.expiresAt entry.
Proof.
  unfold JwtStore.get_cached. intros E Hv.
  destruct (mem !! userId) as [entry|] eqn:Hl.
  - destruct (Z.ltb_spec (JwtStore.expiresAt entry) now);
      injection E as <- <-; [congruence|]. eauto.
  - injection E as <- <-. congruence.
Qed.

Lemma blob_of_absent req :
  JwtStore.blob_claim req = None -> JwtStore.blob_of req = None.
Proof. unfold JwtStore.blob_of. now intros ->. Qed.

(** C9.  [tokenStore.get] never returns an expired cached token, in either
    revision: when the stored entry of [userId] has [expiresAt] strictly
    before now, [get(userId)] returns [null] and leaves the store without
    the entry; and whenever a call returns something other than [null], the
    store it leaves holds for [userId] an entry with that token whose
    expiry is not before now. *)
Theorem get_never_returns_expired :
  (forall (now : Z) (userId : jsstring) (store : MapStore.table) entry,
      store !! userId = Some entry -> MapStore.expiresAt entry < now ->
      MapStore.get now userId store = (JSNull, delete userId store))
  /\ (forall (now : Z) (userId : jsstring)
             (store store' : MapStore.table) v,
      MapStore.get now userId store = (v, store') -> v <> JSNull ->
      exists entry, store' !! userId = Some entry
        /\ MapStore.googleToken entry = v
        /\ now <= MapStore.expiresAt entry)
  /\ (forall (env : process_env) (now : Z) (userId : jsstring)
             (req : option request) (mem : JwtStore.table) entry,
      JwtStore.blob_claim req = None ->
      mem !! userId = Some entry -> JwtStore.expiresAt entry < now ->
      JwtStore.get env now userId req mem
      = (Normal JSNull, delete userId mem))
  /\ (forall (env : process_env) (now : Z) (userId : jsstring)
             (req : option request) (mem mem' : JwtStore.table) v,
      JwtStore.get env now userId req mem = (Normal v, mem') ->
      v <> JSNull ->
      exists entry, mem' !! userId = Some entry
        /\ JwtStore.googleToken entry = v
        /\ now <= JwtStore.expiresAt entry).
Proof.
  split; [exact MapStore_get_expired|].
  split; [exact MapStore_get_fresh|].
  split.
  - intros env now userId req mem entry Hb Hl He.
    unfold JwtStore.get. rewrite (blob_of_absent _ Hb).
    now rewrite (JwtStore_get_cached_expired _ _ _ _ Hl He).
  - intros env now userId req mem mem' v E Hv. unfold JwtStore.get in E.
    assert (C : forall r,
               (let '(v0, m0) := r in (Normal v0, m0)) = (Normal v, mem') ->
               r = (v, mem')).
    { intros [v0 m0] [= -> ->]. reflexivity. }
    destruct (JwtStore.blob_of req) as [blob|].
    + destruct (decryptToken env blob) as [token|e]; [|discriminate].
      destruct (truthy token) eqn:Ht.
      * injection E as <- <-. rewrite lookup_insert_eq.
        eexists. split; [reflexivity|]. cbn.
        unfold JwtStore.GOOGLE_TOKEN_TTL_MS. split; [reflexivity | lia].
      * apply C in E. eauto using JwtStore_get_cached_fresh.
    + apply C in E. eauto using JwtStore_get_cached_fresh.
Qed.
End Jwt.

(** C10.  For a [userId] with no stored entry (and, in the JWT-embedded
    revision, a request with no [googleTokenExpiresAt] claim),
    [isExpiringSoon] answers [true]. *)
Theorem missing_token_is_expiring_soon (now : Z) (userId : jsstring) :
  (forall store : MapStore.table,
      store !! userId = None ->
      MapStore.isExpiringSoon now userId store = true)
  /\ (forall (req : option request) (mem : JwtStore.table),
      mem !! userId = None -> JwtStore.expiry_claim req = None ->
      JwtStore.isExpiringSoon now userId req mem = true).
Proof.
  split.
  - intros store Hl. unfold MapStore.isExpiringSoon. now rewrite Hl.
  - intros req mem Hl He.
    unfold JwtStore.isExpiringSoon, JwtStore.exp_of. now rewrite He, Hl.
Qed.

(** ** [trim] *)

Lemma trimStart_head s c t : trimStart s = c :: t -> is_js_space c = false.
Proof.
  induction s as [|d s IH]; cbn [trimStart]; [discriminate|].
  destruct (is_js_space d) eqn:E; [exact IH|].
  now intros [= <- <-].
Qed.

Lemma trimStart_fixed s :
  (forall c t, s = c :: t -> is_js_space c = false) -> trimStart s = s.
Proof.
  destruct s as [|c t]; [reflexivity|]. intros Hh. cbn [trimStart].
  now rewrite (Hh c t eq_refl).
Qed.

Lemma trimStart_idem s : trimStart (trimStart s) = trimStart s.
Proof. apply trimStart_fixed. intros c t. apply trimStart_head. Qed.

Lemma trimStart_suffix s : exists sp, s = sp ++ trimStart s.
Proof.
  induction s as [|d s [sp IH]]; [now exists []|]. cbn [trimStart].
  destruct (is_js_space d).
  - exists (d :: sp). cbn. now rewrite <- IH.
  - now exists [].
Qed.

Lemma trim_idem s : trim (trim s) = trim s.
Proof.
  unfold trim.
  set (a := trimStart s). set (b := trimStart (rev a)).
  assert (Hb : trimStart (rev b) = rev b).
  { apply trimStart_fixed. intros c t Hc.
    destruct (trimStart_suffix (rev a)) as [sp Hsp]. fold b in Hsp.
    assert (Ha : a = c :: t ++ rev sp).
    { rewrite <- (rev_involutive a), Hsp, rev_app_distr, Hc. reflexivity. }
    apply (trimStart_head s c (t ++ rev sp)). exact Ha. }
  rewrite Hb, rev_involutive. subst b. now rewrite trimStart_idem.
Qed.

(** ** The stand-in lower-casing is lawful *)

Lemma lower_ascii_idem c :
  Toy.lower_ascii (Toy.lower_ascii c) = Toy.lower_ascii c.
Proof. unfold Toy.lower_ascii. repeat case_match; lia. Qed.

Lemma lower_ascii_space c : is_js_space (Toy.lower_ascii c) = is_js_space c.
Proof.
  unfold Toy.lower_ascii, is_js_space.
  destruct ((65 <=? c) && (c <=? 90)) eqn:E; [|reflexivity]. lia.
Qed.

Lemma trimStart_lower s :
  trimStart (map Toy.lower_ascii s) = map Toy.lower_ascii (trimStart s).
Proof.
  induction s as [|c s IH]; [reflexivity|]. cbn [map trimStart].
  rewrite lower_ascii_space. now destruct (is_js_space c).
Qed.

Lemma toy_unicode_laws : @UnicodeLaws Toy.unicode.
Proof.
  split; cbn [toLowerCase Toy.unicode]; intros s.
  - rewrite map_map. apply map_ext. intros c. apply lower_ascii_idem.
  - unfold trim.
    now rewrite trimStart_lower, <- map_rev, trimStart_lower, <- map_rev.
Qed.

(** ** The routes *)

Section RouteLemmas.
Context `{Unicode} `{World}.

Lemma normalized_email_idem p e :
  UnicodeLaws -> normalized_email p = Normal e -> trim (toLowerCase e) = e.
Proof.
  intros L. unfold normalized_email.
  destruct (as_string _) as [x|]; cbn [cbind]; [|discriminate].
  intros [= <-].
  now rewrite toLowerCase_trim, toLowerCase_idem, trim_idem.
Qed.

Lemma fetch_userinfo_run tok s st j :
  google_userinfo (ticks s) tok = Http st j ->
  fetch_userinfo tok s
  = (Normal {| res_status := st; res_json := j |},
     tick [CallUserinfo tok] s).
Proof. intros E. unfold fetch_userinfo. now rewrite E. Qed.

Lemma tokenStore_set_run u t s :
  tokenStore_set u t s
  = (Normal tt,
     with_store (MapStore.set (clock (ticks s)) u t) (tick [] s)).
Proof. reflexivity. Qed.

Lemma ok_status {B} st (j : completion B) :
  200 <= st <= 299 -> ok {| res_status := st; res_json := j |} = true.
Proof. intros. unfold ok. cbn. lia. Qed.

Lemma requireAuth_run env authHeader session s :
  take 7 authHeader = js "Bearer " ->
  jwt_verify (ticks s) (drop 7 authHeader) (JWT_SECRET env)
  = Verified session ->
  requireAuth env (Some authHeader) s = (Normal (inr session), tick [] s).
Proof.
  intros Hp Hv. unfold requireAuth.
  rewrite bool_decide_eq_true_2 by assumption. now rewrite Hv.
Qed.

(** C8.  When the [googleAccessToken] of a verify request is missing,
    the empty string, or not a string, both revisions answer 400
    "googleAccessToken is required" and leave the process state as it was:
    no call to the identity endpoint has been made and no credential is
    issued. *)
Theorem verify_requires_token env tok s :
  tok = JSUndefined \/ tok = JSString [] \/ is_string tok = false ->
  Routes.verify env tok s
  = (Normal (status_json 400 GoogleAccessTokenRequired), s)
  /\ RosterRoutes.verify env tok s
     = (Normal (status_json 400 GoogleAccessTokenRequired), s).
Proof.
  intros Hbad.
  assert (E : negb (truthy tok) || negb (is_string tok) = true).
  { destruct Hbad as [-> | [-> | ->]]; [reflexivity | reflexivity |].
    apply orb_true_r. }
  unfold Routes.verify, RosterRoutes.verify. now rewrite E.
Qed.

(** C3, as amended.  For every refresh request that carries a valid
    session credential with subject [userId session] and a new access
    token which the identity endpoint accepts and whose resolved identity
    [e] differs from that subject, both revisions answer 403 "Token belongs
    to a different account"; the token store is left untouched. *)
Theorem refresh_identity_mismatch env authHeader session tok st p e s :
  take 7 authHeader = js "Bearer " ->
  jwt_verify (ticks s) (drop 7 authHeader) (JWT_SECRET env)
  = Verified session ->
  truthy tok = true ->
  google_userinfo (S (ticks s)) tok = Http st (Normal p) ->
  200 <= st <= 299 ->
  normalized_email p = Normal e ->
  e <> userId session ->
  Routes.refresh_google env (Some authHeader) tok s
  = (Normal (status_json 403 DifferentAccount),
     tick [CallUserinfo tok] (tick [] s))
  /\ RosterRoutes.refresh_google env (Some authHeader) tok s
     = (Normal (status_json 403 DifferentAccount),
        tick [CallUserinfo tok] (tick [] s)).
Proof.
  intros Hp Hv Ht Hg Hst He Hne.
  unfold Routes.refresh_google, RosterRoutes.refresh_google, authenticated.
  unfold bind. rewrite (requireAuth_run _ _ _ _ Hp Hv).
  unfold Routes.refresh_google_handler, RosterRoutes.refresh_google_handler.
  rewrite Ht. cbn [negb].
  unfold try_catch, bind.
  rewrite (fetch_userinfo_run tok (tick [] s) st (Normal p)) by exact Hg.
  rewrite ok_status by assumption. cbn [negb res_json lift].
  rewrite He.
  rewrite bool_decide_eq_false_2 by assumption. cbn [negb].
  split; reflexivity.
Qed.
(** A session that [issue] returns carries the signature of its
    payload. *)
Lemma issue_signed env payload s r s' :
  Routes.issue env payload s = (Normal r, s') ->
  exists token,
    jwt_sign (ticks s) payload (JWT_SECRET env)
      (env_or (JWT_EXPIRES_IN env) (js "8h")) = Normal token
    /\ r = json (SessionBody token payload
                   (env_or (JWT_EXPIRES_IN env) (js "8h")))
    /\ s' = tick [] s.
Proof.
  unfold Routes.issue.
  destruct (jwt_sign _ _ _ _) as [token|] eqn:E; [|discriminate].
  intros [= <- <-]. eauto.
Qed.

(** What [requireAuth] hands to a route for a credential that was signed
    for [payload]. *)
Lemma credential_claims env m payload token authHeader s q s' :
  JwtLaws ->
  jwt_sign m payload (JWT_SECRET env)
    (env_or (JWT_EXPIRES_IN env) (js "8h")) = Normal token ->
  drop 7 authHeader = token ->
  requireAuth env (Some authHeader) s = (Normal (inr q), s') ->
  userId q = userId payload /\ email q = email payload
  /\ role q = role payload.
Proof.
  intros J Hsig Hd. unfold requireAuth.
  destruct (bool_decide _); [|discriminate]. rewrite Hd.
  destruct (jwt_verify _ _ _) as [v| |] eqn:Hv; intros [= <- _].
  exact (jwt_verify_signed _ _ _ _ _ _ _ Hsig Hv).
Qed.
End RouteLemmas.

Section Roster.
Context `{Unicode} `{World}.

Lemma includes_true xs x : x ∈ xs -> includes xs x = true.
Proof. intros. unfold includes. now apply bool_decide_eq_true_2. Qed.

Lemma bootstrap_nonempty env e :
  e ∈ bootstrap_admins env -> nonempty e = true.
Proof.
  unfold bootstrap_admins. now intros [? ?]%list_elem_of_filter.
Qed.

Lemma lookupUser_bootstrap env e s :
  trim (toLowerCase e) = e -> e ∈ bootstrap_admins env ->
  UserStore.lookupUser env e s
  = (Normal (Some {| u_email := e; u_role := js "admin"; u_row := None |}),
     s).
Proof.
  intros Hn Hin. unfold UserStore.lookupUser. rewrite Hn.
  now rewrite includes_true.
Qed.

Lemma issue_run env payload s t :
  jwt_sign (ticks s) payload (JWT_SECRET env)
    (env_or (JWT_EXPIRES_IN env) (js "8h")) = Normal t ->
  Routes.issue env payload s
  = (Normal (json (SessionBody t payload
                     (env_or (JWT_EXPIRES_IN env) (js "8h")))),
     tick [] s).
Proof. intros E. unfold Routes.issue. now rewrite E. Qed.

(** C7.  When the identity endpoint accepts the token and the normalized
    (lower-cased, trimmed) email [e] is on the bootstrap admin list, verify
    issues a credential for the role "admin" and the subject [e], in any
    process state: whatever the roster cache, the sheet and the admin
    pointer are, and with no call to the sheet.  The credential is the
    signature [jwt.sign] gives for these claims, and whenever [requireAuth]
    later accepts it, the claims the routes see have the subject [e] and
    the role "admin", which [requireAdmin] lets pass.  The revision
    without a roster issues the same credential. *)
Theorem bootstrap_admin_is_admin env tok st p e token s :
  UnicodeLaws -> JwtLaws ->
  truthy tok = true -> is_string tok = true ->
  google_userinfo (ticks s) tok = Http st (Normal p) ->
  200 <= st <= 299 ->
  normalized_email p = Normal e ->
  e ∈ bootstrap_admins env ->
  jwt_sign (S (S (ticks s))) (admin_claims p e) (JWT_SECRET env)
    (env_or (JWT_EXPIRES_IN env) (js "8h")) = Normal token ->
  exists s',
    RosterRoutes.verify env tok s
    = (Normal (json (SessionBody token (admin_claims p e)
                       (env_or (JWT_EXPIRES_IN env) (js "8h")))), s')
    /\ role (admin_claims p e) = js "admin"
    /\ userId (admin_claims p e) = e
    /\ calls s' = calls s ++ [CallUserinfo tok]
    /\ (exists s1,
        Routes.verify env tok s
        = (Normal (json (SessionBody token (admin_claims p e)
                           (env_or (JWT_EXPIRES_IN env) (js "8h")))), s1))
    /\ (forall authHeader s2 q s3,
        drop 7 authHeader = token ->
        requireAuth env (Some authHeader) s2 = (Normal (inr q), s3) ->
        userId q = e /\ role q = js "admin"
        /\ requireAdmin (Some q) = Next).
Proof.
  intros L J Ht Hs Hg Hst He Hin Hsign.
  pose proof (normalized_email_idem p e L He) as Hn.
  pose proof (bootstrap_nonempty env e Hin) as Hne.
  set (s1 := tick [CallUserinfo tok] s).
  set (s2 := with_store (MapStore.set (clock (ticks s1)) e tok) (tick [] s1)).
  set (s3 := with_adminEmail (Some e) s2).
  assert (Ht3 : jwt_sign (ticks s3) (admin_claims p e) (JWT_SECRET env)
                  (env_or (JWT_EXPIRES_IN env) (js "8h")) = Normal token)
    by exact Hsign.
  assert (Ht2 : jwt_sign (ticks s2) (admin_claims p e) (JWT_SECRET env)
                  (env_or (JWT_EXPIRES_IN env) (js "8h")) = Normal token)
    by exact Hsign.
  exists (tick [] s3).
  split; [|split; [reflexivity|split; [reflexivity|split; [|split]]]].
  - unfold admin_claims in *.
    unfold RosterRoutes.verify. rewrite Ht, Hs. cbn [negb orb].
    unfold try_catch, bind.
    rewrite (fetch_userinfo_run tok s st (Normal p) Hg).
    rewrite ok_status by assumption. cbn [negb res_json lift].
    rewrite He, Hne. cbn [negb]. fold s1.
    rewrite tokenStore_set_run. fold s2.
    unfold RosterRoutes.BOOTSTRAP_ADMINS.
    rewrite (includes_true _ _ Hin). cbn [when].
    unfold UserStore.setAdminEmail at 1. fold s3.
    rewrite (lookupUser_bootstrap env e s3 Hn Hin).
    cbn [u_role]. rewrite bool_decide_eq_true_2 by reflexivity.
    cbn [when]. unfold UserStore.setAdminEmail.
    replace (with_adminEmail (Some e) s3) with s3 by reflexivity.
    rewrite (issue_run env _ s3 token Ht3). reflexivity.
  - cbn. now rewrite !app_nil_r.
  - unfold admin_claims in *. exists (tick [] s2).
    unfold Routes.verify. rewrite Ht, Hs. cbn [negb orb].
    unfold try_catch, bind.
    rewrite (fetch_userinfo_run tok s st (Normal p) Hg).
    rewrite ok_status by assumption. cbn [negb res_json lift].
    rewrite He, Hne. cbn [negb]. fold s1.
    unfold Routes.ADMIN_EMAILS_list.
    rewrite (includes_true _ _ Hin).
    rewrite tokenStore_set_run. fold s2.
    rewrite (issue_run env _ s2 token Ht2). reflexivity.
  - intros authHeader s4 q s5 Hd Hq.
    destruct (credential_claims env _ _ _ _ _ _ _ J Hsign Hd Hq)
      as (Hu & _ & Hr).
    cbn [admin_claims userId role] in Hu, Hr.
    split; [exact Hu|]. split; [exact Hr|].
    unfold requireAdmin. rewrite Hr. now rewrite bool_decide_eq_true_2.
Qed.
End Roster.

(** ** The roster *)

Lemma roster_map_absent rows (e : jsstring) :
  (forall u, u ∈ rows -> u_email u <> e) ->
  UserStore.roster_map rows !! e = None.
Proof.
  unfold UserStore.roster_map.
  assert (G : forall (m : gmap jsstring roster_user),
             m !! e = None ->
             (forall u, u ∈ rows -> u_email u <> e) ->
             foldl (fun m u => <[u_email u := u]> m) m rows !! e = None).
  { induction rows as [|u rows IH]; intros m Hm Hrows; [exact Hm|].
    cbn [foldl]. apply IH.
    - rewrite lookup_insert_ne; [exact Hm|]. apply Hrows. left.
    - intros v Hv. apply Hrows. now right. }
  intros Hrows. apply G; [apply lookup_empty | exact Hrows].
Qed.

Section RosterAbsent.
Context `{Unicode} `{World}.

Lemma tokenStore_get_spec u s :
  exists v s', tokenStore_get u s = (Normal v, s') /\ cache s' = cache s.
Proof.
  unfold tokenStore_get. destruct (store s !! u); [|eauto].
  unfold bind, Date_now.
  destruct (MapStore.get _ _ _) as [v st]. eauto.
Qed.

Lemma admin_token_spec s :
  exists v s',
    UserStore.admin_token s = (Normal v, s') /\ cache s' = cache s.
Proof.
  unfold UserStore.admin_token.
  destruct (adminEmail s) as [[|c a]|]; eauto using tokenStore_get_spec.
Qed.

Lemma sheetFetch_spec r s c s' :
  UserStore.sheetFetch r s = (c, s') ->
  cache s' = cache s
  /\ (forall d, c = Normal d ->
      exists t tok st, sheets_api t r tok = Http st (Normal d)).
Proof.
  unfold UserStore.sheetFetch, bind.
  destruct (admin_token_spec s) as (v & s1 & -> & Hc).
  destruct (truthy v); cbn [negb].
  - destruct (sheets_api (ticks s1) r v) as [|st j] eqn:E.
    + intros [= <- <-]. split; [exact Hc | discriminate].
    + destruct (ok _).
      * intros [= <- <-]. split; [exact Hc|]. intros d ->. eauto.
      * intros [= <- <-]. split; [|discriminate].
        now destruct (st =? 401).
  - intros [= <- <-]. split; [exact Hc | discriminate].
Qed.

Lemma ensureTab_cache s c s' :
  UserStore.ensureTab s = (c, s') -> cache s' = cache s.
Proof.
  unfold UserStore.ensureTab, bind.
  destruct (UserStore.sheetFetch GetSheetProperties s) as [[m|e] s1] eqn:E1;
    apply sheetFetch_spec in E1 as [C1 _]; [|now intros [= <- <-]].
  destruct m as [meta|]; [|now intros [= <- <-]].
  destruct (existsb _ _); [now intros [= <- <-]|].
  destruct (UserStore.sheetFetch AddUsersSheet s1) as [[m2|e2] s2] eqn:E2;
    apply sheetFetch_spec in E2 as [C2 _]; [|intros [= <- <-]; congruence].
  destruct (UserStore.sheetFetch PutUsersHeaders s2) as [[m3|e3] s3] eqn:E3;
    apply sheetFetch_spec in E3 as [C3 _]; intros [= <- <-]; congruence.
Qed.

Lemma readAllRows_spec s rows s' :
  UserStore.readAllRows s = (Normal rows, s') ->
  cache s' = cache s
  /\ exists t tok st d,
      sheets_api t GetUsersValues tok = Http st (Normal d)
      /\ rows = UserStore.rows_of d.
Proof.
  unfold UserStore.readAllRows, bind.
  destruct (UserStore.sheetFetch GetUsersValues s) as [[d|e] s1] eqn:E1;
    [|discriminate].
  apply sheetFetch_spec in E1 as [C1 D1].
  intros [= <- <-]. split; [exact C1|].
  destruct (D1 d eq_refl) as (t & tok & st & E). eauto 10.
Qed.

Lemma refreshCache_spec s rows s' :
  UserStore.refreshCache s = (Normal rows, s') ->
  cache s' = Some (UserStore.roster_map rows)
  /\ exists t tok st d,
      sheets_api t GetUsersValues tok = Http st (Normal d)
      /\ rows = UserStore.rows_of d.
Proof.
  unfold UserStore.refreshCache, bind.
  destruct (UserStore.ensureTab s) as [[[]|e] s1]; [|discriminate].
  destruct (UserStore.readAllRows s1) as [[rs|e] s2] eqn:E2; [|discriminate].
  apply readAllRows_spec in E2 as [_ D].
  unfold Date_now. intros [= <- <-]. split; [reflexivity | exact D].
Qed.

Lemma cache_is_stale_spec s :
  exists b s',
    UserStore.cache_is_stale s = (Normal b, s') /\ cache s' = cache s.
Proof.
  unfold UserStore.cache_is_stale. destruct (cache s) eqn:E; [|eauto].
  unfold bind, Date_now, ret. eauto.
Qed.

Lemma lookupUser_absent env e s :
  trim (toLowerCase e) = e ->
  e ∉ bootstrap_admins env ->
  (forall c, cache s = Some c -> c !! e = None) ->
  (forall t token status data u,
      sheets_api t GetUsersValues token = Http status (Normal data) ->
      u ∈ UserStore.rows_of data -> u_email u <> e) ->
  exists r s',
    UserStore.lookupUser env e s = (r, s')
    /\ (r = Normal None \/ exists err, r = Throw err).
Proof.
  intros Hn Hb Hc Hrows. unfold UserStore.lookupUser. rewrite Hn.
  unfold includes. rewrite bool_decide_eq_false_2 by exact Hb.
  unfold bind at 1.
  destruct (admin_token_spec s) as (v & s1 & -> & C1).
  destruct (truthy v); cbn [negb]; [|unfold ret; eauto].
  unfold bind at 1.
  destruct (cache_is_stale_spec s1) as (b & s2 & -> & C2).
  unfold bind at 1. destruct b; cbn [when].
  - unfold bind at 1.
    destruct (UserStore.refreshCache s2) as [[rows|err] s3] eqn:E3;
      [|do 2 eexists; split; [reflexivity | right; eauto]].
    apply refreshCache_spec in E3 as [C3 (t & tok & st & d & Hd & ->)].
    unfold bind, ret. rewrite C3. do 2 eexists. split; [reflexivity|]. left.
    f_equal. apply roster_map_absent. intros u Hu.
    exact (Hrows t tok st d u Hd Hu).
  - unfold ret. do 2 eexists. split; [reflexivity|]. left. f_equal.
    destruct (cache s2) as [c|] eqn:E; [|reflexivity].
    apply Hc. congruence.
Qed.

(** C4, as amended.  In the revision with the roster: when the identity
    endpoint accepts the token and the normalized identity [e] is neither
    on the bootstrap admin list, nor in the cached roster, nor on any
    roster the sheet returns, verify answers 403 (access denied); no
    credential is issued and the token stored for [e] is removed again. *)
Theorem unknown_identity_denied env tok st p e s :
  UnicodeLaws ->
  truthy tok = true -> is_string tok = true ->
  google_userinfo (ticks s) tok = Http st (Normal p) ->
  200 <= st <= 299 ->
  normalized_email p = Normal e -> nonempty e = true ->
  e ∉ bootstrap_admins env ->
  (forall c, cache s = Some c -> c !! e = None) ->
  (forall t token status data u,
      sheets_api t GetUsersValues token = Http status (Normal data) ->
      u ∈ UserStore.rows_of data -> u_email u <> e) ->
  exists s',
    RosterRoutes.verify env tok s
    = (Normal (status_json 403 NotAuthorised), s')
    /\ store s' !! e = None.
Proof.
  intros L Ht Hs Hg Hst He Hne Hb Hc Hrows.
  pose proof (normalized_email_idem p e L He) as Hn.
  set (s1 := tick [CallUserinfo tok] s).
  set (s2 := with_store (MapStore.set (clock (ticks s1)) e tok) (tick [] s1)).
  destruct (lookupUser_absent env e s2 Hn Hb Hc Hrows)
    as (r & s3 & Hl & Hr).
  exists (with_store (MapStore.delete e) s3).
  split; [|apply lookup_delete_eq].
  unfold RosterRoutes.verify. rewrite Ht, Hs. cbn [negb orb].
  unfold try_catch, bind.
  rewrite (fetch_userinfo_run tok s st (Normal p) Hg).
  rewrite ok_status by assumption. cbn [negb res_json lift].
  rewrite He, Hne. cbn [negb]. fold s1.
  rewrite tokenStore_set_run. fold s2.
  unfold RosterRoutes.BOOTSTRAP_ADMINS, includes.
  rewrite bool_decide_eq_false_2 by exact Hb. cbn [when]. unfold ret at 1.
  rewrite Hl.
  destruct Hr as [-> | [err ->]]; reflexivity.
Qed.
End RosterAbsent.

(** ** Further properties *)

Section MoreVault.
Context `{NodeCrypto}.

(** X1.  Tampering with the tag: a sealed blob whose 16 tag bytes are replaced
    by any other 16 bytes decrypts to [null]. *)
Theorem tampered_tag_rejected env g T (tag' : bytes) :
  NodeCryptoLaws ->
  length tag' = 16%nat -> tag' <> tag_of env g T ->
  decryptToken env
    (b64url_encode (nonce_of g ++ tag' ++ ciphertext_of env g T))
  = Normal JSNull.
Proof.
  intros L Hlen Hne. apply decryptToken_tag_mismatch.
  rewrite b64url_roundtrip.
  destruct (split_blob (nonce_of g) tag' (ciphertext_of env g T)
              (nonce_length g) Hlen) as (-> & -> & ->).
  rewrite take_ge by (rewrite gcm_tag_length; lia). exact Hne.
Qed.
End MoreVault.

Section MoreRoutes.
Context `{Unicode} `{World}.

Lemma not_ok_status {B} st (j : completion B) :
  ~ (200 <= st <= 299) -> ok {| res_status := st; res_json := j |} = false.
Proof. intros. unfold ok. cbn. lia. Qed.

(** X2.  A verify request whose token the identity endpoint rejects is
    answered 401 "Invalid or expired Google token" in both revisions; the
    call is all that has happened. *)
Theorem verify_rejected_token env tok st j s :
  truthy tok = true -> is_string tok = true ->
  google_userinfo (ticks s) tok = Http st j ->
  ~ (200 <= st <= 299) ->
  Routes.verify env tok s
  = (Normal (status_json 401 InvalidOrExpiredGoogleToken),
     tick [CallUserinfo tok] s)
  /\ RosterRoutes.verify env tok s
     = (Normal (status_json 401 InvalidOrExpiredGoogleToken),
        tick [CallUserinfo tok] s).
Proof.
  intros Ht Hs Hg Hst.
  unfold Routes.verify, RosterRoutes.verify. rewrite Ht, Hs. cbn [negb orb].
  unfold try_catch, bind.
  rewrite (fetch_userinfo_run tok s st j Hg).
  rewrite not_ok_status by assumption. split; reflexivity.
Qed.

(** X3.  A refresh whose new token the identity endpoint rejects is answered
    401 "Invalid Google token" in both revisions, before any comparison of
    identities. *)
Theorem refresh_rejected_token env authHeader session tok st j s :
  take 7 authHeader = js "Bearer " ->
  jwt_verify (ticks s) (drop 7 authHeader) (JWT_SECRET env)
  = Verified session ->
  truthy tok = true ->
  google_userinfo (S (ticks s)) tok = Http st j ->
  ~ (200 <= st <= 299) ->
  Routes.refresh_google env (Some authHeader) tok s
  = (Normal (status_json 401 InvalidGoogleToken),
     tick [CallUserinfo tok] (tick [] s))
  /\ RosterRoutes.refresh_google env (Some authHeader) tok s
     = (Normal (status_json 401 InvalidGoogleToken),
        tick [CallUserinfo tok] (tick [] s)).
Proof.
  intros Hp Hv Ht Hg Hst.
  unfold Routes.refresh_google, RosterRoutes.refresh_google, authenticated.
  unfold bind. rewrite (requireAuth_run _ _ _ _ Hp Hv).
  unfold Routes.refresh_google_handler, RosterRoutes.refresh_google_handler.
  rewrite Ht. cbn [negb].
  unfold try_catch, bind.
  rewrite (fetch_userinfo_run tok (tick [] s) st j) by exact Hg.
  rewrite not_ok_status by assumption. split; reflexivity.
Qed.

(** X4.  A refresh whose new token resolves to the subject of the session
    succeeds, and the store then holds the new token for the subject, good
    for 55 minutes from the moment it was stored. *)
Theorem refresh_same_identity env authHeader session tok st p s :
  take 7 authHeader = js "Bearer " ->
  jwt_verify (ticks s) (drop 7 authHeader) (JWT_SECRET env)
  = Verified session ->
  truthy tok = true ->
  google_userinfo (S (ticks s)) tok = Http st (Normal p) ->
  200 <= st <= 299 ->
  normalized_email p = Normal (userId session) ->
  let fresh :=
    {| MapStore.googleToken := tok;
       MapStore.expiresAt :=
         clock (S (S (ticks s))) + MapStore.GOOGLE_TOKEN_TTL_MS |} in
  (exists s',
      Routes.refresh_google env (Some authHeader) tok s
      = (Normal (json SuccessBody), s')
      /\ store s' !! userId session = Some fresh)
  /\ (exists s',
      RosterRoutes.refresh_google env (Some authHeader) tok s
      = (Normal (json SuccessBody), s')
      /\ store s' !! userId session = Some fresh).
Proof.
  intros Hp Hv Ht Hg Hst He fresh.
  unfold Routes.refresh_google, RosterRoutes.refresh_google, authenticated.
  unfold bind. rewrite (requireAuth_run _ _ _ _ Hp Hv).
  unfold Routes.refresh_google_handler, RosterRoutes.refresh_google_handler.
  rewrite Ht. cbn [negb].
  unfold try_catch, bind.
  rewrite (fetch_userinfo_run tok (tick [] s) st (Normal p)) by exact Hg.
  rewrite ok_status by assumption. cbn [negb res_json lift].
  rewrite He. rewrite bool_decide_eq_true_2 by reflexivity. cbn [negb].
  rewrite tokenStore_set_run.
  split.
  - eexists. split; [reflexivity|]. cbn [store with_store tick].
    unfold MapStore.set. apply lookup_insert_eq.
  - destruct (bool_decide (role session = js "admin")); cbn [when];
      eexists; (split; [reflexivity|]);
      cbn [store with_store with_adminEmail tick];
      unfold MapStore.set; apply lookup_insert_eq.
Qed.
End MoreRoutes.

(** ** Runs of the model *)

(** C1, witness: an access token sealed with the stand-in cipher comes
    back as it was. *)
Lemma vault_roundtrip_witness :
  exists blob,
    fst (@encryptToken Toy.crypto Toy.env (Toy.dice 3) (js "ya29.a0Af_token"))
    = Normal blob
    /\ @decryptToken Toy.crypto Toy.env blob
       = Normal (JSString (js "ya29.a0Af_token")).
Proof.
  apply (@vault_roundtrip Toy.crypto Toy.env (Toy.dice 3) (js "ya29.a0Af_token")
           toy_crypto_laws).
  reflexivity.
Defined.

(** C5, witness: two states of the random source. *)
Lemma distinct_nonces_witness :
  @nonce_of (Toy.dice 3) <> @nonce_of (Toy.dice 4)
  /\ fst (@encryptToken Toy.crypto Toy.env (Toy.dice 3)
            (js "ya29.a0Af_token"))
     <> fst (@encryptToken Toy.crypto Toy.env (Toy.dice 4)
               (js "ya29.a0Af_token")).
Proof.
  assert (N : @nonce_of (Toy.dice 3) <> @nonce_of (Toy.dice 4))
    by (vm_compute; discriminate).
  split; [exact N|].
  exact (@distinct_nonces_distinct_blobs Toy.crypto Toy.env (Toy.dice 3)
           (Toy.dice 4) (js "ya29.a0Af_token") toy_crypto_laws N).
Defined.


(** C6, witness. *)
Lemma blob_layout_witness :
  let iv := @nonce_of (Toy.dice 3) in
  let tag := @tag_of Toy.crypto Toy.env (Toy.dice 3) (js "ya29.a0Af_token") in
  let enc :=
    @ciphertext_of Toy.crypto Toy.env (Toy.dice 3) (js "ya29.a0Af_token") in
  let blob := b64url_encode (iv ++ tag ++ enc) in
  length iv = 12%nat /\ length tag = 16%nat
  /\ fst (@encryptToken Toy.crypto Toy.env (Toy.dice 3)
            (js "ya29.a0Af_token")) = Normal blob
  /\ forallb is_b64url_char blob = true
  /\ subarray 0 IV_BYTES (b64url_decode blob) = iv
  /\ subarray IV_BYTES (IV_BYTES + TAG_BYTES) (b64url_decode blob) = tag
  /\ subarray_from (IV_BYTES + TAG_BYTES) (b64url_decode blob) = enc
  /\ @decryptToken Toy.crypto Toy.env blob
     = Normal (JSString (js "ya29.a0Af_token")).
Proof.
  intros iv tag enc blob.
  destruct (@blob_layout Toy.crypto Toy.env (Toy.dice 3)
              (js "ya29.a0Af_token") toy_crypto_laws)
    as (H1 & H2 & H3 & H4 & H5 & H6 & H7 & _ & H9).
  repeat (split; [assumption|]). exact H9.
Defined.

(** C9, witness: the store of one user whose token ran out at 10, read
    at 11. *)
Lemma get_never_returns_expired_witness :
  MapStore.get 11 (js "a@x.com")
    {[ js "a@x.com" := {| MapStore.googleToken := JSString (js "t");
                          MapStore.expiresAt := 10 |} ]}
  = (JSNull,
     delete (js "a@x.com")
       ({[ js "a@x.com" := {| MapStore.googleToken := JSString (js "t");
                              MapStore.expiresAt := 10 |} ]}
          : MapStore.table))
  /\ @JwtStore.get Toy.crypto Toy.env 11 (js "a@x.com") None
       {[ js "a@x.com" := {| JwtStore.googleToken := JSString (js "t");
                             JwtStore.expiresAt := 10 |} ]}
     = (Normal JSNull,
        delete (js "a@x.com")
          ({[ js "a@x.com" := {| JwtStore.googleToken := JSString (js "t");
                                 JwtStore.expiresAt := 10 |} ]}
             : JwtStore.table)).
Proof.
  destruct (@get_never_returns_expired Toy.crypto) as (M1 & _ & J1 & _).
  split.
  - eapply M1; [apply lookup_singleton_eq | cbn; lia].
  - eapply J1; [reflexivity | apply lookup_singleton_eq | cbn; lia].
Defined.

(** C10, witness: an empty store. *)
Lemma missing_token_is_expiring_soon_witness :
  MapStore.isExpiringSoon 1000 (js "a@x.com") ∅ = true
  /\ JwtStore.isExpiringSoon 1000 (js "a@x.com")
       (Some {| user := Some Toy.member |}) ∅ = true.
Proof.
  destruct (missing_token_is_expiring_soon 1000 (js "a@x.com")) as [M1 J1].
  split.
  - apply M1, lookup_empty.
  - apply J1; [apply lookup_empty | reflexivity].
Defined.

(** C8, witness: the empty string as token. *)
Lemma verify_requires_token_witness :
  @Routes.verify Toy.unicode Toy.world Toy.env (JSString []) Toy.cold
  = (Normal (status_json 400 GoogleAccessTokenRequired), Toy.cold)
  /\ @RosterRoutes.verify Toy.unicode Toy.world Toy.env (JSString [])
       Toy.cold
     = (Normal (status_json 400 GoogleAccessTokenRequired), Toy.cold).
Proof.
  apply (@verify_requires_token Toy.unicode Toy.world Toy.env (JSString [])
           Toy.cold).
  right. left. reflexivity.
Defined.

(** C3, witness: the member's session, refreshed with the boss's token. *)
Lemma refresh_identity_mismatch_witness :
  @Routes.refresh_google Toy.unicode Toy.world Toy.env
    (Some (js "Bearer session-of-member"))
    (JSString (js "validTokenForBoss")) Toy.cold
  = (Normal (status_json 403 DifferentAccount),
     tick [CallUserinfo (JSString (js "validTokenForBoss"))]
       (tick [] Toy.cold))
  /\ @RosterRoutes.refresh_google Toy.unicode Toy.world Toy.env
       (Some (js "Bearer session-of-member"))
       (JSString (js "validTokenForBoss")) Toy.cold
     = (Normal (status_json 403 DifferentAccount),
        tick [CallUserinfo (JSString (js "validTokenForBoss"))]
          (tick [] Toy.cold)).
Proof.
  apply (@refresh_identity_mismatch Toy.unicode Toy.world Toy.env
           (js "Bearer session-of-member") Toy.member
           (JSString (js "validTokenForBoss")) 200
           (Toy.profile_of " Boss@X.com") (js "boss@x.com") Toy.cold);
    [reflexivity | reflexivity | reflexivity | reflexivity | lia
    | reflexivity | discriminate].
Defined.

(** C3, counterexample: the member's session refreshed with a token the
    identity endpoint rejects.  The rejected response resolves to the empty
    identity, which is not the subject, and the answer is 401 "Invalid
    Google token", not 403. *)
Lemma refresh_rejected_token_is_401 :
  fst (@Routes.refresh_google Toy.unicode Toy.world Toy.env
         (Some (js "Bearer session-of-member"))
         (JSString (js "revoked")) Toy.cold)
  = Normal (status_json 401 InvalidGoogleToken)
  /\ fst (@RosterRoutes.refresh_google Toy.unicode Toy.world Toy.env
            (Some (js "Bearer session-of-member"))
            (JSString (js "revoked")) Toy.cold)
     = Normal (status_json 401 InvalidGoogleToken)
  /\ @normalized_email Toy.unicode Toy.no_profile = Normal []
  /\ [] <> userId Toy.member.
Proof. repeat split; [vm_compute; reflexivity .. | discriminate]. Qed.

Lemma toy_signing_succeeds n payload :
  exists t,
    @jwt_sign Toy.world n payload (JWT_SECRET Toy.env)
      (env_or (JWT_EXPIRES_IN Toy.env) (js "8h")) = Normal t.
Proof. eexists. reflexivity. Qed.

Lemma toy_boss_is_bootstrap :
  js "boss@x.com" ∈ @bootstrap_admins Toy.unicode Toy.env.
Proof. vm_compute. left. Qed.

Lemma toy_random_not_bootstrap :
  js "random@x.com" ∉ @bootstrap_admins Toy.unicode Toy.env.
Proof.
  intros Hin. apply (bool_decide_eq_true_2 _) in Hin.
  vm_compute in Hin. discriminate.
Qed.

Lemma toy_random_not_on_roster t token status data u :
  @sheets_api Toy.world t GetUsersValues token = Http status (Normal data) ->
  u ∈ @UserStore.rows_of Toy.unicode data ->
  u_email u <> js "random@x.com".
Proof.
  intros [= <- <-] Hu.
  apply list_elem_of_In in Hu as Hin.
  vm_compute in Hin. destruct Hin as [<- | []]. discriminate.
Qed.

(** The signer and the verifier of [Demo.world] agree. *)
Lemma demo_jwt_laws : @JwtLaws Demo.world.
Proof.
  split. intros n m payload secret expiresIn token verified.
  cbn [jwt_sign jwt_verify Demo.world].
  assert (Claims : forall who,
             Demo.signed_for payload who = true ->
             userId who = userId payload /\ email who = email payload
             /\ role who = role payload).
  { intros who Hw. unfold Demo.signed_for in Hw.
    apply andb_true_iff in Hw as [Hw Hr].
    apply andb_true_iff in Hw as [Hu He].
    apply bool_decide_eq_true_1 in Hu, He, Hr. auto. }
  destruct secret as [[|c secret]|]; [discriminate | | discriminate].
  destruct (Demo.signed_for payload Demo.boss) eqn:Eb;
    [intros [= <-] [= <-]; now apply Claims|].
  destruct (Demo.signed_for payload Toy.member) eqn:Em;
    [intros [= <-] [= <-]; now apply Claims|].
  destruct (Demo.signed_for payload Demo.random) eqn:Er;
    [intros [= <-] [= <-]; now apply Claims | discriminate].
Qed.

(** C7, witness: the boss signs in to a process that has just started,
    and the credential is then shown to [requireAuth]. *)
Lemma bootstrap_admin_is_admin_witness :
  let tok := JSString (js "validTokenForBoss") in
  let claims :=
    admin_claims (Toy.profile_of " Boss@X.com") (js "boss@x.com") in
  exists s',
    @RosterRoutes.verify Toy.unicode Demo.world Toy.env tok Toy.cold
    = (Normal (json (SessionBody (js "jwt-of-boss") claims (js "8h"))), s')
    /\ calls s' = calls Toy.cold ++ [CallUserinfo tok]
    /\ (exists s1,
        @Routes.verify Toy.unicode Demo.world Toy.env tok Toy.cold
        = (Normal (json (SessionBody (js "jwt-of-boss") claims (js "8h"))),
           s1))
    /\ exists q,
        @requireAuth Demo.world Toy.env (Some (js "Bearer jwt-of-boss")) s'
        = (Normal (inr q), tick [] s')
        /\ userId q = js "boss@x.com" /\ role q = js "admin"
        /\ requireAdmin (Some q) = Next.
Proof.
  intros tok claims.
  destruct (@bootstrap_admin_is_admin Toy.unicode Demo.world Toy.env tok 200
              (Toy.profile_of " Boss@X.com") (js "boss@x.com")
              (js "jwt-of-boss") Toy.cold toy_unicode_laws demo_jwt_laws)
    as (s' & Hrun & _ & _ & Hcalls & Hv1 & Hcred);
    [reflexivity | reflexivity | reflexivity | lia | reflexivity
    | exact toy_boss_is_bootstrap | vm_compute; reflexivity |].
  exists s'. split; [exact Hrun|]. split; [exact Hcalls|].
  split; [exact Hv1|]. exists Demo.boss.
  assert (Hq : @requireAuth Demo.world Toy.env
                 (Some (js "Bearer jwt-of-boss")) s'
               = (Normal (inr Demo.boss), tick [] s')) by reflexivity.
  split; [exact Hq|].
  exact (Hcred (js "Bearer jwt-of-boss") s' Demo.boss (tick [] s') eq_refl Hq).
Defined.

(** C4, witness: a stranger, while the boss's token gives access to a
    sheet that lists one member. *)
Lemma unknown_identity_denied_witness :
  exists s',
    @RosterRoutes.verify Toy.unicode Toy.world Toy.env
      (JSString (js "validTokenForRandomUser")) Toy.warm
    = (Normal (status_json 403 NotAuthorised), s')
    /\ store s' !! js "random@x.com" = None.
Proof.
  apply (@unknown_identity_denied Toy.unicode Toy.world Toy.env
           (JSString (js "validTokenForRandomUser")) 200
           (Toy.profile_of "random@x.com") (js "random@x.com") Toy.warm
           toy_unicode_laws);
    [reflexivity | reflexivity | reflexivity | lia | reflexivity
    | reflexivity | exact toy_random_not_bootstrap
    | intros c Hc; vm_compute in Hc; discriminate
    | exact toy_random_not_on_roster].
Defined.

(** C4, counterexample: the revision without a roster issues the stranger
    a credential with role "user". *)
Lemma rosterless_verify_admits_anyone :
  includes (@bootstrap_admins Toy.unicode Toy.env) (js "random@x.com") = false
  /\ fst (@Routes.verify Toy.unicode Toy.world Toy.env
            (JSString (js "validTokenForRandomUser")) Toy.cold)
     = Normal (json (SessionBody (js "signed:random@x.com")
                       {| userId := js "random@x.com";
                          name := JSString (js "random@x.com");
                          email := js "random@x.com";
                          picture := JSNull;
                          role := js "user";
                          encryptedGoogleToken := None;
                          googleTokenExpiresAt := None |}
                       (js "8h"))).
Proof. split; vm_compute; reflexivity. Qed.

(** X1, witness: a sealed blob with its tag overwritten by sixteen 01
    bytes. *)
Lemma tampered_tag_rejected_witness :
  @decryptToken Toy.crypto Toy.env
    (b64url_encode
       (@nonce_of (Toy.dice 3) ++ replicate 16 x01
        ++ @ciphertext_of Toy.crypto Toy.env (Toy.dice 3)
             (js "ya29.a0Af_token")))
  = Normal JSNull.
Proof.
  apply (@tampered_tag_rejected Toy.crypto Toy.env (Toy.dice 3)
           (js "ya29.a0Af_token") (replicate 16 x01) toy_crypto_laws);
    [reflexivity | vm_compute; discriminate].
Defined.

(** X2, witness: a revoked token presented to verify. *)
Lemma verify_rejected_token_witness :
  @Routes.verify Toy.unicode Toy.world Toy.env (JSString (js "revoked"))
    Toy.cold
  = (Normal (status_json 401 InvalidOrExpiredGoogleToken),
     tick [CallUserinfo (JSString (js "revoked"))] Toy.cold)
  /\ @RosterRoutes.verify Toy.unicode Toy.world Toy.env
       (JSString (js "revoked")) Toy.cold
     = (Normal (status_json 401 InvalidOrExpiredGoogleToken),
        tick [CallUserinfo (JSString (js "revoked"))] Toy.cold).
Proof.
  apply (@verify_rejected_token Toy.unicode Toy.world Toy.env
           (JSString (js "revoked")) 401 (Normal Toy.no_profile) Toy.cold);
    [reflexivity | reflexivity | reflexivity | lia].
Defined.

(** X3, witness: the member's session refreshed with a revoked token. *)
Lemma refresh_rejected_token_witness :
  @Routes.refresh_google Toy.unicode Toy.world Toy.env
    (Some (js "Bearer session-of-member")) (JSString (js "revoked")) Toy.cold
  = (Normal (status_json 401 InvalidGoogleToken),
     tick [CallUserinfo (JSString (js "revoked"))] (tick [] Toy.cold))
  /\ @RosterRoutes.refresh_google Toy.unicode Toy.world Toy.env
       (Some (js "Bearer session-of-member")) (JSString (js "revoked"))
       Toy.cold
     = (Normal (status_json 401 InvalidGoogleToken),
        tick [CallUserinfo (JSString (js "revoked"))] (tick [] Toy.cold)).
Proof.
  apply (@refresh_rejected_token Toy.unicode Toy.world Toy.env
           (js "Bearer session-of-member") Toy.member
           (JSString (js "revoked")) 401 (Normal Toy.no_profile) Toy.cold);
    [reflexivity | reflexivity | reflexivity | reflexivity | lia].
Defined.

(** X4, witness: the member's session refreshed with the member's new
    token. *)
Lemma refresh_same_identity_witness :
  let fresh :=
    {| MapStore.googleToken := JSString (js "validTokenForMember");
       MapStore.expiresAt := 1002 + MapStore.GOOGLE_TOKEN_TTL_MS |} in
  (exists s',
      @Routes.refresh_google Toy.unicode Toy.world Toy.env
        (Some (js "Bearer session-of-member"))
        (JSString (js "validTokenForMember")) Toy.cold
      = (Normal (json SuccessBody), s')
      /\ store s' !! userId Toy.member = Some fresh)
  /\ (exists s',
      @RosterRoutes.refresh_google Toy.unicode Toy.world Toy.env
        (Some (js "Bearer session-of-member"))
        (JSString (js "validTokenForMember")) Toy.cold
      = (Normal (json SuccessBody), s')
      /\ store s' !! userId Toy.member = Some fresh).
Proof.
  apply (@refresh_same_identity Toy.unicode Toy.world Toy.env
           (js "Bearer session-of-member") Toy.member
           (JSString (js "validTokenForMember")) 200
           (Toy.profile_of "member@x.com") Toy.cold);
    [reflexivity | reflexivity | reflexivity | reflexivity | lia
    | reflexivity].
Defined.

(** ** The token store over time *)

(** X5.  A token stored at time [t0] is returned by [get] up to and
    including [t0] + 55 minutes and the store is left as it was; after
    that [get] returns null and forgets the entry.  [isExpiringSoon]
    turns true once more than 50 minutes have passed. *)
Theorem stored_token_lifetime (t0 now : Z) (userId : jsstring)
    (tok : js_value) (st : MapStore.table) :
  (now <= t0 + 3300000 ->
   MapStore.get now userId (MapStore.set t0 userId tok st)
   = (tok, MapStore.set t0 userId tok st))
  /\ (t0 + 3300000 < now ->
      MapStore.get now userId (MapStore.set t0 userId tok st)
      = (JSNull, delete userId st))
  /\ MapStore.isExpiringSoon now userId (MapStore.set t0 userId tok st)
     = (t0 + 3000000 <? now).
Proof.
  unfold MapStore.get, MapStore.isExpiringSoon, MapStore.set,
    MapStore.GOOGLE_TOKEN_TTL_MS.
  rewrite lookup_insert_eq. cbn [MapStore.expiresAt MapStore.googleToken].
  split; [|split].
  - intros Hn. now replace (t0 + 55 * 60 * 1000 <? now) with false by lia.
  - intros Hn. replace (t0 + 55 * 60 * 1000 <? now) with true by lia.
    now rewrite delete_insert_eq.
  - lia.
Qed.

(** X6.  What is done for one user at any time [t1] (storing, deleting,
    reading a token, which may drop it as expired) leaves the entry of
    every other user as it was; so what [get], [has] and [isExpiringSoon]
    answer for another user at any time [now] is the same after it as
    before. *)
Theorem users_are_isolated (t1 now : Z) (u other : jsstring)
    (tok : js_value) (st : MapStore.table) :
  u <> other ->
  forall st' : MapStore.table,
    st' = MapStore.set t1 u tok st \/ st' = MapStore.delete u st
    \/ st' = snd (MapStore.get t1 u st)
    \/ st' = snd (MapStore.has t1 u st) ->
    st' !! other = st !! other
    /\ fst (MapStore.get now other st') = fst (MapStore.get now other st)
    /\ fst (MapStore.has now other st') = fst (MapStore.has now other st)
    /\ MapStore.isExpiringSoon now other st'
       = MapStore.isExpiringSoon now other st.
Proof.
  intros Hne st' Hop.
  assert (Read : snd (MapStore.get t1 u st) !! other = st !! other).
  { unfold MapStore.get. destruct (st !! u) as [e|]; [|reflexivity].
    destruct (MapStore.expiresAt e <? t1); [|reflexivity].
    cbn [snd]. now rewrite lookup_delete_ne. }
  assert (E : st' !! other = st !! other).
  { destruct Hop as [-> | [-> | [-> | ->]]].
    - unfold MapStore.set. now rewrite lookup_insert_ne.
    - unfold MapStore.delete. now rewrite lookup_delete_ne.
    - exact Read.
    - unfold MapStore.has.
      destruct (MapStore.get t1 u st) as [v st1] eqn:G. cbn [snd] in *.
      exact Read. }
  assert (G : fst (MapStore.get now other st')
              = fst (MapStore.get now other st)).
  { unfold MapStore.get. rewrite E.
    destruct (st !! other) as [e|]; [|reflexivity].
    now destruct (MapStore.expiresAt e <? now). }
  split; [exact E|]. split; [exact G|]. split.
  - unfold MapStore.has.
    destruct (MapStore.get now other st') as [v1 s1].
    destruct (MapStore.get now other st) as [v2 s2].
    cbn [fst] in *. now rewrite G.
  - unfold MapStore.isExpiringSoon. now rewrite E.
Qed.

(** ** The second revision's one-argument calls are the first revision's *)

Section Legacy.
Context `{NodeCrypto}.

(** X7.  Called without a request, the store of the second revision
    ([get], [set], [delete], [isExpiringSoon], [has]) behaves as the [Map]
    store of the first revision on the same entries. *)
Theorem legacy_calls_agree (env : process_env) (now : Z) (u : jsstring)
    (tok : js_value) (st : MapStore.table) :
  JwtStore.get env now u None (table_of_map st)
  = (Normal (fst (MapStore.get now u st)),
     table_of_map (snd (MapStore.get now u st)))
  /\ JwtStore.set now u tok (table_of_map st)
     = table_of_map (MapStore.set now u tok st)
  /\ JwtStore.delete u (table_of_map st)
     = table_of_map (MapStore.delete u st)
  /\ JwtStore.isExpiringSoon now u None (table_of_map st)
     = MapStore.isExpiringSoon now u st
  /\ JwtStore_has env now u (table_of_map st)
     = (Normal (fst (MapStore.has now u st)),
        table_of_map (snd (MapStore.has now u st))).
Proof.
  assert (G : JwtStore.get env now u None (table_of_map st)
              = (Normal (fst (MapStore.get now u st)),
                 table_of_map (snd (MapStore.get now u st)))).
  { unfold JwtStore.get, JwtStore.blob_of, JwtStore.blob_claim.
    unfold JwtStore.get_cached, MapStore.get, table_of_map.
    rewrite lookup_fmap.
    destruct (st !! u) as [e|]; cbn [fmap option_fmap option_map];
      [|reflexivity].
    cbn [entry_of_map JwtStore.expiresAt JwtStore.googleToken].
    destruct (MapStore.expiresAt e <? now); cbn [fst snd];
      [|reflexivity].
    now rewrite fmap_delete. }
  repeat split.
  - exact G.
  - unfold JwtStore.set, MapStore.set, table_of_map.
    now rewrite fmap_insert.
  - unfold JwtStore.delete, MapStore.delete, table_of_map.
    now rewrite fmap_delete.
  - unfold JwtStore.isExpiringSoon, JwtStore.exp_of, JwtStore.expiry_claim.
    unfold MapStore.isExpiringSoon, table_of_map. rewrite lookup_fmap.
    now destruct (st !! u).
  - unfold JwtStore_has. rewrite G. unfold MapStore.has.
    now destruct (MapStore.get now u st).
Qed.
End Legacy.

(** ** The blob in the request *)

Lemma b64url_encode_nonempty bs : bs <> [] -> b64url_encode bs <> [].
Proof.
  destruct bs as [|a [|b [|c t]]]; [congruence | | |];
    intros _; cbn [b64url_encode]; discriminate.
Qed.

Section JwtGet.
Context `{NodeCrypto}.

Lemma sealed_blob_nonempty env g T blob :
  NodeCryptoLaws ->
  fst (encryptToken env g T) = Normal blob -> blob <> [].
Proof.
  intros L E.
  rewrite encryptToken_unfold in E by (apply getKey_length, L).
  apply Normal_inj in E. subst blob.
  apply b64url_encode_nonempty.
  pose proof (nonce_length g) as Hn.
  destruct (nonce_of g); [discriminate | discriminate].
Qed.

Lemma blob_of_claim (claims : jwt_payload) blob :
  encryptedGoogleToken claims = Some blob -> blob <> [] ->
  JwtStore.blob_of (Some {| user := Some claims |}) = Some blob.
Proof.
  intros E Hne. unfold JwtStore.blob_of, JwtStore.blob_claim. rewrite E.
  destruct blob; [congruence | reflexivity].
Qed.

(** X8.  When the request's claims carry the blob that [encrypt] made of
    a non-empty well-formed token [T], [get] returns [T] whatever the
    warm-instance cache holds, and caches [T] for the user for 55
    minutes. *)
Theorem get_from_sealed_blob (env : process_env) (g : entropy)
    (T blob : jsstring) (claims : jwt_payload) (now : Z)
    (userId : jsstring) (mem : JwtStore.table) :
  NodeCryptoLaws ->
  isWellFormed T = true -> T <> [] ->
  fst (JwtStore.encrypt env g T) = Normal blob ->
  encryptedGoogleToken claims = Some blob ->
  JwtStore.get env now userId (Some {| user := Some claims |}) mem
  = (Normal (JSString T),
     <[userId := {| JwtStore.googleToken := JSString T;
                    JwtStore.expiresAt := now + 3300000 |}]> mem).
Proof.
  intros L Hwf Hne E Hc. unfold JwtStore.encrypt in E.
  pose proof (sealed_blob_nonempty env g T blob L E) as Hb.
  destruct (encrypt_then_decrypt env g T L) as (blob' & E' & D).
  rewrite E in E'. apply Normal_inj in E'. subst blob'.
  rewrite utf8_roundtrip in D by assumption.
  unfold JwtStore.get. rewrite (blob_of_claim claims blob Hc Hb), D.
  cbn [truthy]. destruct T; [congruence|]. reflexivity.
Qed.

(** X9.  A blob whose authentication tag was replaced gives no token:
    [get] answers as if the request carried no blob, from the
    warm-instance cache alone. *)
Theorem tampered_blob_falls_back (env : process_env) (g : entropy)
    (T : jsstring) (tag' : bytes) (claims : jwt_payload) (now : Z)
    (userId : jsstring) (mem : JwtStore.table) :
  NodeCryptoLaws ->
  length tag' = 16%nat -> tag' <> tag_of env g T ->
  encryptedGoogleToken claims
  = Some (b64url_encode (nonce_of g ++ tag' ++ ciphertext_of env g T)) ->
  JwtStore.get env now userId (Some {| user := Some claims |}) mem
  = JwtStore.get env now userId None mem.
Proof.
  intros L Hlen Hne Hc.
  assert (D : decryptToken env
                (b64url_encode (nonce_of g ++ tag' ++ ciphertext_of env g T))
              = Normal JSNull).
  { apply decryptToken_tag_mismatch. rewrite b64url_roundtrip.
    destruct (split_blob (nonce_of g) tag' (ciphertext_of env g T)
                (nonce_length g) Hlen) as (-> & -> & ->).
    rewrite take_ge by (rewrite gcm_tag_length; lia). exact Hne. }
  unfold JwtStore.get at 1. unfold JwtStore.blob_of, JwtStore.blob_claim.
  rewrite Hc.
  destruct (b64url_encode _) as [|c s] eqn:Eb.
  - unfold JwtStore.get. reflexivity.
  - rewrite D. cbn [truthy]. reflexivity.
Qed.
End JwtGet.

(** ** Routes behind [requireAuth] *)

Section Protected.
Context `{Unicode} `{World}.

Lemma requireAuth_refused env authorization s :
  refused env authorization s ->
  exists rejected s',
    requireAuth env authorization s = (Normal (inl rejected), s')
    /\ status rejected = 401 /\ same_data s s'.
Proof.
  unfold refused, requireAuth, same_data.
  assert (Done : forall (rej : response) (s' : server),
             status rej = 401 -> store s' = store s ->
             adminEmail s' = adminEmail s -> cache s' = cache s ->
             cacheTime s' = cacheTime s -> calls s' = calls s ->
             exists rejected s'',
               (Normal (inl rej) : completion (response + jwt_payload), s')
               = (Normal (inl rejected), s'')
               /\ status rejected = 401
               /\ store s'' = store s /\ adminEmail s'' = adminEmail s
               /\ cache s'' = cache s /\ cacheTime s'' = cacheTime s
               /\ calls s'' = calls s).
  { intros rej s' ? ? ? ? ? ?. exists rej, s'. auto 10. }
  destruct authorization as [authHeader|].
  - intros [Hp | Hv].
    + rewrite bool_decide_eq_false_2 by assumption. now apply Done.
    + destruct (bool_decide _); [|now apply Done].
      destruct (jwt_verify _ _ _) as [payload| |] eqn:E;
        [now destruct (Hv payload) | |];
        apply Done; cbn; rewrite ?app_nil_r; reflexivity.
  - intros _. now apply Done.
Qed.

(** X10.  A request that [requireAuth] refuses (no header, no [Bearer ]
    prefix, or a token that does not verify) is answered 401 by logout,
    me and both refresh routes, and leaves the token store, the admin
    pointer, the roster cache and the outbound log as they were. *)
Theorem refused_requests_change_nothing env authorization tok s :
  refused env authorization s ->
  (exists r s', SessionRoutes.logout env authorization s = (Normal r, s')
                /\ status r = 401 /\ same_data s s')
  /\ (exists r s', SessionRoutes.me env authorization s
                   = (Normal (inl r), s')
                   /\ status r = 401 /\ same_data s s')
  /\ (exists r s', Routes.refresh_google env authorization tok s
                   = (Normal r, s')
                   /\ status r = 401 /\ same_data s s')
  /\ (exists r s', RosterRoutes.refresh_google env authorization tok s
                   = (Normal r, s')
                   /\ status r = 401 /\ same_data s s').
Proof.
  intros Hr.
  destruct (requireAuth_refused env authorization s Hr)
    as (rej & s' & E & Hst & Hd).
  unfold SessionRoutes.logout, SessionRoutes.me, Routes.refresh_google,
    RosterRoutes.refresh_google, authenticated, bind.
  rewrite E. unfold ret. repeat split; eauto.
Qed.

(** X11.  Logout with a valid credential answers 200 [{success: true}]
    and removes the subject's Google token: afterwards [get] returns null
    for the subject and [isExpiringSoon] is true.  Other users' tokens
    and the admin pointer stay. *)
Theorem logout_forgets_token env authHeader session s :
  take 7 authHeader = js "Bearer " ->
  jwt_verify (ticks s) (drop 7 authHeader) (JWT_SECRET env)
  = Verified session ->
  exists s',
    SessionRoutes.logout env (Some authHeader) s
    = (Normal (json SuccessBody), s')
    /\ store s' !! userId session = None
    /\ (forall other, other <> userId session ->
        store s' !! other = store s !! other)
    /\ adminEmail s' = adminEmail s
    /\ calls s' = calls s
    /\ SessionRoutes.tokenStore_isExpiringSoon (userId session) s'
       = (Normal true, s')
    /\ tokenStore_get (userId session) s' = (Normal JSNull, s').
Proof.
  intros Hp Hv.
  unfold SessionRoutes.logout, authenticated, bind.
  rewrite (requireAuth_run _ _ _ _ Hp Hv).
  unfold SessionRoutes.logout_handler, bind, tokenStore_delete, ret.
  eexists. split; [reflexivity|].
  assert (L : store (with_store (MapStore.delete (userId session))
                       (tick [] s)) !! userId session = None).
  { cbn. unfold MapStore.delete. apply lookup_delete_eq. }
  split; [exact L|]. split.
  { intros other Hne. cbn. unfold MapStore.delete.
    now rewrite lookup_delete_ne. }
  split; [reflexivity|]. split; [cbn; apply app_nil_r|].
  unfold SessionRoutes.tokenStore_isExpiringSoon, tokenStore_get.
  now rewrite L.
Qed.
End Protected.

Section Me.
Context `{Unicode} `{World}.

(** X12.  [GET /me] never changes the server's data.  It answers 401, or
    the claims of the verified credential together with
    [googleExpiringSoon], which is true exactly when the store holds no
    token for the subject or the token has less than five minutes
    left. *)
Theorem me_is_read_only env authorization s :
  exists r s',
    SessionRoutes.me env authorization s = (Normal r, s')
    /\ same_data s s'
    /\ match r with
       | inl rejected => status rejected = 401
       | inr b =>
           (exists authHeader,
               authorization = Some authHeader
               /\ take 7 authHeader = js "Bearer "
               /\ jwt_verify (ticks s) (drop 7 authHeader) (JWT_SECRET env)
                  = Verified (SessionRoutes.me_user b))
           /\ SessionRoutes.googleExpiringSoon b
              = match store s !! userId (SessionRoutes.me_user b) with
                | None => true
                | Some en =>
                    MapStore.expiresAt en - clock (S (ticks s))
                    <? 5 * 60 * 1000
                end
       end.
Proof.
  unfold SessionRoutes.me, bind, requireAuth, same_data, ret.
  destruct authorization as [authHeader|];
    [|do 2 eexists; split; [reflexivity|]; cbn; auto 10].
  destruct (bool_decide_reflect (take 7 authHeader = js "Bearer "))
    as [Hp|Hp];
    [|do 2 eexists; split; [reflexivity|]; cbn; auto 10].
  destruct (jwt_verify _ _ _) as [payload| |] eqn:E;
    [|do 2 eexists; split; [reflexivity|]; cbn; rewrite app_nil_r; auto 10
     |do 2 eexists; split; [reflexivity|]; cbn; rewrite app_nil_r; auto 10].
  unfold SessionRoutes.me_handler, bind,
    SessionRoutes.tokenStore_isExpiringSoon. cbn [store tick].
  destruct (store s !! userId payload) as [en|] eqn:Es.
  - unfold bind, Date_now, ret, MapStore.isExpiringSoon.
    cbn [store tick ticks]. rewrite Es.
    do 2 eexists. split; [reflexivity|]. cbn. rewrite !app_nil_r.
    rewrite Es. split; [auto 10|]. split; [eauto|reflexivity].
  - unfold ret. do 2 eexists. split; [reflexivity|]. cbn.
    rewrite !app_nil_r, Es. split; [auto 10|]. split; [eauto|reflexivity].
Qed.

End Me.

(** ** What an issued session guarantees *)

Section Soundness.
Context `{Unicode} `{World}.

Lemma ok_range {B} (res : fetched B) :
  ok res = true -> 200 <= res_status res <= 299.
Proof. unfold ok. lia. Qed.

Lemma nonempty_true (e : jsstring) : nonempty e = true -> e <> [].
Proof. now destruct e. Qed.

Lemma issue_inv env payload s r s' :
  Routes.issue env payload s = (Normal r, s') ->
  exists token,
    r = json (SessionBody token payload
                (env_or (JWT_EXPIRES_IN env) (js "8h")))
    /\ s' = tick [] s.
Proof.
  unfold Routes.issue. destruct (jwt_sign _ _ _ _); [|discriminate].
  intros [= <- <-]. eauto.
Qed.

(** X13.  In the revision without a roster, whenever verify answers with
    a session, the identity endpoint accepted the presented token (a
    non-empty string) with a 2xx answer; the credential returned is the
    signature [jwt.sign] gave for the claims returned beside it; their
    subject and email are the normalized, non-empty email of that profile
    and their role is "admin" for a bootstrap identity and "user"
    otherwise; the store holds the presented token for the subject.
    Whenever [requireAuth] later accepts that credential, the claims the
    routes see have that subject and that role, and [requireAdmin] lets
    them pass exactly when the subject is a bootstrap identity. *)
Theorem verify_session_is_sound env tok s r s' :
  JwtLaws ->
  Routes.verify env tok s = (Normal r, s') ->
  is_session r = true ->
  exists token payload st p,
    r = json (SessionBody token payload
                (env_or (JWT_EXPIRES_IN env) (js "8h")))
    /\ jwt_sign (S (S (ticks s))) payload (JWT_SECRET env)
         (env_or (JWT_EXPIRES_IN env) (js "8h")) = Normal token
    /\ truthy tok = true /\ is_string tok = true
    /\ google_userinfo (ticks s) tok = Http st (Normal p)
    /\ 200 <= st <= 299
    /\ normalized_email p = Normal (userId payload)
    /\ userId payload <> []
    /\ email payload = userId payload
    /\ role payload
       = (if includes (bootstrap_admins env) (userId payload)
          then js "admin" else js "user")
    /\ store s' !! userId payload
       = Some {| MapStore.googleToken := tok;
                 MapStore.expiresAt :=
                   clock (S (ticks s)) + MapStore.GOOGLE_TOKEN_TTL_MS |}
    /\ (forall authHeader s2 q s3,
        drop 7 authHeader = token ->
        requireAuth env (Some authHeader) s2 = (Normal (inr q), s3) ->
        userId q = userId payload /\ role q = role payload
        /\ (requireAdmin (Some q) = Next
            <-> userId payload ∈ bootstrap_admins env)).
Proof.
  intros J. unfold Routes.verify.
  destruct (truthy tok) eqn:Ht; cbn [negb orb];
    [|intros [= <- <-]; discriminate].
  destruct (is_string tok) eqn:Hs; cbn [negb];
    [|intros [= <- <-]; discriminate].
  unfold try_catch, bind, fetch_userinfo.
  destruct (google_userinfo (ticks s) tok) as [|st j] eqn:Hg;
    [intros [= <- <-]; discriminate|].
  destruct (ok _) eqn:Hok; cbn [negb]; [|intros [= <- <-]; discriminate].
  apply ok_range in Hok. cbn [res_status] in Hok.
  cbn [res_json lift].
  destruct j as [p|err]; [|intros [= <- <-]; discriminate].
  destruct (normalized_email p) as [e|err] eqn:He;
    [|intros [= <- <-]; discriminate].
  destruct (nonempty e) eqn:Hne; cbn [negb];
    [|intros [= <- <-]; discriminate].
  rewrite tokenStore_set_run.
  match goal with
  | |- context [Routes.issue env ?pl ?s0] =>
      destruct (Routes.issue env pl s0) as [[r0|err] s0'] eqn:Hi
  end; [|intros [= <- <-]; discriminate].
  intros [= <- <-] _.
  apply issue_signed in Hi as (token & Hsig & -> & ->).
  do 4 eexists. split; [reflexivity|]. split; [exact Hsig|].
  cbn [userId email role].
  repeat (split; [first [eassumption | reflexivity
                        | now apply nonempty_true]|]).
  split; [cbn; unfold MapStore.set; apply lookup_insert_eq|].
  intros authHeader s2 q s3 Hd Hq.
  destruct (credential_claims env _ _ _ _ _ _ _ J Hsig Hd Hq)
    as (Hu & _ & Hr).
  cbn [userId role] in Hu, Hr.
  split; [exact Hu|]. split; [exact Hr|].
  unfold requireAdmin. rewrite Hr.
  unfold includes, Routes.ADMIN_EMAILS_list.
  destruct (bool_decide_reflect (e ∈ bootstrap_admins env)) as [Hin|Hin].
  - rewrite bool_decide_eq_true_2 by reflexivity. tauto.
  - rewrite bool_decide_eq_false_2 by discriminate.
    split; [discriminate | tauto].
Qed.
End Soundness.

Section RosterSoundness.
Context `{Unicode} `{World}.

(** A truthy token read from the store leaves the store as it was. *)
Lemma tokenStore_get_truthy u s v s' :
  tokenStore_get u s = (Normal v, s') -> truthy v = true ->
  store s' = store s /\ cache s' = cache s
  /\ adminEmail s' = adminEmail s.
Proof.
  unfold tokenStore_get. destruct (store s !! u) as [e|] eqn:E.
  - unfold bind, Date_now, MapStore.get. cbn [store tick]. rewrite E.
    destruct (MapStore.expiresAt e <? _).
    + intros [= <- <-]. discriminate.
    + intros [= <- <-] _. cbn. auto.
  - intros [= <- <-]. discriminate.
Qed.

Lemma admin_token_truthy s v s' :
  UserStore.admin_token s = (Normal v, s') -> truthy v = true ->
  store s' = store s /\ cache s' = cache s
  /\ adminEmail s' = adminEmail s.
Proof.
  unfold UserStore.admin_token.
  destruct (adminEmail s) as [[|c a]|] eqn:Ea;
    [intros [= <- <-]; discriminate
    | rewrite <- Ea; apply tokenStore_get_truthy
    | intros [= <- <-]; discriminate].
Qed.

Lemma sheetFetch_ok r s d s' :
  UserStore.sheetFetch r s = (Normal d, s') ->
  store s' = store s /\ cache s' = cache s
  /\ adminEmail s' = adminEmail s.
Proof.
  unfold UserStore.sheetFetch, bind.
  destruct (UserStore.admin_token s) as [[v|e] s1] eqn:E; [|discriminate].
  destruct (truthy v) eqn:Ht; cbn [negb]; [|discriminate].
  apply admin_token_truthy in E as (E1 & E2 & E3); [|exact Ht].
  destruct (sheets_api _ _ _) as [|st j]; [discriminate|].
  destruct (ok _); [|discriminate].
  intros [= -> <-]. cbn. auto.
Qed.

Lemma ensureTab_ok s s' :
  UserStore.ensureTab s = (Normal tt, s') ->
  store s' = store s /\ adminEmail s' = adminEmail s.
Proof.
  unfold UserStore.ensureTab, bind.
  destruct (UserStore.sheetFetch GetSheetProperties s) as [[m|e] s1] eqn:E1;
    [|discriminate].
  apply sheetFetch_ok in E1 as (A1 & _ & B1).
  destruct m as [meta|]; [|discriminate].
  destruct (existsb _ _); [intros [= <-]; auto|].
  destruct (UserStore.sheetFetch AddUsersSheet s1) as [[m2|e2] s2] eqn:E2;
    [|discriminate].
  apply sheetFetch_ok in E2 as (A2 & _ & B2).
  destruct (UserStore.sheetFetch PutUsersHeaders s2) as [[m3|e3] s3] eqn:E3;
    [|discriminate].
  apply sheetFetch_ok in E3 as (A3 & _ & B3).
  intros [= <-]. split; congruence.
Qed.

Lemma refreshCache_ok s rows s' :
  UserStore.refreshCache s = (Normal rows, s') ->
  store s' = store s /\ adminEmail s' = adminEmail s
  /\ cache s' = Some (UserStore.roster_map rows).
Proof.
  unfold UserStore.refreshCache, bind.
  destruct (UserStore.ensureTab s) as [[[]|e] s1] eqn:E1; [|discriminate].
  apply ensureTab_ok in E1 as (A1 & B1).
  unfold UserStore.readAllRows, bind.
  destruct (UserStore.sheetFetch GetUsersValues s1) as [[d|e] s2] eqn:E2;
    [|discriminate].
  apply sheetFetch_ok in E2 as (A2 & _ & B2).
  unfold ret, Date_now. intros [= <- <-]. cbn.
  repeat split; congruence.
Qed.

Lemma lookupUser_found env e s u s' :
  UserStore.lookupUser env e s = (Normal (Some u), s') ->
  store s' = store s
  /\ (((trim (toLowerCase e) ∈ bootstrap_admins env)
       /\ u_role u = js "admin" /\ s' = s)
      \/ ((trim (toLowerCase e) ∉ bootstrap_admins env)
          /\ adminEmail s' = adminEmail s
          /\ exists c, cache s' = Some c
                       /\ c !! trim (toLowerCase e) = Some u)).
Proof.
  unfold UserStore.lookupUser, includes.
  destruct (decide (trim (toLowerCase e) ∈ bootstrap_admins env)) as [Hin|Hin].
  - rewrite bool_decide_eq_true_2 by exact Hin.
    intros [= <- <-]. split; [reflexivity|]. left. auto.
  - rewrite bool_decide_eq_false_2 by exact Hin.
    unfold bind at 1.
    destruct (UserStore.admin_token s) as [[v|err] s1] eqn:E1;
      [|discriminate].
    destruct (truthy v) eqn:Ht; cbn [negb]; [|discriminate].
    apply admin_token_truthy in E1 as (A1 & C1 & B1); [|exact Ht].
    unfold bind at 1.
    destruct (cache_is_stale_spec s1) as (b & s2 & E2 & C2).
    assert (A2 : store s2 = store s1 /\ adminEmail s2 = adminEmail s1).
    { revert E2. unfold UserStore.cache_is_stale.
      destruct (cache s1); [|now intros [= <- <-]].
      unfold bind, Date_now, ret. now intros [= <- <-]. }
    destruct A2 as [A2 B2]. rewrite E2.
    unfold bind at 1. destruct b; cbn [when].
    + unfold bind at 1.
      destruct (UserStore.refreshCache s2) as [[rows|err] s3] eqn:E3;
        [|discriminate].
      apply refreshCache_ok in E3 as (A3 & B3 & C3).
      unfold ret. intros [= Hl <-]. split; [congruence|]. right.
      split; [exact Hin|]. split; [congruence|].
      rewrite C3 in *. eauto.
    + unfold ret. intros [= Hl <-]. split; [congruence|]. right.
      split; [exact Hin|]. split; [congruence|].
      destruct (cache s2) as [c|]; [eauto | discriminate].
Qed.

(** X14.  In the revision with the roster, whenever verify answers with
    a session, the identity endpoint accepted the presented token; the
    credential returned is the signature [jwt.sign] gave for the claims
    returned beside it; their subject is the normalized, non-empty email
    of the profile and is either a bootstrap admin (role "admin") or
    listed in the roster cache as the request leaves it, with the role
    listed there; a credential with role "admin" makes its subject the
    active admin; the store holds the presented token for the subject.
    Whenever [requireAuth] later accepts that credential, the claims the
    routes see have that subject and that role, and [requireAdmin] lets
    them pass exactly when the subject is a bootstrap admin or the roster
    cache lists it as "admin". *)
Theorem roster_session_is_sound env tok s r s' :
  UnicodeLaws -> JwtLaws ->
  RosterRoutes.verify env tok s = (Normal r, s') ->
  is_session r = true ->
  exists token payload st p,
    r = json (SessionBody token payload
                (env_or (JWT_EXPIRES_IN env) (js "8h")))
    /\ jwt_sign (Nat.pred (ticks s')) payload (JWT_SECRET env)
         (env_or (JWT_EXPIRES_IN env) (js "8h")) = Normal token
    /\ truthy tok = true /\ is_string tok = true
    /\ google_userinfo (ticks s) tok = Http st (Normal p)
    /\ 200 <= st <= 299
    /\ normalized_email p = Normal (userId payload)
    /\ userId payload <> []
    /\ email payload = userId payload
    /\ (((userId payload ∈ bootstrap_admins env)
         /\ role payload = js "admin")
        \/ ((userId payload ∉ bootstrap_admins env)
            /\ exists c u, cache s' = Some c
                           /\ c !! userId payload = Some u
                           /\ role payload = u_role u))
    /\ (role payload = js "admin" ->
        adminEmail s' = Some (userId payload))
    /\ store s' !! userId payload
       = Some {| MapStore.googleToken := tok;
                 MapStore.expiresAt :=
                   clock (S (ticks s)) + MapStore.GOOGLE_TOKEN_TTL_MS |}
    /\ (forall authHeader s2 q s3,
        drop 7 authHeader = token ->
        requireAuth env (Some authHeader) s2 = (Normal (inr q), s3) ->
        userId q = userId payload /\ role q = role payload
        /\ (requireAdmin (Some q) = Next
            <-> (userId payload ∈ bootstrap_admins env)
                \/ exists c u, cache s' = Some c
                               /\ c !! userId payload = Some u
                               /\ u_role u = js "admin")).
Proof.
  intros L J. unfold RosterRoutes.verify.
  destruct (truthy tok) eqn:Ht; cbn [negb orb];
    [|intros [= <- <-]; discriminate].
  destruct (is_string tok) eqn:Hs; cbn [negb];
    [|intros [= <- <-]; discriminate].
  unfold try_catch, bind, fetch_userinfo.
  destruct (google_userinfo (ticks s) tok) as [|st j] eqn:Hg;
    [intros [= <- <-]; discriminate|].
  destruct (ok _) eqn:Hok; cbn [negb]; [|intros [= <- <-]; discriminate].
  apply ok_range in Hok. cbn [res_status] in Hok.
  cbn [res_json lift].
  destruct j as [p|err]; [|intros [= <- <-]; discriminate].
  destruct (normalized_email p) as [e|err] eqn:He;
    [|intros [= <- <-]; discriminate].
  pose proof (normalized_email_idem p e L He) as Hn.
  destruct (nonempty e) eqn:Hne; cbn [negb];
    [|intros [= <- <-]; discriminate].
  rewrite tokenStore_set_run.
  set (s1 := with_store _ _).
  assert (St1 : store s1 !! e
                = Some {| MapStore.googleToken := tok;
                          MapStore.expiresAt :=
                            clock (S (ticks s))
                            + MapStore.GOOGLE_TOKEN_TTL_MS |}).
  { subst s1. cbn. unfold MapStore.set. apply lookup_insert_eq. }
  set (s2 := snd (when (includes (RosterRoutes.BOOTSTRAP_ADMINS env) e)
                    (UserStore.setAdminEmail e) s1)).
  assert (W : when (includes (RosterRoutes.BOOTSTRAP_ADMINS env) e)
                (UserStore.setAdminEmail e) s1 = (Normal tt, s2)).
  { subst s2. now destruct (includes _ e). }
  assert (St2 : store s2 = store s1).
  { subst s2. now destruct (includes _ e). }
  rewrite W.
  destruct (UserStore.lookupUser env e s2) as [[found|err] s3] eqn:Hl.
  - destruct found as [u|];
      [|unfold tokenStore_delete, ret; intros [= <- <-]; discriminate].
    apply lookupUser_found in Hl as (A3 & Hcase). rewrite Hn in Hcase.
    set (s4 := snd (when (bool_decide (u_role u = js "admin"))
                      (UserStore.setAdminEmail e) s3)).
    assert (W4 : when (bool_decide (u_role u = js "admin"))
                   (UserStore.setAdminEmail e) s3 = (Normal tt, s4)).
    { subst s4. now destruct (bool_decide _). }
    rewrite W4.
    match goal with
    | |- context [Routes.issue env ?pl ?s0] =>
        destruct (Routes.issue env pl s0) as [[r0|err] s0'] eqn:Hi
    end; [|intros [= <- <-]; discriminate].
    intros [= <- <-] _.
    apply issue_signed in Hi as (token & Hsig & -> & ->).
    do 4 eexists. split; [reflexivity|]. split; [exact Hsig|].
    cbn [userId email role].
    repeat (split; [first [eassumption | reflexivity
                          | now apply nonempty_true]|]).
    assert (S4 : store s4 = store s3 /\ cache s4 = cache s3
                 /\ (u_role u = js "admin" -> adminEmail s4 = Some e)).
    { subst s4. destruct (bool_decide_reflect (u_role u = js "admin"));
        cbn; auto. intuition congruence. }
    destruct S4 as (S4a & S4b & S4c).
    assert (Listed :
              ((e ∈ bootstrap_admins env) /\ u_role u = js "admin")
              \/ ((e ∉ bootstrap_admins env)
                  /\ exists c u0, cache (tick [] s4) = Some c
                                  /\ c !! e = Some u0
                                  /\ u_role u = u_role u0)).
    { destruct Hcase as [(Hin & Hr & _) | (Hout & _ & c & Hc & Hu)];
        [left; auto|].
      right. split; [exact Hout|]. exists c, u. cbn. rewrite S4b. auto. }
    split; [exact Listed|]. split; [|split].
    + intros Hr. cbn. auto.
    + cbn. congruence.
    + intros authHeader s5 q s6 Hd Hq.
      destruct (credential_claims env _ _ _ _ _ _ _ J Hsig Hd Hq)
        as (Hu & _ & Hr).
      cbn [userId role] in Hu, Hr.
      split; [exact Hu|]. split; [exact Hr|].
      unfold requireAdmin. rewrite Hr.
      destruct (bool_decide_reflect (u_role u = js "admin")) as [Ha|Ha].
      * split; [|reflexivity]. intros _.
        destruct Listed as [[Hin _] | (Hout & c & u0 & Hc & Hu0 & Hru)];
          [left; exact Hin|].
        right. exists c, u0. repeat split; congruence.
      * split; [discriminate|].
        intros [Hin | (c & u0 & Hc & Hu0 & Hru)];
          destruct Listed as [[Hin' Hr'] | (Hout & c' & u' & Hc' & Hu' & Hru')];
          try contradiction; congruence.
  - unfold ret.
    destruct (includes (RosterRoutes.BOOTSTRAP_ADMINS env) e) eqn:Hb.
    + exfalso. revert Hl. unfold UserStore.lookupUser. rewrite Hn.
      unfold RosterRoutes.BOOTSTRAP_ADMINS in Hb. rewrite Hb. discriminate.
    + unfold tokenStore_delete, ret. intros [= <- <-]. discriminate.
Qed.
End RosterSoundness.

(** ** Every handler answers *)

Section Answers.
Context `{Unicode} `{World}.

(** The run ends with an error answer. *)
Ltac refuse :=
  do 2 eexists; split; [reflexivity|]; cbn;
  split; [auto 10 | split; discriminate].

(** The run ends with a session. *)
Ltac accept :=
  do 2 eexists; split; [reflexivity|]; cbn;
  split; [auto 10 | split; reflexivity].

(** The run ends with an answer whose status the list has. *)
Ltac answer := do 2 eexists; split; [reflexivity|]; cbn; auto 10.

(** X22.  On a request whose body has been parsed, no exception escapes
    a handler: for every value of the body's [googleAccessToken], verify
    and refresh of both revisions and logout always answer, whatever the
    identity endpoint, the sheet, the signer and the state do; the status
    is one of those listed, and verify answers 200 exactly when it
    returns a session. *)
Theorem handlers_always_answer env authorization tok s :
  (exists r s',
      Routes.verify env tok s = (Normal r, s')
      /\ In (status r) [200; 400; 401; 500]
      /\ (status r = 200 <-> is_session r = true))
  /\ (exists r s',
      RosterRoutes.verify env tok s = (Normal r, s')
      /\ In (status r) [200; 400; 401; 403; 500]
      /\ (status r = 200 <-> is_session r = true))
  /\ (exists r s',
      Routes.refresh_google env authorization tok s = (Normal r, s')
      /\ In (status r) [200; 400; 401; 403; 500])
  /\ (exists r s',
      RosterRoutes.refresh_google env authorization tok s = (Normal r, s')
      /\ In (status r) [200; 400; 401; 403; 500])
  /\ (exists r s',
      SessionRoutes.logout env authorization s = (Normal r, s')
      /\ In (status r) [200; 401]).
Proof.
  assert (Auth : exists a s1,
             requireAuth env authorization s = (Normal a, s1)
             /\ match a with
                | inl rejected => status rejected = 401
                | inr _ => True
                end).
  { unfold requireAuth. destruct authorization as [h|]; [|answer].
    destruct (bool_decide _); [|answer].
    destruct (jwt_verify _ _ _); answer. }
  destruct Auth as (a & s1 & Ea & Ha).
  split; [|split; [|split; [|split]]].
  - unfold Routes.verify.
    destruct (negb (truthy tok) || negb (is_string tok)); [refuse|].
    unfold try_catch, bind, fetch_userinfo.
    destruct (google_userinfo (ticks s) tok) as [|st j]; [refuse|].
    destruct (ok _); cbn [negb]; [|refuse]. cbn [res_json lift].
    destruct j as [p|err]; [|refuse].
    destruct (normalized_email p) as [e|err]; [|refuse].
    destruct (nonempty e); cbn [negb]; [|refuse].
    rewrite tokenStore_set_run.
    match goal with
    | |- context [Routes.issue env ?pl ?s0] =>
        destruct (Routes.issue env pl s0) as [[r0|err] s0'] eqn:Hi
    end; [|refuse].
    apply issue_inv in Hi as (token & -> & ->). accept.
  - unfold RosterRoutes.verify.
    destruct (negb (truthy tok) || negb (is_string tok)); [refuse|].
    unfold try_catch, bind, fetch_userinfo.
    destruct (google_userinfo (ticks s) tok) as [|st j]; [refuse|].
    destruct (ok _); cbn [negb]; [|refuse]. cbn [res_json lift].
    destruct j as [p|err]; [|refuse].
    destruct (normalized_email p) as [e|err]; [|refuse].
    destruct (nonempty e); cbn [negb]; [|refuse].
    rewrite tokenStore_set_run.
    destruct (when _ _ _) as [[[]|err2] s2]; [|refuse].
    assert (Issue : forall payload s0,
               exists r s',
                 match Routes.issue env payload s0 with
                 | (Normal a0, s'0) => (Normal a0, s'0)
                 | (Throw _, s'0) =>
                     ret (status_json 500 AuthenticationFailed) s'0
                 end = (Normal r, s')
                 /\ In (status r) [200; 400; 401; 403; 500]
                 /\ (status r = 200 <-> is_session r = true)).
    { intros payload s0.
      destruct (Routes.issue env payload s0) as [[r0|err] s0'] eqn:Hi;
        [|refuse].
      apply issue_inv in Hi as (token & -> & ->). accept. }
    destruct (UserStore.lookupUser env e s2) as [[[u|]|err3] s3].
    + destruct (when _ _ s3) as [[[]|err4] s4]; [apply Issue | refuse].
    + unfold tokenStore_delete. refuse.
    + unfold ret.
      destruct (includes _ e); [|unfold tokenStore_delete; refuse].
      destruct (when _ _ s3) as [[[]|err4] s4]; [apply Issue | refuse].
  - unfold Routes.refresh_google, authenticated, bind. rewrite Ea.
    destruct a as [rejected|user]; [unfold ret; answer|].
    unfold Routes.refresh_google_handler.
    destruct (negb (truthy tok)); [answer|].
    unfold try_catch, bind, fetch_userinfo.
    destruct (google_userinfo (ticks s1) tok) as [|st j]; [answer|].
    destruct (ok _); cbn [negb]; [|answer]. cbn [res_json lift].
    destruct j as [p|err]; [|answer].
    destruct (normalized_email p) as [e|err]; [|answer].
    destruct (bool_decide _); cbn [negb]; [|answer].
    rewrite tokenStore_set_run. answer.
  - unfold RosterRoutes.refresh_google, authenticated, bind. rewrite Ea.
    destruct a as [rejected|user]; [unfold ret; answer|].
    unfold RosterRoutes.refresh_google_handler.
    destruct (negb (truthy tok)); [answer|].
    unfold try_catch, bind, fetch_userinfo.
    destruct (google_userinfo (ticks s1) tok) as [|st j]; [answer|].
    destruct (ok _); cbn [negb]; [|answer]. cbn [res_json lift].
    destruct j as [p|err]; [|answer].
    destruct (normalized_email p) as [e|err]; [|answer].
    destruct (bool_decide (e = userId user)); cbn [negb]; [|answer].
    rewrite tokenStore_set_run.
    destruct (when _ _ _) as [[[]|err2] s2]; answer.
  - unfold SessionRoutes.logout, authenticated, bind. rewrite Ea.
    destruct a as [rejected|user]; [unfold ret; answer|].
    unfold SessionRoutes.logout_handler, bind, tokenStore_delete. answer.
Qed.

End Answers.

(** ** What the roster code calls *)

Section RosterCalls.
Context `{Unicode} `{World}.












End RosterCalls.

(** ** The roster paths of sign-in *)

Section RosterPaths.
Context `{Unicode} `{World}.

Lemma admin_token_live s a en :
  adminEmail s = Some a -> a <> [] -> store s !! a = Some en ->
  clock (ticks s) <= MapStore.expiresAt en ->
  UserStore.admin_token s = (Normal (MapStore.googleToken en), tick [] s).
Proof.
  intros Ha Hne Hs Hc. unfold UserStore.admin_token. rewrite Ha.
  destruct a as [|ch a]; [congruence|].
  unfold tokenStore_get. rewrite Hs.
  unfold bind, Date_now, MapStore.get. cbn [store tick]. rewrite Hs.
  replace (MapStore.expiresAt en <? clock (ticks s)) with false by lia.
  reflexivity.
Qed.

Lemma sheetFetch_live r s a en st d :
  adminEmail s = Some a -> a <> [] -> store s !! a = Some en ->
  truthy (MapStore.googleToken en) = true ->
  clock (ticks s) <= MapStore.expiresAt en ->
  sheets_api (S (ticks s)) r (MapStore.googleToken en) = Http st (Normal d) ->
  200 <= st <= 299 ->
  UserStore.sheetFetch r s
  = (Normal d, tick [CallSheets r (MapStore.googleToken en)] (tick [] s)).
Proof.
  intros Ha Hne Hs Ht Hc Hapi Hst. unfold UserStore.sheetFetch, bind.
  rewrite (admin_token_live s a en Ha Hne Hs Hc). rewrite Ht. cbn [negb].
  cbn [ticks tick]. rewrite Hapi. now rewrite ok_status by assumption.
Qed.

Theorem lookupUser_cache_hit env e s a en c :
  trim (toLowerCase e) ∉ bootstrap_admins env ->
  adminEmail s = Some a -> a <> [] -> store s !! a = Some en ->
  truthy (MapStore.googleToken en) = true ->
  clock (ticks s) <= MapStore.expiresAt en ->
  cache s = Some c ->
  clock (S (ticks s)) - cacheTime s <= UserStore.TTL_MS ->
  UserStore.lookupUser env e s
  = (Normal (c !! trim (toLowerCase e)), tick [] (tick [] s)).
Proof.
  intros Hb Ha Hne Hs Ht Hc Hcache Hfresh. unfold UserStore.lookupUser.
  unfold includes. rewrite bool_decide_eq_false_2 by exact Hb.
  unfold bind at 1. rewrite (admin_token_live s a en Ha Hne Hs Hc).
  rewrite Ht. cbn [negb]. unfold bind at 1.
  unfold UserStore.cache_is_stale. cbn [cache tick]. rewrite Hcache.
  unfold bind, Date_now, ret. cbn [ticks tick cacheTime].
  replace (UserStore.TTL_MS <? clock (S (ticks s)) - cacheTime s)
    with false by lia.
  cbn [when]. unfold ret. cbn [cache tick]. now rewrite Hcache.
Qed.

(** X16.  With no roster cache, or one older than a minute, and a live
    admin token, [lookupUser] reads the sheet: when the tab exists and the
    values request succeeds, the answer is the row of the normalized
    email in the sheet just read, the cache is replaced by that roster,
    and exactly two Sheets calls are made, both with the admin's token.
    The token store and the admin pointer are unchanged. *)
Theorem lookupUser_reads_sheet env e s a en st1 meta st2 d :
  trim (toLowerCase e) ∉ bootstrap_admins env ->
  adminEmail s = Some a -> a <> [] -> store s !! a = Some en ->
  truthy (MapStore.googleToken en) = true ->
  (forall t, (ticks s <= t <= ticks s + 4)%nat ->
             clock t <= MapStore.expiresAt en) ->
  (cache s = None \/ UserStore.TTL_MS < clock (S (ticks s)) - cacheTime s) ->
  (forall t, sheets_api t GetSheetProperties (MapStore.googleToken en)
             = Http st1 (Normal (Some meta))) ->
  200 <= st1 <= 299 ->
  UserStore.USERS_TAB ∈ default [] (sheets meta) ->
  (forall t, sheets_api t GetUsersValues (MapStore.googleToken en)
             = Http st2 (Normal d)) ->
  200 <= st2 <= 299 ->
  exists s',
    UserStore.lookupUser env e s
    = (Normal (UserStore.roster_map (UserStore.rows_of d)
               !! trim (toLowerCase e)), s')
    /\ cache s' = Some (UserStore.roster_map (UserStore.rows_of d))
    /\ (exists t, cacheTime s' = clock t)
    /\ store s' = store s /\ adminEmail s' = adminEmail s
    /\ calls s'
       = calls s ++ [CallSheets GetSheetProperties (MapStore.googleToken en);
                     CallSheets GetUsersValues (MapStore.googleToken en)].
Proof.
  intros Hb Ha Hne Hs Ht Hc Hstale Hp Hst1 Htab Hv Hst2.
  unfold UserStore.lookupUser.
  unfold includes. rewrite bool_decide_eq_false_2 by exact Hb.
  unfold bind at 1.
  rewrite (admin_token_live s a en Ha Hne Hs (Hc (ticks s) ltac:(lia))).
  rewrite Ht. cbn [negb]. unfold bind at 1.
  assert (Stale : exists s2,
             UserStore.cache_is_stale (tick [] s) = (Normal true, s2)
             /\ store s2 = store s /\ adminEmail s2 = adminEmail s
             /\ calls s2 = calls s
             /\ (ticks s < ticks s2 <= ticks s + 2)%nat).
  { unfold UserStore.cache_is_stale. cbn [cache tick].
    destruct (cache s) as [c|] eqn:Ec.
    - destruct Hstale as [|Hstale]; [discriminate|].
      unfold bind, Date_now, ret. cbn [ticks tick cacheTime].
      replace (UserStore.TTL_MS <? clock (S (ticks s)) - cacheTime s)
        with true by lia.
      eexists. split; [reflexivity|]. cbn. rewrite !app_nil_r.
      repeat split; try reflexivity; lia.
    - eexists. split; [reflexivity|]. cbn. rewrite !app_nil_r.
      repeat split; try reflexivity; lia. }
  destruct Stale as (s2 & -> & S2 & A2 & C2 & T2).
  unfold bind at 1. cbn [when]. unfold bind at 1.
  unfold UserStore.refreshCache. unfold bind at 1.
  unfold UserStore.ensureTab. unfold bind at 1.
  rewrite (sheetFetch_live GetSheetProperties s2 a en st1 (Some meta));
    [|congruence|assumption|congruence|assumption|apply Hc; lia|apply Hp
     |assumption].
  assert (Hex : existsb (fun title => bool_decide (title = UserStore.USERS_TAB))
                  (default [] (sheets meta)) = true).
  { apply existsb_exists. exists UserStore.USERS_TAB.
    split; [now apply list_elem_of_In|]. now apply bool_decide_eq_true_2. }
  rewrite Hex. unfold ret at 1. unfold bind at 1.
  unfold UserStore.readAllRows. unfold bind at 1.
  set (g := MapStore.googleToken en) in *.
  set (s3 := tick [CallSheets GetSheetProperties g] (tick [] s2)).
  rewrite (sheetFetch_live GetUsersValues s3 a en st2 d);
    [|subst s3; cbn; congruence|assumption|subst s3; cbn; congruence
     |assumption|apply Hc; subst s3; cbn; lia|apply Hv|assumption].
  unfold ret at 1. unfold bind at 1. unfold Date_now, ret.
  eexists. split; [reflexivity|]. cbn.
  split; [reflexivity|]. split; [eauto|].
  split; [assumption|]. split; [assumption|].
  rewrite C2, !app_nil_r, <- app_assoc. reflexivity.
Qed.

(** X15.  A user on the cached roster signs in without any call to the
    sheet: with a live admin token and a roster cache no older than a
    minute, verify answers with the credential that [jwt.sign] gives for
    the claims of that user with the role the roster lists, stores the
    presented token, and the only outbound call is the one to the
    identity endpoint.  The active admin changes only if the roster role
    is "admin".  Whenever [requireAuth] later accepts the credential, the
    claims the routes see have that user as subject and the listed
    role. *)
Theorem roster_member_signs_in env tok st p e s a en c u token :
  UnicodeLaws -> JwtLaws ->
  truthy tok = true -> is_string tok = true ->
  google_userinfo (ticks s) tok = Http st (Normal p) ->
  200 <= st <= 299 ->
  normalized_email p = Normal e -> e <> [] ->
  e ∉ bootstrap_admins env ->
  adminEmail s = Some a -> a <> [] -> a <> e ->
  store s !! a = Some en ->
  truthy (MapStore.googleToken en) = true ->
  clock (S (S (ticks s))) <= MapStore.expiresAt en ->
  cache s = Some c ->
  clock (S (S (S (ticks s)))) - cacheTime s <= UserStore.TTL_MS ->
  c !! e = Some u ->
  jwt_sign (S (S (S (S (ticks s))))) (session_claims p e (u_role u))
    (JWT_SECRET env) (env_or (JWT_EXPIRES_IN env) (js "8h"))
  = Normal token ->
  exists s',
    RosterRoutes.verify env tok s
    = (Normal (json (SessionBody token (session_claims p e (u_role u))
                       (env_or (JWT_EXPIRES_IN env) (js "8h")))), s')
    /\ calls s' = calls s ++ [CallUserinfo tok]
    /\ store s' !! e
       = Some {| MapStore.googleToken := tok;
                 MapStore.expiresAt :=
                   clock (S (ticks s)) + MapStore.GOOGLE_TOKEN_TTL_MS |}
    /\ adminEmail s'
       = Some (if bool_decide (u_role u = js "admin") then e else a)
    /\ (forall authHeader s2 q s3,
        drop 7 authHeader = token ->
        requireAuth env (Some authHeader) s2 = (Normal (inr q), s3) ->
        userId q = e /\ role q = u_role u).
Proof.
  intros L J Ht Hs Hg Hst He Hne Hb Ha Hane Hae Hsa Hta Hc Hcache Hfresh Hu
    Hsign.
  pose proof (normalized_email_idem p e L He) as Hn.
  assert (Hne' : nonempty e = true) by now destruct e.
  assert (Hcred : forall authHeader s2 q s3,
             drop 7 authHeader = token ->
             requireAuth env (Some authHeader) s2 = (Normal (inr q), s3) ->
             userId q = e /\ role q = u_role u).
  { intros authHeader s2 q s3 Hd Hq.
    destruct (credential_claims env _ _ _ _ _ _ _ J Hsign Hd Hq)
      as (Hqu & _ & Hqr). auto. }
  unfold RosterRoutes.verify. rewrite Ht, Hs. cbn [negb orb].
  unfold try_catch, bind.
  rewrite (fetch_userinfo_run tok s st (Normal p) Hg).
  rewrite ok_status by assumption. cbn [negb res_json lift].
  rewrite He, Hne'. cbn [negb].
  rewrite tokenStore_set_run.
  unfold RosterRoutes.BOOTSTRAP_ADMINS, includes.
  rewrite bool_decide_eq_false_2 by exact Hb. cbn [when]. unfold ret at 1.
  set (s1 := with_store _ _).
  rewrite (lookupUser_cache_hit env e s1 a en c);
    [|rewrite Hn; exact Hb|exact Ha|exact Hane
     |subst s1; cbn; unfold MapStore.set;
      rewrite lookup_insert_ne by congruence; exact Hsa
     |exact Hta|exact Hc|exact Hcache|exact Hfresh].
  rewrite Hn, Hu.
  set (s2 := tick [] (tick [] s1)).
  assert (Hsg : jwt_sign (ticks s2) (session_claims p e (u_role u))
                  (JWT_SECRET env)
                  (env_or (JWT_EXPIRES_IN env) (js "8h")) = Normal token)
    by exact Hsign.
  destruct (bool_decide (u_role u = js "admin")) eqn:Hr; cbn [when].
  - unfold UserStore.setAdminEmail.
    unfold session_claims in *.
    rewrite (issue_run env _ (with_adminEmail (Some e) s2) token)
      by exact Hsg.
    eexists. split; [reflexivity|]. cbn.
    rewrite !app_nil_r. unfold MapStore.set.
    rewrite lookup_insert_eq. auto.
  - unfold ret.
    unfold session_claims in *.
    rewrite (issue_run env _ s2 token) by exact Hsg.
    eexists. split; [reflexivity|]. cbn.
    rewrite !app_nil_r. unfold MapStore.set.
    rewrite lookup_insert_eq. auto.
Qed.

(** X21.  A successful refresh in the revision with the roster leaves
    the admin pointer alone for a credential whose role is not "admin";
    for an admin it makes the subject the active admin, and until the new
    token's 55 minutes are over [isReady] is true and the next Sheets
    call is made with the new token. *)
Theorem admin_refresh_renews_roster_access env authHeader session tok st p
    s :
  take 7 authHeader = js "Bearer " ->
  jwt_verify (ticks s) (drop 7 authHeader) (JWT_SECRET env)
  = Verified session ->
  truthy tok = true ->
  google_userinfo (S (ticks s)) tok = Http st (Normal p) ->
  200 <= st <= 299 ->
  normalized_email p = Normal (userId session) ->
  userId session <> [] ->
  exists s',
    RosterRoutes.refresh_google env (Some authHeader) tok s
    = (Normal (json SuccessBody), s')
    /\ (role session <> js "admin" -> adminEmail s' = adminEmail s)
    /\ (role session = js "admin" ->
        adminEmail s' = Some (userId session)
        /\ (clock (ticks s')
            <= clock (S (S (ticks s))) + MapStore.GOOGLE_TOKEN_TTL_MS ->
            UserStore.isReady s' = (Normal true, tick [] s')
            /\ forall r st' d,
                sheets_api (S (ticks s')) r tok = Http st' (Normal d) ->
                200 <= st' <= 299 ->
                UserStore.sheetFetch r s'
                = (Normal d, tick [CallSheets r tok] (tick [] s')))).
Proof.
  intros Hp Hv Ht Hg Hst He Hne.
  unfold RosterRoutes.refresh_google, authenticated.
  unfold bind. rewrite (requireAuth_run _ _ _ _ Hp Hv).
  unfold RosterRoutes.refresh_google_handler.
  rewrite Ht. cbn [negb].
  unfold try_catch, bind.
  rewrite (fetch_userinfo_run tok (tick [] s) st (Normal p)) by exact Hg.
  rewrite ok_status by assumption. cbn [negb res_json lift].
  rewrite He. rewrite bool_decide_eq_true_2 by reflexivity. cbn [negb].
  rewrite tokenStore_set_run.
  set (s1 := with_store _ _).
  destruct (bool_decide_reflect (role session = js "admin")) as [Hr|Hr];
    cbn [when].
  - unfold UserStore.setAdminEmail, ret.
    set (s2 := with_adminEmail (Some (userId session)) s1).
    exists s2. split; [reflexivity|]. split; [congruence|].
    intros _. split; [reflexivity|]. intros Hlive.
    set (en := {| MapStore.googleToken := tok;
                  MapStore.expiresAt :=
                    clock (S (S (ticks s))) + MapStore.GOOGLE_TOKEN_TTL_MS |}).
    assert (Hs : store s2 !! userId session = Some en).
    { subst s2 s1. cbn. unfold MapStore.set. apply lookup_insert_eq. }
    split.
    + unfold UserStore.isReady, bind.
      rewrite (admin_token_live s2 (userId session) en eq_refl Hne Hs Hlive).
      unfold ret. cbn [MapStore.googleToken en]. now rewrite Ht.
    + intros r st' d Hapi Hst'.
      exact (sheetFetch_live r s2 (userId session) en st' d eq_refl Hne Hs
               Ht Hlive Hapi Hst').
  - unfold ret. exists s1. split; [reflexivity|].
    split; [reflexivity | congruence].
Qed.

End RosterPaths.

(** ** The roster of a sheet *)

Section RosterMap.
Context `{Unicode}.

Lemma foldl_roster_lookup (rows : list roster_user)
    (m : gmap jsstring roster_user) (k : jsstring) :
  foldl (fun m u => <[u_email u := u]> m) m rows !! k
  = match last (filter (fun u => u_email u = k) rows) with
    | Some u => Some u
    | None => m !! k
    end.
Proof.
  revert m. induction rows as [|u rows IH]; intros m; [reflexivity|].
  cbn [foldl]. rewrite IH. rewrite filter_cons.
  destruct (decide (u_email u = k)) as [E|E].
  - rewrite last_cons. destruct (last _); [reflexivity|].
    rewrite <- E. apply lookup_insert_eq.
  - destruct (last _); [reflexivity|]. now apply lookup_insert_ne.
Qed.

(** X18.  The roster built from a sheet maps a non-empty key to the last
    data row whose first cell, lower-cased and trimmed, is that key; the
    header row is never a user and a user's row number is its 1-based row
    in the sheet. *)
Theorem roster_of_sheet (sh : option (list jsstring))
    (header : list jsstring) (rows : list (list jsstring)) (k : jsstring) :
  k <> [] ->
  let roster :=
    UserStore.roster_map
      (UserStore.rows_of (Some {| sheets := sh;
                                  values := Some (header :: rows) |})) in
  roster !! k
  = last (filter (fun u => u_email u = k) (imap UserStore.row_user rows))
  /\ (forall u, roster !! k = Some u ->
      exists (i : nat) (row : list jsstring),
        rows !! i = Some row /\ u = UserStore.row_user i row
        /\ u_email u = k
        /\ u_row u = Some (Z.of_nat i + 2, UserStore.cell_or row 2 [],
                           UserStore.cell_or row 3 []))
  /\ roster !! ([] : jsstring) = None.
Proof.
  intros Hk roster.
  assert (L : roster !! k
              = last (filter (fun u => u_email u = k)
                        (imap UserStore.row_user rows))).
  { subst roster. unfold UserStore.roster_map.
    rewrite foldl_roster_lookup, lookup_empty.
    assert (E : filter (fun u => u_email u = k)
                  (UserStore.rows_of
                     (Some {| sheets := sh;
                              values := Some (header :: rows) |}))
                = filter (fun u => u_email u = k)
                    (imap UserStore.row_user rows)).
    { unfold UserStore.rows_of.
      destruct rows as [|first more]; [reflexivity|].
      rewrite list_filter_filter. apply list_filter_iff.
      intros u. split; [tauto|]. intros E. split; [exact E|].
      rewrite E. now destruct k. }
    rewrite E. now destruct (last _). }
  split; [exact L|]. split.
  - intros u Hu. rewrite L in Hu. apply last_Some_elem_of in Hu.
    apply list_elem_of_filter in Hu as [He Hin].
    apply elem_of_lookup_imap_1 in Hin as (i & row & -> & Hrow).
    exists i, row. auto.
  - subst roster. apply roster_map_absent. intros u Hu.
    unfold UserStore.rows_of in Hu.
    destruct rows as [|first more]; [now apply not_elem_of_nil in Hu|].
    apply list_elem_of_filter in Hu as [Hne _].
    now destruct (u_email u).
Qed.

End RosterMap.

(** ** The service account token *)

Section ServiceToken.
Import ServiceAccount.
Context `{Google}.

Lemma fetchNewToken_posts key s r s' :
  fetchNewToken key s = (r, s') ->
  cachedToken s' = cachedToken s /\ tokenExpiresAt s' = tokenExpiresAt s
  /\ (posted s' = posted s
      \/ exists assertion,
          signedJwt (fst key) (snd key) (seconds s) = Normal assertion
          /\ posted s' = posted s ++ [assertion]).
Proof.
  unfold fetchNewToken.
  destruct (signedJwt _ _ _) as [assertion|e] eqn:Es.
  - assert (Done : forall r0,
               (r0, tick [assertion] (tick [] s)) = (r, s') ->
               cachedToken s' = cachedToken s
               /\ tokenExpiresAt s' = tokenExpiresAt s
               /\ (posted s' = posted s
                   \/ exists a, Normal assertion = Normal a
                                /\ posted s' = posted s ++ [a])).
    { intros r0 [= <- <-]. cbn. rewrite app_nil_r. eauto 10. }
    destruct (token_endpoint _ _) as [|st j]; [apply Done|].
    destruct (ok _); [destruct j as [[d|]|e] | destruct j as [[d|]|e]];
      apply Done.
  - intros [= <- <-]. cbn. rewrite app_nil_r. auto.
Qed.

(** X20.  A call of [getServiceToken] posts at most one assertion to the
    token endpoint, and none while the cached token is valid; without a
    usable key it returns null and changes nothing; a call that throws
    leaves the cached token and its expiry as they were; a call that
    returns with a key configured leaves the returned token cached. *)
Theorem service_token_call_shape raw s r s' :
  getServiceToken raw s = (r, s') ->
  (posted s' = posted s \/ exists a, posted s' = posted s ++ [a])
  /\ (getKey raw = None -> r = Returned JSNull /\ s' = s)
  /\ (posted s' <> posted s ->
      truthy (cachedToken s) && before (seconds s) (tokenExpiresAt s)
      = false)
  /\ (forall e, r = Threw e ->
      cachedToken s' = cachedToken s
      /\ tokenExpiresAt s' = tokenExpiresAt s)
  /\ (forall v, r = Returned v -> getKey raw <> None ->
      cachedToken s' = v).
Proof.
  unfold getServiceToken. destruct (getKey raw) as [key|];
    [|intros [= <- <-]; repeat split; auto; congruence].
  cbn [cachedToken tokenExpiresAt tick].
  destruct (truthy (cachedToken s) && before (seconds s) (tokenExpiresAt s))
    eqn:Hhit.
  - intros [= <- <-]. cbn. rewrite app_nil_r.
    repeat split; auto; congruence.
  - destruct (fetchNewToken key (tick [] s)) as [[[tok x]|e0] s2] eqn:Ef;
      apply fetchNewToken_posts in Ef as (A & B & P); cbn in A, B, P;
      rewrite app_nil_r in P; intros [= <- <-]; cbn [posted cachedToken
        tokenExpiresAt].
    + split; [destruct P as [P | (a & _ & P)]; eauto|].
      split; [discriminate|]. split; [reflexivity|].
      split; [discriminate|]. now intros v [= <-].
    + split; [destruct P as [P | (a & _ & P)]; eauto|].
      split; [discriminate|]. split; [reflexivity|].
      split; [auto | discriminate].
Qed.

(** X19.  After [getServiceToken] has fetched a token that the endpoint
    grants for [n] seconds, later calls return that token without
    contacting the endpoint as long as the clock, in whole seconds, is
    before the moment of the fetch plus [n] - 300; from that moment on a
    call contacts the endpoint again or throws. *)
Theorem service_token_is_reused raw key s assertion st tok n :
  getKey raw = Some key ->
  truthy (cachedToken s) && before (seconds s) (tokenExpiresAt s) = false ->
  signedJwt (fst key) (snd key) (seconds (tick [] s)) = Normal assertion ->
  token_endpoint (S (S (ticks s))) assertion
  = Http st (Normal (Some {| access_token := tok; expires_in := Some n |})) ->
  200 <= st <= 299 ->
  truthy tok = true ->
  exists s1,
    getServiceToken raw s = (Returned tok, s1)
    /\ posted s1 = posted s ++ [assertion]
    /\ forall s2,
        cachedToken s2 = cachedToken s1 ->
        tokenExpiresAt s2 = tokenExpiresAt s1 ->
        (seconds s2 < seconds (tick [] s) + n - 300
         -> getServiceToken raw s2 = (Returned tok, tick [] s2))
        /\ (seconds (tick [] s) + n - 300 <= seconds s2
            -> exists r s3,
                getServiceToken raw s2 = (r, s3)
                /\ (posted s3 <> posted s2 \/ exists e, r = Threw e)).
Proof.
  intros Hk Hmiss Hsign Hpost Hst Ht.
  unfold getServiceToken at 1. rewrite Hk.
  cbn [cachedToken tokenExpiresAt tick]. rewrite Hmiss.
  unfold fetchNewToken. rewrite Hsign. cbn [ticks tick]. rewrite Hpost.
  rewrite ok_status by assumption. cbn [access_token expires_in early_expiry].
  eexists. split; [reflexivity|]. cbn [posted tick].
  split; [now rewrite !app_nil_r|].
  intros s2 Hc Hx. cbn [cachedToken tokenExpiresAt] in Hc, Hx.
  unfold getServiceToken. rewrite Hk.
  cbn [cachedToken tokenExpiresAt tick]. rewrite Hc, Hx, Ht.
  cbn [andb before]. split.
  - intros Hlt.
    replace (seconds s2 <? seconds (tick [] s) + n - 300) with true by lia.
    reflexivity.
  - intros Hge.
    replace (seconds s2 <? seconds (tick [] s) + n - 300) with false by lia.
    destruct (fetchNewToken key (tick [] s2)) as [[[tok' x]|e0] s3] eqn:Ef;
      [|do 2 eexists; split; [reflexivity | right; eauto]].
    do 2 eexists. split; [reflexivity|]. left. cbn [posted].
    clear Hsign Hpost Hmiss. revert Ef. unfold fetchNewToken.
    destruct (signedJwt _ _ _) as [a|e]; [|discriminate].
    destruct (token_endpoint _ _) as [|st' j]; [discriminate|].
    assert (Grow : posted (tick [a] (tick [] (tick [] s2))) <> posted s2).
    { cbn. rewrite !app_nil_r. intros E.
      apply (f_equal length) in E. rewrite length_app in E. cbn in E. lia. }
    destruct (ok _); destruct j as [[d|]|e]; try discriminate.
    intros [= <- <- <-]. exact Grow.
Qed.

End ServiceToken.

(** ** More runs of the model *)

Lemma toy_member_not_bootstrap :
  js "member@x.com" ∉ @bootstrap_admins Toy.unicode Toy.env.
Proof.
  intros Hin. apply (bool_decide_eq_true_2 _) in Hin.
  vm_compute in Hin. discriminate.
Qed.

(** X6, witness: one user's expired token is dropped by a read at time
    4000000; the other user is asked about later. *)
Lemma users_are_isolated_witness :
  let st : MapStore.table :=
    MapStore.set 0 (js "a") JSNull
      (MapStore.set 900000 (js "b") (JSString (js "tb")) ∅) in
  let st' := snd (MapStore.get 4000000 (js "a") st) in
  st' !! js "a" = None
  /\ st' !! js "b" = st !! js "b"
  /\ fst (MapStore.get 4100000 (js "b") st')
     = fst (MapStore.get 4100000 (js "b") st)
  /\ fst (MapStore.has 4100000 (js "b") st')
     = fst (MapStore.has 4100000 (js "b") st)
  /\ MapStore.isExpiringSoon 4100000 (js "b") st'
     = MapStore.isExpiringSoon 4100000 (js "b") st.
Proof.
  intros st st'. split; [vm_compute; reflexivity|].
  apply (users_are_isolated 4000000 4100000 (js "a") (js "b") JSNull st);
    [discriminate | right; right; left; reflexivity].
Defined.

(** X8, witness: the member's request carries the sealed token. *)
Lemma get_from_sealed_blob_witness :
  let blob :=
    b64url_encode
      (@nonce_of (Toy.dice 3)
       ++ @tag_of Toy.crypto Toy.env (Toy.dice 3) (js "ya29.a0Af_token")
       ++ @ciphertext_of Toy.crypto Toy.env (Toy.dice 3)
            (js "ya29.a0Af_token")) in
  @JwtStore.get Toy.crypto Toy.env 5000 (js "member@x.com")
    (Some {| user := Some (Demo.member_with blob) |}) ∅
  = (Normal (JSString (js "ya29.a0Af_token")),
     <[js "member@x.com" :=
         {| JwtStore.googleToken := JSString (js "ya29.a0Af_token");
            JwtStore.expiresAt := 5000 + 3300000 |}]> ∅).
Proof.
  intros blob.
  apply (@get_from_sealed_blob Toy.crypto Toy.env (Toy.dice 3)
           (js "ya29.a0Af_token") blob (Demo.member_with blob) 5000
           (js "member@x.com") ∅ toy_crypto_laws);
    [reflexivity | discriminate | | reflexivity].
  unfold JwtStore.encrypt.
  rewrite encryptToken_unfold by (apply getKey_length, toy_crypto_laws).
  reflexivity.
Defined.

(** X9, witness: the same blob with its tag overwritten by sixteen 01
    bytes; the warm-instance cache is empty. *)
Lemma tampered_blob_falls_back_witness :
  let blob :=
    b64url_encode
      (@nonce_of (Toy.dice 3) ++ replicate 16 x01
       ++ @ciphertext_of Toy.crypto Toy.env (Toy.dice 3)
            (js "ya29.a0Af_token")) in
  @JwtStore.get Toy.crypto Toy.env 5000 (js "member@x.com")
    (Some {| user := Some (Demo.member_with blob) |}) ∅
  = @JwtStore.get Toy.crypto Toy.env 5000 (js "member@x.com") None ∅.
Proof.
  intros blob.
  apply (@tampered_blob_falls_back Toy.crypto Toy.env (Toy.dice 3)
           (js "ya29.a0Af_token") (replicate 16 x01)
           (Demo.member_with blob) 5000 (js "member@x.com") ∅
           toy_crypto_laws);
    [reflexivity | vm_compute; discriminate | reflexivity].
Defined.

(** X10, witness: a forged bearer token. *)
Lemma refused_requests_change_nothing_witness :
  let forged := Some (js "Bearer forged") in
  (exists r s', @SessionRoutes.logout Toy.world Toy.env forged
                  Toy.warm = (Normal r, s')
                /\ status r = 401 /\ same_data Toy.warm s')
  /\ (exists r s', @SessionRoutes.me Toy.world Toy.env forged
                     Toy.warm = (Normal (inl r), s')
                   /\ status r = 401 /\ same_data Toy.warm s')
  /\ (exists r s', @Routes.refresh_google Toy.unicode Toy.world Toy.env
                     forged (JSString (js "validTokenForBoss")) Toy.warm
                   = (Normal r, s')
                   /\ status r = 401 /\ same_data Toy.warm s')
  /\ (exists r s', @RosterRoutes.refresh_google Toy.unicode Toy.world
                     Toy.env forged (JSString (js "validTokenForBoss"))
                     Toy.warm
                   = (Normal r, s')
                   /\ status r = 401 /\ same_data Toy.warm s').
Proof.
  intros forged.
  apply (@refused_requests_change_nothing Toy.unicode Toy.world Toy.env
           forged (JSString (js "validTokenForBoss")) Toy.warm).
  right. intros payload. vm_compute. discriminate.
Defined.

(** X11, witness: the member logs out of the served process. *)
Lemma logout_forgets_token_witness :
  exists s',
    @SessionRoutes.logout Toy.world Toy.env
      (Some (js "Bearer session-of-member")) Demo.served
    = (Normal (json SuccessBody), s')
    /\ store s' !! userId Toy.member = None
    /\ (forall other, other <> userId Toy.member ->
        store s' !! other = store Demo.served !! other)
    /\ adminEmail s' = adminEmail Demo.served
    /\ calls s' = calls Demo.served
    /\ @SessionRoutes.tokenStore_isExpiringSoon Toy.world
         (userId Toy.member) s'
       = (Normal true, s')
    /\ @tokenStore_get Toy.world (userId Toy.member) s'
       = (Normal JSNull, s').
Proof.
  apply (@logout_forgets_token Toy.world Toy.env
           (js "Bearer session-of-member") Toy.member Demo.served);
    reflexivity.
Defined.

(** X13, witness: a stranger signs in to the revision without a roster,
    and the credential is then shown to [requireAuth]. *)
Lemma verify_session_is_sound_witness :
  let tok := JSString (js "validTokenForRandomUser") in
  let run := @Routes.verify Toy.unicode Demo.world Toy.env tok Toy.cold in
  exists token payload,
    fst run = Normal (json (SessionBody token payload (js "8h")))
    /\ @jwt_sign Demo.world 2 payload (JWT_SECRET Toy.env) (js "8h")
       = Normal token
    /\ role payload = js "user"
    /\ exists q,
        @requireAuth Demo.world Toy.env (Some (js "Bearer " ++ token))
          (snd run)
        = (Normal (inr q), tick [] (snd run))
        /\ userId q = userId payload /\ role q = role payload
        /\ requireAdmin (Some q) <> Next.
Proof.
  intros tok run.
  destruct (@verify_session_is_sound Toy.unicode Demo.world Toy.env tok
              Toy.cold
              (json (SessionBody (js "jwt-of-random")
                       (session_claims (Toy.profile_of "random@x.com")
                          (js "random@x.com") (js "user"))
                       (js "8h")))
              (snd run) demo_jwt_laws)
    as (token & payload & st & p & Hr & Hsig & _ & _ & _ & _ & _ & _ & _
        & _ & _ & Hcred);
    [vm_compute; reflexivity | reflexivity|].
  injection Hr as <- <-.
  eexists _, _. split; [vm_compute; reflexivity|].
  split; [exact Hsig|]. split; [reflexivity|]. exists Demo.random.
  assert (Hq : @requireAuth Demo.world Toy.env
                 (Some (js "Bearer " ++ js "jwt-of-random")) (snd run)
               = (Normal (inr Demo.random), tick [] (snd run)))
    by reflexivity.
  split; [exact Hq|].
  destruct (Hcred (js "Bearer " ++ js "jwt-of-random") (snd run) Demo.random
              (tick [] (snd run)) eq_refl Hq) as (Hu & Hro & Hgate).
  split; [exact Hu|]. split; [exact Hro|].
  intros Hn. apply Hgate in Hn. exact (toy_random_not_bootstrap Hn).
Defined.

(** X14, witness: the boss signs in to the revision with the roster, and
    the credential is then shown to [requireAuth]. *)
Lemma roster_session_is_sound_witness :
  let tok := JSString (js "validTokenForBoss") in
  let run := @RosterRoutes.verify Toy.unicode Demo.world Toy.env tok Toy.cold in
  exists token payload,
    fst run = Normal (json (SessionBody token payload (js "8h")))
    /\ @jwt_sign Demo.world (Nat.pred (ticks (snd run))) payload
         (JWT_SECRET Toy.env) (js "8h") = Normal token
    /\ adminEmail (snd run) = Some (userId payload)
    /\ exists q,
        @requireAuth Demo.world Toy.env (Some (js "Bearer " ++ token))
          (snd run)
        = (Normal (inr q), tick [] (snd run))
        /\ userId q = userId payload /\ role q = role payload
        /\ requireAdmin (Some q) = Next.
Proof.
  intros tok run.
  destruct (@roster_session_is_sound Toy.unicode Demo.world Toy.env tok
              Toy.cold
              (json (SessionBody (js "jwt-of-boss")
                       (admin_claims (Toy.profile_of " Boss@X.com")
                          (js "boss@x.com"))
                       (js "8h")))
              (snd run) toy_unicode_laws demo_jwt_laws)
    as (token & payload & st & p & Hr & Hsig & _ & _ & _ & _ & _ & _ & _
        & _ & Hadm & _ & Hcred);
    [vm_compute; reflexivity | reflexivity|].
  injection Hr as <- <-.
  eexists _, _. split; [vm_compute; reflexivity|].
  split; [exact Hsig|]. split; [exact (Hadm eq_refl)|]. exists Demo.boss.
  assert (Hq : @requireAuth Demo.world Toy.env
                 (Some (js "Bearer " ++ js "jwt-of-boss")) (snd run)
               = (Normal (inr Demo.boss), tick [] (snd run)))
    by reflexivity.
  split; [exact Hq|].
  destruct (Hcred (js "Bearer " ++ js "jwt-of-boss") (snd run) Demo.boss
              (tick [] (snd run)) eq_refl Hq) as (Hu & Hro & Hgate).
  split; [exact Hu|]. split; [exact Hro|].
  apply Hgate. left. exact toy_boss_is_bootstrap.
Defined.

(** X15, witness: the member signs in to the served process, and the
    credential is then shown to [requireAuth]. *)
Lemma roster_member_signs_in_witness :
  exists s',
    @RosterRoutes.verify Toy.unicode Demo.world Toy.env
      (JSString (js "validTokenForMember")) Demo.served
    = (Normal (json (SessionBody (js "jwt-of-member")
                       (session_claims (Toy.profile_of "member@x.com")
                          (js "member@x.com") (js "user"))
                       (js "8h"))), s')
    /\ calls s'
       = calls Demo.served
         ++ [CallUserinfo (JSString (js "validTokenForMember"))]
    /\ adminEmail s' = Some (js "boss@x.com")
    /\ exists q,
        @requireAuth Demo.world Toy.env (Some (js "Bearer jwt-of-member")) s'
        = (Normal (inr q), tick [] s')
        /\ userId q = js "member@x.com" /\ role q = js "user".
Proof.
  destruct (@roster_member_signs_in Toy.unicode Demo.world Toy.env
              (JSString (js "validTokenForMember")) 200
              (Toy.profile_of "member@x.com") (js "member@x.com")
              Demo.served (js "boss@x.com") Demo.boss_entry
              (default ∅ (cache Demo.served)) Demo.member_row
              (js "jwt-of-member") toy_unicode_laws demo_jwt_laws)
    as (s' & Hrun & Hcalls & _ & Hadm & Hcred);
    [reflexivity | reflexivity | reflexivity | lia | reflexivity
    | discriminate | exact toy_member_not_bootstrap
    | reflexivity | discriminate | discriminate
    | vm_compute; reflexivity | reflexivity
    | vm_compute; discriminate | vm_compute; reflexivity
    | vm_compute; discriminate | vm_compute; reflexivity
    | vm_compute; reflexivity |].
  exists s'. split; [exact Hrun|]. split; [exact Hcalls|].
  split; [exact Hadm|]. exists Toy.member.
  assert (Hq : @requireAuth Demo.world Toy.env
                 (Some (js "Bearer jwt-of-member")) s'
               = (Normal (inr Toy.member), tick [] s')) by reflexivity.
  split; [exact Hq|].
  exact (Hcred (js "Bearer jwt-of-member") s' Toy.member (tick [] s')
           eq_refl Hq).
Defined.

(** X16, witness: the first look-up after the boss signed in reads the
    sheet and finds the member. *)
Lemma lookupUser_reads_sheet_witness :
  let g := JSString (js "validTokenForBoss") in
  exists s',
    fst (@UserStore.lookupUser Toy.unicode Toy.world Toy.env
           (js " Member@X.com") Toy.warm)
    = Normal (Some Demo.member_row)
    /\ @UserStore.lookupUser Toy.unicode Toy.world Toy.env
         (js " Member@X.com") Toy.warm
       = (fst (@UserStore.lookupUser Toy.unicode Toy.world Toy.env
                 (js " Member@X.com") Toy.warm), s')
    /\ calls s'
       = calls Toy.warm ++ [CallSheets GetSheetProperties g;
                            CallSheets GetUsersValues g].
Proof.
  intros g.
  destruct (@lookupUser_reads_sheet Toy.unicode Toy.world Toy.env
              (js " Member@X.com") Toy.warm (js "boss@x.com")
              Demo.boss_entry 200
              {| sheets := Some [UserStore.USERS_TAB]; values := None |}
              200
              (Some {| sheets := None;
                       values := Some [[js "email"; js "role"];
                                       [js "member@x.com"; js "user"]] |}))
    as (s' & Hrun & _ & _ & _ & _ & Hcalls);
    [ intros Hin; apply (bool_decide_eq_true_2 _) in Hin;
      vm_compute in Hin; discriminate
    | reflexivity | discriminate | vm_compute; reflexivity | reflexivity
    | intros t Ht;
      replace (ticks Toy.warm) with 3%nat in Ht by (vm_compute; reflexivity);
      change (1000 + Z.of_nat t <= 1001 + 55 * 60 * 1000); lia
    | left; reflexivity | reflexivity | lia | left | reflexivity | lia |].
  exists s'. split; [vm_compute; reflexivity|].
  split; [rewrite Hrun; reflexivity | exact Hcalls].
Defined.

(** X21, witness: the boss refreshes the Google token in a process that
    has just started. *)
Lemma admin_refresh_renews_roster_access_witness :
  let tok := JSString (js "validTokenForBoss") in
  exists s',
    @RosterRoutes.refresh_google Toy.unicode Demo.world Toy.env
      (Some (js "Bearer session-of-boss")) tok Toy.cold
    = (Normal (json SuccessBody), s')
    /\ adminEmail s' = Some (js "boss@x.com")
    /\ @UserStore.isReady Demo.world s' = (Normal true, tick [] s').
Proof.
  intros tok.
  destruct (@admin_refresh_renews_roster_access Toy.unicode Demo.world
              Toy.env (js "Bearer session-of-boss") Demo.boss tok 200
              (Toy.profile_of " Boss@X.com") Toy.cold)
    as (s' & Hrun & _ & Hadm);
    [reflexivity | reflexivity | reflexivity | reflexivity | lia
    | reflexivity | discriminate |].
  destruct (Hadm eq_refl) as [Ha Hlive].
  exists s'. split; [exact Hrun|]. split; [exact Ha|].
  apply Hlive. apply (f_equal snd) in Hrun. cbn [snd] in Hrun.
  subst s'. vm_compute. discriminate.
Defined.

(** X18, witness: a sheet that lists one address twice. *)
Lemma roster_of_sheet_witness :
  let rows := [[js " A@x.com "; js "user"]; [js "b@x.com"];
               [js "a@X.com"; js "admin"]] in
  @UserStore.roster_map
    (@UserStore.rows_of Toy.unicode
       (Some {| sheets := None;
                values := Some ([js "email"; js "role"] :: rows) |}))
    !! js "a@x.com"
  = Some {| u_email := js "a@x.com"; u_role := js "admin";
            u_row := Some (4, [], []) |}.
Proof.
  intros rows.
  destruct (@roster_of_sheet Toy.unicode None [js "email"; js "role"] rows
              (js "a@x.com")) as [-> _]; [discriminate|].
  vm_compute. reflexivity.
Defined.

(** X19, witness: a first call, then one an hour less six minutes
    later. *)
Lemma service_token_is_reused_witness :
  let raw := Some (js "{}") in
  exists s1,
    @ServiceAccount.getServiceToken Demo.google raw ServiceAccount.initial
    = (ServiceAccount.Returned (JSString (js "ya29.svc")), s1)
    /\ ServiceAccount.posted s1 = [js "assertion"]
    /\ @ServiceAccount.getServiceToken Demo.google raw
         {| ServiceAccount.cachedToken := ServiceAccount.cachedToken s1;
            ServiceAccount.tokenExpiresAt := ServiceAccount.tokenExpiresAt s1;
            ServiceAccount.ticks := 3000;
            ServiceAccount.posted := ServiceAccount.posted s1 |}
       = (ServiceAccount.Returned (JSString (js "ya29.svc")),
          ServiceAccount.tick []
            {| ServiceAccount.cachedToken := ServiceAccount.cachedToken s1;
               ServiceAccount.tokenExpiresAt :=
                 ServiceAccount.tokenExpiresAt s1;
               ServiceAccount.ticks := 3000;
               ServiceAccount.posted := ServiceAccount.posted s1 |}).
Proof.
  intros raw.
  destruct (@service_token_is_reused Demo.google raw
              (JSString (js "svc@x.iam"), JSString (js "pem"))
              ServiceAccount.initial (js "assertion") 200
              (JSString (js "ya29.svc")) 3600)
    as (s1 & Hrun & Hposted & Hlater);
    [reflexivity | reflexivity | reflexivity | reflexivity | lia
    | reflexivity |].
  exists s1. split; [exact Hrun|]. split; [exact Hposted|].
  apply Hlater; [reflexivity | reflexivity | vm_compute; reflexivity].
Defined.

(** X20, witness: the first call of a process. *)
Lemma service_token_call_shape_witness :
  let raw := Some (js "{}") in
  let run :=
    @ServiceAccount.getServiceToken Demo.google raw ServiceAccount.initial in
  fst run = ServiceAccount.Returned (JSString (js "ya29.svc"))
  /\ ServiceAccount.posted (snd run) = [js "assertion"]
  /\ ServiceAccount.cachedToken (snd run) = JSString (js "ya29.svc").
Proof.
  intros raw run.
  destruct (@service_token_call_shape Demo.google raw
              ServiceAccount.initial (fst run) (snd run))
    as (_ & _ & _ & _ & Hret); [apply surjective_pairing|].
  split; [reflexivity|]. split; [reflexivity|].
  apply Hret; [reflexivity | discriminate].
Defined.
